(** * CSV storage backend (jobspy_v2/storage/csv_backend.py)

    A shallow embedding of the CSV fallback store: three comma-separated
    text files (sent emails, scraped jobs, run statistics) that are read
    with [csv.DictReader], appended to and rewritten with [csv.DictWriter].

    The development has these parts:
    - [Text]: Python text files as strings, and iteration over their lines;
    - [Csv], [DictReader], [DictWriter]: the part of the standard [csv]
      module the backend uses (the default "excel" dialect of CPython 3.11
      and later: writer with minimal quoting, the reader's state machine);
    - [Py]: a state-and-exception monad over the world the backend touches
      (files by path, the caller's record objects, the clock, the log);
    - [Pathlib]: the joining of paths that [__init__] does;
    - [CsvBackend]: the functions of csv_backend.py, one definition each;
    - [Spec], [Example]: the vocabulary of the properties, and sample data;
    - facts about each layer, then the properties of the specification. *)

From Stdlib Require Import ZArith Ascii String DecimalString.
From stdpp Require Import gmap strings list fin_maps functions.

Set Default Proof Using "Type".

(** ** Characters and strings *)

Definition CR : ascii := "013"%char.
Definition LF : ascii := "010"%char.
Definition COMMA : ascii := ","%char.
Definition QUOTE : ascii := "034"%char.

Notation "[: c :]" := (String c EmptyString) (format "[: c :]").

Definition is_newline (c : ascii) : bool := Ascii.eqb c CR || Ascii.eqb c LF.

(** [str(n)] for a Python int. *)
Definition str_int (n : Z) : string := NilZero.string_of_int (Z.to_int n).

(** [s.startswith(p)] *)
Fixpoint startswith (s p : string) : bool :=
  match p, s with
  | EmptyString, _ => true
  | String a p', String b s' => Ascii.eqb a b && startswith s' p'
  | String _ _, EmptyString => false
  end.

(** Truthiness of a [str]: the empty string is falsy. *)
Definition str_truthy (s : string) : bool :=
  match s with EmptyString => false | String _ _ => true end.

Fixpoint string_forallb (p : ascii → bool) (s : string) : bool :=
  match s with
  | EmptyString => true
  | String c s' => p c && string_forallb p s'
  end.

(** [c * n]: the character [n] times. *)
Fixpoint str_repeat (c : ascii) (n : nat) : string :=
  match n with
  | O => EmptyString
  | S n' => String c (str_repeat c n')
  end.

(** ** Text files *)

Module Text.

(** Iteration over a file opened in text mode. Universal newlines are on in
    both modes the backend uses: a line ends after LF, after CR LF, or after
    a CR that no LF follows; a last line without terminator is a line too.
    With an empty [newline] the terminators come through untranslated, which is
    what [readlines] returns. With the default [newline=None] every
    terminator is handed over as LF, at the same line boundaries, so the
    number of lines is the same. *)
Fixpoint readlines (s : string) : list string :=
  match s with
  | EmptyString => []
  | String c s' =>
      if Ascii.eqb c LF then [: c :] :: readlines s'
      else if Ascii.eqb c CR then
        match s' with
        | String d s'' =>
            if Ascii.eqb d LF then String c [: d :] :: readlines s''
            else [: c :] :: readlines s'
        | EmptyString => [[: c :]]
        end
      else
        match readlines s' with
        | [] => [[: c :]]
        | l :: ls => String c l :: ls
        end
  end.

(** [sum(1 for _ in f)] *)
Definition count_lines (s : string) : nat := length (readlines s).

(** Whether a line ends right after the character [c], given the text that
    follows it. *)
Definition line_ends (c : ascii) (s' : string) : bool :=
  match s' with
  | EmptyString => true
  | String d _ => Ascii.eqb c LF || (Ascii.eqb c CR && negb (Ascii.eqb d LF))
  end.

Definition no_newline (s : string) : bool :=
  string_forallb (λ c, negb (is_newline c)) s.

(** The shape of a line as the iteration hands it over: line-break
    characters only at its end, as LF, CR, or CR LF. *)
Fixpoint well_ended (l : string) : Prop :=
  match l with
  | EmptyString => True
  | String c l' =>
      if is_newline c then l' = EmptyString ∨ (c = CR ∧ l' = [: LF :])
      else well_ended l'
  end.

End Text.

(** ** The csv module, excel dialect *)

Module Csv.

Definition lineterminator : string := String CR [: LF :].

(** *** Writer *)

(** Characters that force a field into quotes under QUOTE_MINIMAL: the
    delimiter, the quote character, and the characters of the line
    terminator. *)
Definition is_special (c : ascii) : bool :=
  Ascii.eqb c COMMA || Ascii.eqb c QUOTE || is_newline c.

Definition must_quote (field : string) : bool :=
  negb (string_forallb (λ c, negb (is_special c)) field).

(** The field's characters with every quote doubled. *)
Fixpoint escape (field : string) : string :=
  match field with
  | EmptyString => EmptyString
  | String c s =>
      if Ascii.eqb c QUOTE then String QUOTE (String QUOTE (escape s))
      else String c (escape s)
  end.

Definition quote_field (field : string) : string :=
  String QUOTE (escape field +:+ [: QUOTE :]).

Definition join_append (field : string) : string :=
  if must_quote field then quote_field field else field.

Fixpoint join_fields (fields : list string) : string :=
  match fields with
  | [] => EmptyString
  | [f] => join_append f
  | f :: fs => join_append f +:+ String COMMA (join_fields fs)
  end.

(** [writer.writerow(fields)], as the text written to the file. A record
    that is a single empty field is quoted, so that it does not read back
    as a blank line. *)
Definition writerow (fields : list string) : string :=
  match fields with
  | [EmptyString] => quote_field EmptyString +:+ lineterminator
  | _ => join_fields fields +:+ lineterminator
  end.

Definition writerows (rows : list (list string)) : string :=
  foldr (λ row out, writerow row +:+ out) EmptyString rows.

(** *** Reader *)

Inductive ParserState :=
  | START_RECORD
  | START_FIELD
  | IN_FIELD
  | IN_QUOTED_FIELD
  | QUOTE_IN_QUOTED_FIELD
  | EAT_CRNL.

Global Instance ParserState_eq_dec : EqDecision ParserState.
Proof. solve_decision. Defined.

Record Reader := mkReader {
  state : ParserState;
  field : string;
  fields : list string
}.

Definition parse_reset : Reader := mkReader START_RECORD EmptyString [].

Definition set_state (st : ParserState) (r : Reader) : Reader :=
  mkReader st (field r) (fields r).

(** [csv.field_size_limit()]: the backend leaves it at its default. *)
Definition field_limit : N := 131072.

Definition field_len (r : Reader) : N := N.of_nat (String.length (field r)).

(** A text that a field of the reader can take. *)
Definition within_limit (s : string) : bool :=
  (N.of_nat (String.length s) <=? field_limit)%N.

(** [parse_add_char] puts a character at the end of the field, unless the
    field has reached the limit: then it raises [csv.Error], "field larger
    than field limit (131072)". The two halves are kept apart here:
    [field_too_large] is the test, [parse_add_char] the effect, and
    [parse_error] below makes the test at every step that adds a character
    ([adds_char_spec] shows that these are the steps after which the field
    has grown by the character). *)
Definition field_too_large (r : Reader) : bool :=
  (field_limit <=? field_len r)%N.

Definition parse_add_char (c : ascii) (r : Reader) : Reader :=
  mkReader (state r) (field r +:+ [: c :]) (fields r).

Definition parse_save_field (r : Reader) : Reader :=
  mkReader (state r) EmptyString (fields r ++ [field r]).

(** The reader is driven with the characters of a line and, after the last
    one, an end-of-line marker ([None]). *)
Definition at_line_break (c : option ascii) : bool :=
  match c with
  | None => true
  | Some ch => is_newline ch
  end.

Definition after_line_break (c : option ascii) : ParserState :=
  match c with
  | None => START_RECORD
  | Some _ => EAT_CRNL
  end.

Definition start_field (r : Reader) (c : option ascii) : Reader :=
  if at_line_break c then
    set_state (after_line_break c) (parse_save_field r)
  else match c with
  | None => r
  | Some ch =>
      if Ascii.eqb ch QUOTE then set_state IN_QUOTED_FIELD r
      else if Ascii.eqb ch COMMA then parse_save_field r
      else set_state IN_FIELD (parse_add_char ch r)
  end.

Definition parse_process_char (r : Reader) (c : option ascii) : Reader :=
  match state r with
  | START_RECORD =>
      match c with
      | None => r
      | Some ch =>
          if is_newline ch then set_state EAT_CRNL r
          else start_field (set_state START_FIELD r) c
      end
  | START_FIELD => start_field r c
  | IN_FIELD =>
      if at_line_break c then
        set_state (after_line_break c) (parse_save_field r)
      else match c with
      | None => r
      | Some ch =>
          if Ascii.eqb ch COMMA then
            set_state START_FIELD (parse_save_field r)
          else parse_add_char ch r
      end
  | IN_QUOTED_FIELD =>
      match c with
      | None => r
      | Some ch =>
          if Ascii.eqb ch QUOTE then set_state QUOTE_IN_QUOTED_FIELD r
          else parse_add_char ch r
      end
  | QUOTE_IN_QUOTED_FIELD =>
      match c with
      | Some ch =>
          if Ascii.eqb ch QUOTE then
            set_state IN_QUOTED_FIELD (parse_add_char ch r)
          else if Ascii.eqb ch COMMA then
            set_state START_FIELD (parse_save_field r)
          else if is_newline ch then
            set_state EAT_CRNL (parse_save_field r)
          else set_state IN_FIELD (parse_add_char ch r)
      | None => set_state START_RECORD (parse_save_field r)
      end
  | EAT_CRNL =>
      match c with
      | None => set_state START_RECORD r
      | Some _ => r
      end
  end.

Fixpoint feed (r : Reader) (line : string) : Reader :=
  match line with
  | EmptyString => r
  | String c l => feed (parse_process_char r (Some c)) l
  end.

Definition feed_line (r : Reader) (line : string) : Reader :=
  parse_process_char (feed r line) None.

(** What the reader yields when the lines run out inside a record. *)
Definition at_eof (r : Reader) : list (list string) :=
  if str_truthy (field r) || bool_decide (state r = IN_QUOTED_FIELD)
  then [fields (parse_save_field r)]
  else [].

(** All records of a reader over the given lines: a record is complete when
    the state is back at START_RECORD after a line; otherwise the next line
    continues it. *)
Fixpoint reader_loop (r : Reader) (lines : list string) : list (list string) :=
  match lines with
  | [] => at_eof r
  | l :: ls =>
      let r' := feed_line r l in
      if bool_decide (state r' = START_RECORD)
      then fields r' :: reader_loop parse_reset ls
      else reader_loop r' ls
  end.

(** Whether a step of [parse_process_char] goes through [parse_add_char]:
    the same cases as above, with the branches that add the character. *)
Definition adds_char (r : Reader) (c : option ascii) : bool :=
  match c with
  | None => false
  | Some ch =>
      match state r with
      | START_RECORD | START_FIELD =>
          negb (is_newline ch) && negb (Ascii.eqb ch QUOTE)
          && negb (Ascii.eqb ch COMMA)
      | IN_FIELD => negb (is_newline ch) && negb (Ascii.eqb ch COMMA)
      | IN_QUOTED_FIELD => negb (Ascii.eqb ch QUOTE)
      | QUOTE_IN_QUOTED_FIELD =>
          Ascii.eqb ch QUOTE
          || (negb (Ascii.eqb ch COMMA) && negb (is_newline ch))
      | EAT_CRNL => false
      end
  end.

(** The two ways this reader raises [csv.Error] (the dialect is not
    strict): once a line break has ended a record, another character on the
    same line ("new-line character seen in unquoted field"); and a character
    for a field that is at the limit already ("field larger than field
    limit"). *)
Definition parse_error (r : Reader) (c : option ascii) : bool :=
  match state r, c with
  | EAT_CRNL, Some ch => negb (is_newline ch)
  | _, _ => adds_char r c && field_too_large r
  end.

Fixpoint feed_ok (r : Reader) (line : string) : bool :=
  match line with
  | EmptyString => true
  | String c l =>
      negb (parse_error r (Some c)) && feed_ok (parse_process_char r (Some c)) l
  end.

(** Whether the reader gets through the lines without an error. *)
Fixpoint reader_ok (r : Reader) (lines : list string) : bool :=
  match lines with
  | [] => true
  | l :: ls =>
      feed_ok r l
      && let r' := feed_line r l in
         if bool_decide (state r' = START_RECORD)
         then reader_ok parse_reset ls
         else reader_ok r' ls
  end.

(** [list(csv.reader(f))] for a file with the given contents, when the
    reader gets through. *)
Definition reader (contents : string) : list (list string) :=
  reader_loop parse_reset (Text.readlines contents).

(** The reader over the lines of a text, and whether it gets through. *)
Definition scan (r : Reader) (s : string) : list (list string) :=
  reader_loop r (Text.readlines s).

Definition scan_ok (r : Reader) (s : string) : bool :=
  reader_ok r (Text.readlines s).

Definition fresh (st : ParserState) : Prop := st = START_RECORD ∨ st = START_FIELD.

(** What the reader holds is within the limit: the field it is in, and the
    fields of the record so far. *)
Definition within_limits (r : Reader) : Prop :=
  within_limit (field r) = true ∧ forallb within_limit (fields r) = true.

End Csv.

(** *** Dictionaries for rows *)

(** The value of a row's field: a string, or Python's [None] (what
    [DictReader] fills in for a field the line does not have). *)
Inductive value :=
  | Str (s : string)
  | PyNone.

Global Instance value_eq_dec : EqDecision value.
Proof. solve_decision. Defined.

(** A row as a [dict]. The keys are strings, except for the one key [None]
    under which [DictReader] stores the surplus fields of a line that is
    longer than the header ([restkey]); that entry is [rest]. *)
Record PyDict := mkDict {
  items : gmap string value;
  rest : option (list string)
}.

Global Instance PyDict_eq_dec : EqDecision PyDict.
Proof. solve_decision. Defined.

Definition empty_dict : PyDict := mkDict ∅ None.

(** [d.get(key, default)] *)
Definition dict_get (d : PyDict) (key : string) (default : value) : value :=
  match items d !! key with
  | Some v => v
  | None => default
  end.

(** [d[key] = v] *)
Definition dict_set (key : string) (v : value) (d : PyDict) : PyDict :=
  mkDict (<[key := v]> (items d)) (rest d).

(** [dict(zip(keys, vals))]: a later pair wins over an earlier one with the
    same key. *)
Definition dict_zip (keys vals : list string) : gmap string value :=
  foldl (λ m kv, <[kv.1 := Str kv.2]> m) ∅ (zip keys vals).

(** ["%s" % v] *)
Definition format_value (v : value) : string :=
  match v with
  | Str s => s
  | PyNone => "None"
  end.

Module DictReader.

(** One line of fields against the header: surplus fields go under the rest
    key, missing ones are filled in with [None]. *)
Definition row_to_dict (fieldnames row : list string) : PyDict :=
  let d := dict_zip fieldnames row in
  let lf := length fieldnames in
  let lr := length row in
  if lf <? lr then mkDict d (Some (drop lf row))
  else if lr <? lf then
    mkDict (foldl (λ m key, <[key := PyNone]> m) d (drop lr fieldnames)) None
  else mkDict d None.

Definition is_blank (row : list string) : bool :=
  match row with [] => true | _ => false end.

(** The rows [csv.DictReader(f)] yields when the reader gets through: the
    first record is the header, whatever it is; blank records after it are
    skipped. *)
Definition read_all (contents : string) : list PyDict :=
  match Csv.reader contents with
  | [] => []
  | fieldnames :: rows =>
      map (row_to_dict fieldnames) (filter (λ row, is_blank row = false) rows)
  end.

(** [list(csv.DictReader(f))]: the rows, or [None] when the reader raises
    [csv.Error]. *)
Definition to_list (contents : string) : option (list PyDict) :=
  if Csv.reader_ok Csv.parse_reset (Text.readlines contents)
  then Some (read_all contents)
  else None.

End DictReader.

Module DictWriter.

Inductive extrasaction := raise | ignore.

(** The text the writer puts out for a field value: [None] is written as
    the empty string. *)
Definition cell_text (v : value) : string :=
  match v with
  | Str s => s
  | PyNone => EmptyString
  end.

(** Keys of the row that are no field names; with [extrasaction="raise"]
    they make [writerow] fail. The rest key is never a field name. *)
Definition wrong_fields (fieldnames : list string) (d : PyDict) : bool :=
  existsb (λ key, bool_decide (key ∉ fieldnames)) (map_to_list (items d)).*1
  || bool_decide (is_Some (rest d)).

(** [_dict_to_list]: the row's values in the order of the field names, a
    missing key standing for the empty string ([restval]). [None] for a row
    the writer rejects. *)
Definition dict_to_list (fieldnames : list string) (ea : extrasaction)
    (d : PyDict) : option (list string) :=
  let vals := map (λ key, cell_text (dict_get d key (Str EmptyString))) fieldnames in
  match ea with
  | ignore => Some vals
  | raise => if wrong_fields fieldnames d then None else Some vals
  end.

Definition writerow (fieldnames : list string) (ea : extrasaction)
    (d : PyDict) : option string :=
  Csv.writerow <$> dict_to_list fieldnames ea d.

(** [writeheader] writes the row [dict(zip(fieldnames, fieldnames))]. *)
Definition header (fieldnames : list string) : PyDict :=
  mkDict (dict_zip fieldnames fieldnames) None.

Definition writeheader (fieldnames : list string) (ea : extrasaction)
    : option string :=
  writerow fieldnames ea (header fieldnames).

End DictWriter.

(** ** Files of the store *)

(** The text of a file that holds a header and the given records. *)
Definition file_text (columns : list string) (rows : list (list string)) : string :=
  Csv.writerow columns +:+ Csv.writerows rows.

(** The fields the writer puts out for a row: the values under the column
    names, in their order. *)
Definition stored_row (columns : list string) (d : PyDict) : list string :=
  map (λ key, DictWriter.cell_text (dict_get d key (Str EmptyString))) columns.

(** The row as [DictReader] returns it once it has been written. *)
Definition read_back (columns : list string) (d : PyDict) : PyDict :=
  DictReader.row_to_dict columns (stored_row columns d).

(** ** The world of the backend, and a monad over it *)

Module Py.

Inductive Level := DEBUG | INFO | WARNING.

Record LogRecord := mkLog { level : Level; message : string }.

(** A calendar date, as [datetime.date] has it. *)
Record Date := mkDate { year : nat; month : nat; day : nat }.

Fixpoint zeros (n : nat) : string :=
  match n with
  | O => EmptyString
  | S n' => String "0" (zeros n')
  end.

(** ["%0<width>d" % n] *)
Definition zfill (width : nat) (n : nat) : string :=
  let s := str_int (Z.of_nat n) in
  zeros (width - String.length s) +:+ s.

(** [date.isoformat()]: YYYY-MM-DD. *)
Definition isoformat (d : Date) : string :=
  zfill 4 (year d) +:+ "-" +:+ zfill 2 (month d) +:+ "-" +:+ zfill 2 (day d).

(** What the backend reads and writes: the files by path, the record
    objects the caller owns and hands over by reference (the backend
    mutates them in place), the clock's date, and the log. *)
Record World := mkWorld {
  files : gmap string string;
  heap : nat → PyDict;
  today : Date;
  logs : list LogRecord
}.

Inductive Exn := FileNotFoundError | IndexError | ValueError | CsvError.

Inductive Result (A : Type) :=
  | Ok (a : A)
  | Raised (e : Exn).
Global Arguments Ok {A} a.
Global Arguments Raised {A} e.

Definition M (A : Type) : Type := World → Result A * World.

Global Instance M_ret : MRet M := λ A a w, (Ok a, w).

Global Instance M_bind : MBind M := λ A B f m w,
  match m w with
  | (Ok a, w') => f a w'
  | (Raised e, w') => (Raised e, w')
  end.

Definition throw {A} (e : Exn) : M A := λ w, (Raised e, w).

Definition get_world : M World := λ w, (Ok w, w).

Definition set_files (fs : gmap string string) : M unit :=
  λ w, (Ok tt, mkWorld fs (heap w) (today w) (logs w)).

(** *** Files *)

(** [path.exists()] *)
Definition path_exists (path : string) : M bool :=
  w ← get_world; mret (bool_decide (is_Some (files w !! path))).

(** The whole text of a file opened for reading. *)
Definition read_text (path : string) : M string :=
  w ← get_world;
  match files w !! path with
  | Some contents => mret contents
  | None => throw FileNotFoundError
  end.

(** [path.open("w")]: the file is created or truncated. *)
Definition open_truncate (path : string) : M unit :=
  w ← get_world; set_files (<[path := EmptyString]> (files w)).

(** [f.write(text)] on a file opened with "w" or "a": the text goes to the
    end of the file. *)
Definition write (path : string) (text : string) : M unit :=
  w ← get_world;
  set_files (<[path := default EmptyString (files w !! path) +:+ text]> (files w)).

(** *** Caller-owned records *)

(** [record[key] = v] on the object at address [a] *)
Definition setitem (a : nat) (key : string) (v : value) : M unit :=
  λ w, (Ok tt, mkWorld (files w) (<[a := dict_set key v (heap w a)]> (heap w))
                       (today w) (logs w)).

(** *** Clock and log *)

(** [date.today()] *)
Definition date_today : M Date :=
  w ← get_world; mret (today w).

(** [logger.debug], [logger.info], [logger.warning]: the log holds every
    call, whatever the handlers let through. *)
Definition log (lvl : Level) (msg : string) : M unit :=
  λ w, (Ok tt, mkWorld (files w) (heap w) (today w) (logs w ++ [mkLog lvl msg])).

(** *** Lists *)

(** [l[i]] with Python's indexing: a negative index counts from the end,
    and an index outside the list raises. *)
Definition py_index {A} (l : list A) (i : Z) : option nat :=
  let n := Z.of_nat (length l) in
  if bool_decide (0 ≤ i < n)%Z then Some (Z.to_nat i)
  else if bool_decide (- n ≤ i < 0)%Z then Some (Z.to_nat (n + i))
  else None.

Definition getitem {A} (l : list A) (i : Z) : M A :=
  match py_index l i ≫= (l !!.) with
  | Some x => mret x
  | None => throw IndexError
  end.

(** [for x in l: body(x)] *)
Fixpoint for_each {A} (l : list A) (body : A → M unit) : M unit :=
  match l with
  | [] => mret tt
  | x :: l' => body x;; for_each l' body
  end.

(** [enumerate(l, start)], with indices as Python ints *)
Fixpoint enumerate_from {A} (start : Z) (l : list A) : list (Z * A) :=
  match l with
  | [] => []
  | x :: l' => (start, x) :: enumerate_from (start + 1) l'
  end.

Definition enumerate {A} (l : list A) : list (Z * A) := enumerate_from 0 l.

(** [writer.writerow(d)] into the open file: raises for a row the writer
    rejects. *)
Definition writerow (path : string) (fieldnames : list string)
    (ea : DictWriter.extrasaction) (d : PyDict) : M unit :=
  match DictWriter.writerow fieldnames ea d with
  | Some text => write path text
  | None => throw ValueError
  end.

Definition writeheader (path : string) (fieldnames : list string)
    (ea : DictWriter.extrasaction) : M unit :=
  writerow path fieldnames ea (DictWriter.header fieldnames).

End Py.

(** ** Paths *)

(** [pathlib.Path] on a POSIX system, as far as the backend uses it: a path
    made from a string, joined with a file name, and turned back into a
    string. *)
Module Pathlib.

Definition SEP : ascii := "/"%char.

(** [s.split("/")] *)
Fixpoint split (s : string) : list string :=
  match s with
  | EmptyString => [EmptyString]
  | String c s' =>
      if Ascii.eqb c SEP then EmptyString :: split s'
      else match split s' with
           | [] => [[: c :]]
           | x :: xs => String c x :: xs
           end
  end.

(** ["/".join(parts)] *)
Fixpoint join (parts : list string) : string :=
  match parts with
  | [] => EmptyString
  | [x] => x
  | x :: xs => x +:+ String SEP (join xs)
  end.

(** A path as pathlib keeps it: the root (empty for a relative path) and the
    components after it. *)
Record Path := mkPath {
  root : string;
  parts : list string
}.

(** [posixpath.splitroot]: one leading slash, or three and more, make the
    root "/"; exactly two make the root "//". *)
Definition splitroot (p : string) : string * string :=
  match p with
  | String a p1 =>
      if Ascii.eqb a SEP then
        match p1 with
        | String b p2 =>
            if Ascii.eqb b SEP then
              match p2 with
              | String c _ => if Ascii.eqb c SEP then ("/", p1) else ("//", p2)
              | EmptyString => ("//", p2)
              end
            else ("/", p1)
        | EmptyString => ("/", p1)
        end
      else (EmptyString, p)
  | EmptyString => (EmptyString, p)
  end.

(** [Path(s)]: the components are the pieces between slashes, without the
    empty ones and without "."; ".." is kept. *)
Definition parse (s : string) : Path :=
  mkPath (splitroot s).1
    (filter (λ x, x ≠ EmptyString ∧ x ≠ ".") (split (splitroot s).2)).

(** [self / key] for a string [key]: the components of [key] follow those of
    [self], and a [key] with a root replaces [self]. *)
Definition truediv (self : Path) (key : string) : Path :=
  let other := parse key in
  match root other with
  | EmptyString => mkPath (root self) (parts self ++ parts other)
  | _ => other
  end.

(** [str(path)]: the path without components and without root is ".". *)
Definition str (p : Path) : string :=
  match root p, parts p with
  | EmptyString, [] => "."
  | r, ps => r +:+ join ps
  end.

End Pathlib.

(** ** csv_backend.py *)

Module CsvBackend.
Import Py.

Section Backend.

(** The three schemas come from [jobspy_v2.storage.base]; the backend takes
    them as they are. *)
Variable SENT_EMAIL_COLUMNS : list string.
Variable SCRAPED_JOB_COLUMNS : list string.
Variable RUN_STATS_COLUMNS : list string.

(** Create the CSV file with headers if it doesn't exist. (Directories are
    not modelled: [mkdir] has nothing to do.) *)
Definition _ensure_csv (path : string) (columns : list string) : M unit :=
  ex ← path_exists path;
  if ex : bool then mret tt
  else
    open_truncate path;;
    writeheader path columns DictWriter.raise;;
    log INFO ("Created CSV file: " +:+ path).

(** Read all rows from a CSV file as list of dicts. *)
Definition _read_csv (path : string) (columns : list string) : M (list PyDict) :=
  _ensure_csv path columns;;
  contents ← read_text path;
  match DictReader.to_list contents with
  | Some rows => mret rows
  | None => throw CsvError
  end.

(** Append rows to a CSV file, creating it if needed. Returns the starting
    line number. *)
Definition _append_rows (path : string) (columns : list string)
    (rows : list PyDict) : M Z :=
  _ensure_csv path columns;;
  contents ← read_text path;
  let existing_lines := Z.of_nat (Text.count_lines contents) in
  let start_row := (existing_lines + 1)%Z in
  for_each rows (λ row, writerow path columns DictWriter.ignore row);;
  mret start_row.

(** The backend object: [__init__] fixes the three paths. Each path is kept
    as its string, [str(path)], the name under which the world has the file
    (two names that a file system would resolve to one file are two files
    here). *)
Record CsvBackend := mkBackend {
  _base : string;
  _sent_path : string;
  _jobs_path : string;
  _stats_path : string
}.

Definition __init__ (base_dir : string) : CsvBackend :=
  let base := Pathlib.parse base_dir in
  mkBackend (Pathlib.str base)
    (Pathlib.str (Pathlib.truediv base "sent_emails.csv"))
    (Pathlib.str (Pathlib.truediv base "scraped_jobs.csv"))
    (Pathlib.str (Pathlib.truediv base "run_stats.csv")).

Variable self : CsvBackend.

Definition get_sent_emails : M (list PyDict) :=
  _read_csv (_sent_path self) SENT_EMAIL_COLUMNS.

Definition add_sent_email (record : PyDict) : M unit :=
  _append_rows (_sent_path self) SENT_EMAIL_COLUMNS [record];;
  log DEBUG ("Recorded sent email: " +:+ format_value (dict_get record "email" (Str "?"))).

Definition _get_next_row_number : M Z :=
  _ensure_csv (_jobs_path self) SCRAPED_JOB_COLUMNS;;
  contents ← read_text (_jobs_path self);
  mret (Z.of_nat (Text.count_lines contents) + 1)%Z.

(** [records] are references to the caller's dicts, which the loop mutates;
    the rows are written from the objects as they are after the loop. *)
Definition add_scraped_jobs (records : list nat) : M Z :=
  match records with
  | [] =>
      _ensure_csv (_jobs_path self) SCRAPED_JOB_COLUMNS;;
      contents ← read_text (_jobs_path self);
      mret (Z.of_nat (Text.count_lines contents) + 1)%Z
  | _ =>
      start_row ← _get_next_row_number;
      for_each (enumerate records) (λ '(i, record),
        setitem record "row_number" (Str (str_int (start_row + i))));;
      w ← get_world;
      _append_rows (_jobs_path self) SCRAPED_JOB_COLUMNS (heap w <$> records)
  end.

(** [rows[i][key] = v] on the list of dicts read from the file *)
Definition setitem_at (rows : list PyDict) (i : Z) (key : string) (v : value)
    : M (list PyDict) :=
  row ← getitem rows i;
  mret (<[default 0 (py_index rows i) := dict_set key v row]> rows).

Definition update_scraped_job_status (row_number : Z)
    (email_sent skip_reason email_recipient : string) : M unit :=
  _ensure_csv (_jobs_path self) SCRAPED_JOB_COLUMNS;;
  rows ← _read_csv (_jobs_path self) SCRAPED_JOB_COLUMNS;
  let data_index := (row_number - 2)%Z in
  if bool_decide (0 ≤ data_index)%Z && bool_decide (data_index < Z.of_nat (length rows))%Z
  then
    rows ← setitem_at rows data_index "email_sent" (Str email_sent);
    rows ← setitem_at rows data_index "skip_reason" (Str skip_reason);
    rows ← setitem_at rows data_index "email_recipient" (Str email_recipient);
    open_truncate (_jobs_path self);;
    writeheader (_jobs_path self) SCRAPED_JOB_COLUMNS DictWriter.ignore;;
    for_each rows (λ row,
      writerow (_jobs_path self) SCRAPED_JOB_COLUMNS DictWriter.ignore row);;
    log DEBUG ("Updated CSV row " +:+ str_int row_number +:+ ": email_sent="
               +:+ email_sent)
  else
    log WARNING ("CSV row " +:+ str_int row_number +:+ " out of range ("
                 +:+ str_int (Z.of_nat (length rows)) +:+ " rows), skipping update").

Definition is_pending (job : PyDict) : bool :=
  bool_decide (dict_get job "email_sent" (Str EmptyString) = Str "Pending").

(** The loop of [get_pending_jobs], over the enumerated jobs. *)
Fixpoint pending_loop (jobs : list (Z * PyDict)) (pending : list PyDict)
    : list PyDict :=
  match jobs with
  | [] => pending
  | (i, job) :: jobs' =>
      if is_pending job
      then pending_loop jobs'
             (pending ++ [dict_set "row_number" (Str (str_int (i + 2))) job])
      else pending_loop jobs' pending
  end.

Definition get_pending_jobs : M (list PyDict) :=
  all_jobs ← _read_csv (_jobs_path self) SCRAPED_JOB_COLUMNS;
  mret (pending_loop (enumerate all_jobs) []).

Definition get_run_stats : M (list PyDict) :=
  _read_csv (_stats_path self) RUN_STATS_COLUMNS.

Definition add_run_stats (stats : PyDict) : M unit :=
  _append_rows (_stats_path self) RUN_STATS_COLUMNS [stats];;
  log INFO ("Saved run stats for " +:+ format_value (dict_get stats "date" (Str "?"))).

(** [date_sent and date_sent.startswith(today_str)]; [None] is falsy. *)
Definition sent_today (today_str : string) (record : PyDict) : bool :=
  match dict_get record "date_sent" (Str EmptyString) with
  | Str date_sent => str_truthy date_sent && startswith date_sent today_str
  | PyNone => false
  end.

(** The counting loop of [get_today_sent_emails_count]. *)
Fixpoint count_loop (today_str : string) (records : list PyDict) (count : Z) : Z :=
  match records with
  | [] => count
  | record :: records' =>
      count_loop today_str records'
        (if sent_today today_str record then count + 1 else count)%Z
  end.

Definition get_today_sent_emails_count : M Z :=
  all_emails ← _read_csv (_sent_path self) SENT_EMAIL_COLUMNS;
  d ← date_today;
  let today_str := isoformat d in
  mret (count_loop today_str all_emails 0).

End Backend.
End CsvBackend.

(** ** Vocabulary of the specification *)

Module Spec.
Import Py CsvBackend.

(** The world once a file is sure to exist. *)
Definition ensured (path : string) (columns : list string) (w : World) : World :=
  match files w !! path with
  | Some _ => w
  | None =>
      mkWorld (<[path := Csv.writerow columns]> (files w)) (heap w) (today w)
              (logs w ++ [mkLog INFO ("Created CSV file: " +:+ path)])
  end.

(** The contents of the file once it exists. *)
Definition contents_of (path : string) (columns : list string) (w : World) : string :=
  default (Csv.writerow columns) (files w !! path).

(** The outcome of [list(csv.DictReader(f))] on the text of a file. *)
Definition read_result (contents : string) : Result (list PyDict) :=
  match DictReader.to_list contents with
  | Some rows => Ok rows
  | None => Raised CsvError
  end.

(** The reader gets through the text: no [csv.Error]. *)
Definition reads (contents : string) : Prop :=
  is_Some (DictReader.to_list contents).

Definition result_map {A B} (f : A → B) (r : Result A) : Result B :=
  match r with
  | Ok a => Ok (f a)
  | Raised e => Raised e
  end.

(** Fields that the reader takes: none is over its limit. *)
Definition fit (fs : list string) : Prop := forallb Csv.within_limit fs = true.

(** A dict whose strings are all within the reader's limit, as the rows are
    that the reader has returned. *)
Definition small (d : PyDict) : Prop :=
  ∀ key v, items d !! key = Some (Str v) → Csv.within_limit v = true.

Definition put_file (path contents : string) (w : World) : World :=
  mkWorld (<[path := contents]> (files w)) (heap w) (today w) (logs w).

Definition put_log (lvl : Level) (msg : string) (w : World) : World :=
  mkWorld (files w) (heap w) (today w) (logs w ++ [mkLog lvl msg]).

Definition put_heap (h : nat → PyDict) (w : World) : World :=
  mkWorld (files w) h (today w) (logs w).

(** The three assignments of [update_scraped_job_status] on one row. *)
Definition set_status (email_sent skip_reason email_recipient : string)
    (d : PyDict) : PyDict :=
  dict_set "email_recipient" (Str email_recipient)
    (dict_set "skip_reason" (Str skip_reason)
       (dict_set "email_sent" (Str email_sent) d)).

Definition out_of_range_msg (row_number : Z) (n : nat) : string :=
  "CSV row " +:+ str_int row_number +:+ " out of range ("
  +:+ str_int (Z.of_nat n) +:+ " rows), skipping update".

Definition updated_msg (row_number : Z) (email_sent : string) : string :=
  "Updated CSV row " +:+ str_int row_number +:+ ": email_sent=" +:+ email_sent.

(** The pending jobs among enumerated rows, each with its row number
    recomputed from its index. *)
Definition pending_of (jobs : list (Z * PyDict)) : list PyDict :=
  (λ p, dict_set "row_number" (Str (str_int (p.1 + 2))) p.2)
    <$> filter (λ p, is_pending p.2 = true) jobs.

(** The record objects after the numbering loop of [add_scraped_jobs]. *)
Definition number_records (start_row : Z) (jobs : list (Z * nat))
    (h : nat → PyDict) : nat → PyDict :=
  foldl (λ h p, <[p.2 := dict_set "row_number" (Str (str_int (start_row + p.1))) (h p.2)]> h)
        h jobs.

(** The new value of a status field under [update_scraped_job_status], and
    [None] for a key that is no status field. *)
Definition status_of (email_sent skip_reason email_recipient : string)
    (key : string) : option string :=
  if decide (key = "email_sent") then Some email_sent
  else if decide (key = "skip_reason") then Some skip_reason
  else if decide (key = "email_recipient") then Some email_recipient
  else None.

(** Calls of [_append_rows] one after the other, a batch of rows each. *)
Definition append_batches (path : string) (columns : list string)
    (batches : list (list PyDict)) : M unit :=
  for_each batches (λ rows, _append_rows path columns rows;; mret tt).

(** A row that takes one line of the file: no line break in the text of
    any of its columns. *)
Definition single_line (columns : list string) (d : PyDict) : Prop :=
  forallb Text.no_newline (stored_row columns d) = true.

(** A file of the store for the given schema: not there yet, or the header
    and records as the writer puts them out. *)
Definition store_file (columns : list string) (file : option string) : Prop :=
  file = None ∨ ∃ recs, file = Some (file_text columns recs).

(** A row that the reader takes back once it is written: no text over the
    limit in any of its columns. *)
Definition readable (columns : list string) (d : PyDict) : Prop :=
  fit (stored_row columns d).

(** A file of the store that the reader gets through: not there yet, or the
    header and records as the writer puts them out, no field over the
    limit. *)
Definition readable_file (columns : list string) (file : option string) : Prop :=
  file = None ∨ ∃ recs, file = Some (file_text columns recs) ∧ Forall fit recs.

(** The records of a batch are readable once [add_scraped_jobs] has
    numbered them from [start_row] on. *)
Definition readable_numbered (columns : list string) (h : nat → PyDict)
    (start_row : Z) (records : list nat) : Prop :=
  ∀ (i : nat) a, records !! i = Some a →
    readable columns
      (dict_set "row_number" (Str (str_int (start_row + Z.of_nat i))) (h a)).

(** Every column of the schema has a string in the record. *)
Definition populated (columns : list string) (d : PyDict) : Prop :=
  ∀ key, key ∈ columns → ∃ v, items d !! key = Some (Str v).

(** What reading back [r] says about the record [d] that was written. *)
Definition round_trip (columns : list string) (d r : PyDict) : Prop :=
  rest r = None
  ∧ (populated columns d → ∀ key, key ∈ columns → items r !! key = items d !! key)
  ∧ (∀ key v, key ∈ columns → items d !! key = Some (Str v) →
       items r !! key = Some (Str v))
  ∧ (∀ key, key ∈ columns → items d !! key = None →
       items r !! key = Some (Str EmptyString))
  ∧ (∀ key, key ∉ columns → items r !! key = None).

(** Calls of [add_sent_email] one after the other, a record each. *)
Definition add_sent_emails (columns : list string) (self : CsvBackend)
    (records : list PyDict) : M unit :=
  for_each records (add_sent_email columns self).

End Spec.

(** ** Example data *)

Module Example.
Import Py CsvBackend.

Definition sent_columns : list string := ["email"; "date_sent"].

Definition job_columns : list string :=
  ["title"; "row_number"; "email_sent"; "skip_reason"; "email_recipient"].

Definition stats_columns : list string := ["date"; "total"].

Definition backend : CsvBackend := __init__ "data".

(** A dict from its items. *)
Definition record (l : list (string * string)) : PyDict :=
  mkDict (list_to_map (prod_map id Str <$> l)) None.

(** The two records a caller hands to [add_scraped_jobs], at the addresses
    0 and 1; the first has a key that is no column. *)
Definition caller_heap (a : nat) : PyDict :=
  match a with
  | 0 => record [("title", "Developer"); ("email_sent", "Pending"); ("source", "web")]
  | 1 => record [("title", "Analyst"); ("email_sent", "Pending")]
  | _ => empty_dict
  end.

Definition world (fs : gmap string string) : World :=
  mkWorld fs caller_heap (mkDate 2024 1 2) [].

(** No file yet. *)
Definition new_world : World := world ∅.

(** A job file with two rows: row 2 is pending, row 3 is sent and has one
    field more than the header. *)
Definition job_rows : list (list string) :=
  [["Developer"; "2"; "Pending"; EmptyString; EmptyString];
   ["Analyst"; "3"; "Sent"; EmptyString; "hr@example.org"; "surplus"]].

Definition job_contents : string := file_text job_columns job_rows.

Definition job_world : World := world {[ _jobs_path backend := job_contents ]}.

(** A sent-email file with four rows. *)
Definition sent_rows : list (list string) :=
  [["a@example.org"; "2024-01-02"];
   ["b@example.org"; "2024-01-02T09:00:00"];
   ["c@example.org"; "2024-01-01"];
   ["d@example.org"; EmptyString]].

Definition sent_contents : string := file_text sent_columns sent_rows.

Definition sent_world : World := world {[ _sent_path backend := sent_contents ]}.

(** A text of 131073 characters, one more than a field of the reader
    takes. *)
Definition long_field : string := str_repeat "x" (N.to_nat 131073).

(** A job file whose one row is pending and has a title of that length. *)
Definition long_job_rows : list (list string) :=
  [[long_field; "2"; "Pending"; EmptyString; EmptyString]].

Definition long_job_contents : string := file_text job_columns long_job_rows.

Definition long_job_world : World :=
  world {[ _jobs_path backend := long_job_contents ]}.

(** A sent-email file whose one row is of today and has an address of that
    length, and the record of that row. *)
Definition long_sent_rows : list (list string) := [[long_field; "2024-01-02"]].

Definition long_sent_contents : string := file_text sent_columns long_sent_rows.

Definition long_sent_world : World :=
  world {[ _sent_path backend := long_sent_contents ]}.

Definition long_record : PyDict :=
  record [("email", long_field); ("date_sent", "2024-01-02")].

(** All three files: the two above and a run-stats file with its header. *)
Definition full_world : World :=
  world (<[ _sent_path backend := sent_contents ]>
           (<[ _jobs_path backend := job_contents ]>
              {[ _stats_path backend := file_text stats_columns [] ]})).

End Example.

(** * Facts about the text and csv layers *)

Section StringFacts.

Lemma app_nil_l (s : string) : EmptyString +:+ s = s.
Proof. reflexivity. Qed.

Lemma app_cons (c : ascii) (s t : string) : String c s +:+ t = String c (s +:+ t).
Proof. reflexivity. Qed.

Lemma app_nil_r (s : string) : s +:+ EmptyString = s.
Proof. induction s as [|c s IH]; [done|]. by rewrite app_cons, IH. Qed.

Lemma app_assoc (s t u : string) : (s +:+ t) +:+ u = s +:+ (t +:+ u).
Proof. induction s as [|c s IH]; [done|]. by rewrite !app_cons, IH. Qed.

Lemma app_eq_nil (s t : string) : s +:+ t = EmptyString → s = EmptyString ∧ t = EmptyString.
Proof. destruct s; [done|]. by rewrite app_cons. Qed.

Lemma forallb_app p (s t : string) :
  string_forallb p (s +:+ t) = string_forallb p s && string_forallb p t.
Proof.
  induction s as [|c s IH]; [done|].
  rewrite app_cons. simpl. by rewrite IH, andb_assoc.
Qed.

End StringFacts.

Module TextFacts.
Import Text.

Lemma readlines_nil (s : string) : readlines s = [] → s = EmptyString.
Proof.
  destruct s as [|c s]; [done|]. simpl.
  destruct (Ascii.eqb c LF); [done|].
  destruct (Ascii.eqb c CR).
  - destruct s as [|d s]; [done|]. by destruct (Ascii.eqb d LF).
  - by destruct (readlines s).
Qed.

(** One step of [readlines], uniformly in the character. *)
Lemma readlines_cons (c : ascii) (s' : string) :
  readlines (String c s') =
    if line_ends c s' then [: c :] :: readlines s'
    else match readlines s' with
         | [] => [[: c :]]
         | l :: ls => String c l :: ls
         end.
Proof.
  unfold line_ends. destruct s' as [|d s''].
  - simpl. destruct (Ascii.eqb c LF); [done|]. by destruct (Ascii.eqb c CR).
  - change (readlines (String c (String d s''))) with
      (if Ascii.eqb c LF then [: c :] :: readlines (String d s'')
       else if Ascii.eqb c CR then
         if Ascii.eqb d LF then String c [: d :] :: readlines s''
         else [: c :] :: readlines (String d s'')
       else match readlines (String d s'') with
            | [] => [[: c :]]
            | l :: ls => String c l :: ls
            end).
    destruct (Ascii.eqb c LF); [done|].
    destruct (Ascii.eqb c CR); [|done].
    destruct (Ascii.eqb d LF) eqn:Hd; [|done].
    simpl. by rewrite Hd.
Qed.

Lemma line_ends_app (c : ascii) (s k : string) :
  s ≠ EmptyString → line_ends c (s +:+ k) = line_ends c s.
Proof. by destruct s. Qed.

(** A text that ends in LF ends a line: what follows starts a new one. *)
Lemma readlines_app_LF (s k : string) :
  readlines ((s +:+ [: LF :]) +:+ k) = readlines (s +:+ [: LF :]) ++ readlines k.
Proof.
  induction s as [|c s IH].
  - rewrite !app_nil_l, app_cons, app_nil_l. simpl. done.
  - rewrite !app_cons, !readlines_cons.
    rewrite line_ends_app by by destruct s.
    destruct (line_ends c (s +:+ [: LF :])).
    + by rewrite IH.
    + rewrite IH. destruct (readlines (s +:+ [: LF :])) eqn:E; [|done].
      apply readlines_nil in E. by destruct s.
Qed.

(** A text without line breaks, terminated by CR LF, is one line. *)
Lemma readlines_one_line (s : string) :
  no_newline s = true →
  readlines (s +:+ String CR [: LF :]) = [s +:+ String CR [: LF :]].
Proof.
  induction s as [|c s IH]; [done|]. intros [Hc Hs]%andb_true_iff.
  rewrite app_cons, readlines_cons, IH by done.
  replace (line_ends c (s +:+ String CR [: LF :])) with false; [done|].
  unfold is_newline in Hc. apply negb_true_iff, orb_false_iff in Hc as [Hcr Hlf].
  destruct s; simpl; by rewrite Hlf, Hcr.
Qed.

End TextFacts.

Module CsvFacts.
Import Text TextFacts Csv.

Lemma scan_nil (r : Reader) : scan r EmptyString = at_eof r.
Proof. reflexivity. Qed.

(** One character of the text at a time: the end-of-line marker follows the
    character that ends a line. *)
Lemma scan_cons (r : Reader) (c : ascii) (s' : string) :
  scan r (String c s') =
    if line_ends c s' then
      if bool_decide
           (state (parse_process_char (parse_process_char r (Some c)) None)
            = START_RECORD)
      then fields (parse_process_char (parse_process_char r (Some c)) None)
             :: scan parse_reset s'
      else scan (parse_process_char (parse_process_char r (Some c)) None) s'
    else scan (parse_process_char r (Some c)) s'.
Proof.
  unfold scan. rewrite readlines_cons.
  destruct (line_ends c s') eqn:Hends; [done|].
  destruct (readlines s') as [|l ls] eqn:Hl; [|done].
  apply readlines_nil in Hl as ->. done.
Qed.

Lemma line_ends_plain (c : ascii) (s : string) :
  is_newline c = false → s ≠ EmptyString → line_ends c s = false.
Proof.
  intros [Hcr Hlf]%orb_false_iff Hs. destruct s; [done|].
  simpl. by rewrite Hcr, Hlf.
Qed.

Lemma special_newline (c : ascii) : is_special c = false → is_newline c = false.
Proof. unfold is_special. by intros [_ ?]%orb_false_iff. Qed.

(** Single steps of the state machine. *)
Lemma step_in_field (c : ascii) (f : string) (fs : list string) :
  is_special c = false →
  parse_process_char (mkReader IN_FIELD f fs) (Some c)
  = mkReader IN_FIELD (f +:+ [: c :]) fs.
Proof.
  intros Hc. unfold parse_process_char. simpl.
  rewrite (special_newline _ Hc).
  unfold is_special in Hc. apply orb_false_iff in Hc as [Hc _].
  by apply orb_false_iff in Hc as [-> _].
Qed.

Lemma step_in_quoted (c : ascii) (f : string) (fs : list string) :
  Ascii.eqb c QUOTE = false →
  parse_process_char (mkReader IN_QUOTED_FIELD f fs) (Some c)
  = mkReader IN_QUOTED_FIELD (f +:+ [: c :]) fs.
Proof. intros Hc. unfold parse_process_char. simpl. by rewrite Hc. Qed.

Lemma step_in_quoted_eol (f : string) (fs : list string) :
  parse_process_char (mkReader IN_QUOTED_FIELD f fs) None
  = mkReader IN_QUOTED_FIELD f fs.
Proof. reflexivity. Qed.

(** The characters of an unquoted field go into the field buffer. *)
Lemma scan_unquoted (s : string) : ∀ (f : string) (fs : list string) (k : string),
  must_quote s = false → k ≠ EmptyString →
  scan (mkReader IN_FIELD f fs) (s +:+ k) = scan (mkReader IN_FIELD (f +:+ s) fs) k.
Proof.
  unfold must_quote. induction s as [|c s IH]; intros f fs k Hs Hk.
  - by rewrite app_nil_l, app_nil_r.
  - apply negb_false_iff in Hs. simpl in Hs.
    apply andb_true_iff in Hs as [Hc%negb_true_iff Hs].
    rewrite app_cons, scan_cons.
    rewrite line_ends_plain; [|by apply special_newline|by destruct s, k].
    rewrite step_in_field by done.
    rewrite IH; [|by rewrite Hs|done].
    by rewrite app_assoc.
Qed.

(** Inside quotes every character goes into the field buffer, a doubled
    quote as one quote; line ends do not end the record. *)
Lemma scan_quoted (s : string) : ∀ (f : string) (fs : list string) (k : string),
  scan (mkReader IN_QUOTED_FIELD f fs) (escape s +:+ String QUOTE k) =
  scan (mkReader IN_QUOTED_FIELD (f +:+ s) fs) (String QUOTE k).
Proof.
  induction s as [|c s IH]; intros f fs k.
  - by rewrite app_nil_l, app_nil_r.
  - simpl. destruct (Ascii.eqb c QUOTE) eqn:Hq.
    + apply Ascii.eqb_eq in Hq as ->.
      rewrite !app_cons, scan_cons. rewrite line_ends_plain by done.
      rewrite scan_cons.
      rewrite line_ends_plain; [|done|by destruct (escape s)].
      change (parse_process_char
                (parse_process_char (mkReader IN_QUOTED_FIELD f fs) (Some QUOTE))
                (Some QUOTE))
        with (mkReader IN_QUOTED_FIELD (f +:+ [: QUOTE :]) fs).
      rewrite IH. by rewrite app_assoc.
    + rewrite app_cons, scan_cons.
      rewrite step_in_quoted, step_in_quoted_eol by done.
      rewrite bool_decide_eq_false_2 by done.
      rewrite IH, app_assoc.
      by destruct (line_ends _ _).
Qed.

Lemma line_ends_LF (k : string) : line_ends LF k = true.
Proof. by destruct k. Qed.

Lemma line_ends_CR_LF (k : string) : line_ends CR (String LF k) = false.
Proof. reflexivity. Qed.

(** The line terminator ends a field and the record. *)
Lemma scan_crlf (st : ParserState) (f : string) (fs : list string) (k : string) :
  st = START_FIELD ∨ st = IN_FIELD ∨ st = QUOTE_IN_QUOTED_FIELD →
  scan (mkReader st f fs) (lineterminator +:+ k)
  = (fs ++ [f]) :: scan parse_reset k.
Proof.
  intros Hst. unfold lineterminator. rewrite !app_cons, app_nil_l.
  rewrite scan_cons, line_ends_CR_LF, scan_cons, line_ends_LF.
  by destruct Hst as [->|[->| ->]].
Qed.

(** A blank line is an empty record. *)
Lemma scan_blank (k : string) :
  scan parse_reset (lineterminator +:+ k) = [] :: scan parse_reset k.
Proof.
  unfold lineterminator. rewrite !app_cons, app_nil_l.
  by rewrite scan_cons, line_ends_CR_LF, scan_cons, line_ends_LF.
Qed.

(** The delimiter ends a field. *)
Lemma scan_comma (st : ParserState) (f : string) (fs : list string) (k : string) :
  st = START_FIELD ∨ st = IN_FIELD ∨ st = QUOTE_IN_QUOTED_FIELD →
  k ≠ EmptyString →
  scan (mkReader st f fs) (String COMMA k)
  = scan (mkReader START_FIELD EmptyString (fs ++ [f])) k.
Proof.
  intros Hst Hk. rewrite scan_cons, line_ends_plain by done.
  by destruct Hst as [->|[->| ->]].
Qed.

(** A field as the writer renders it, up to the state in which the next
    delimiter or line terminator finds the reader. *)
Lemma scan_join_append (st : ParserState) (f : string) (fs : list string) (k : string) :
  fresh st → k ≠ EmptyString →
  st = START_FIELD ∨ join_append f ≠ EmptyString →
  ∃ st', (st' = START_FIELD ∨ st' = IN_FIELD ∨ st' = QUOTE_IN_QUOTED_FIELD) ∧
    scan (mkReader st EmptyString fs) (join_append f +:+ k)
    = scan (mkReader st' f fs) k.
Proof.
  intros Hst Hk Hne. unfold join_append in *.
  destruct (must_quote f) eqn:Hq.
  - exists QUOTE_IN_QUOTED_FIELD. split; [auto|].
    unfold quote_field. rewrite app_cons, app_assoc, app_cons, app_nil_l.
    rewrite scan_cons, line_ends_plain; [|done|by destruct (escape f)].
    replace (parse_process_char (mkReader st EmptyString fs) (Some QUOTE))
      with (mkReader IN_QUOTED_FIELD EmptyString fs) by by destruct Hst as [->| ->].
    rewrite scan_quoted, app_nil_l.
    by rewrite scan_cons, line_ends_plain.
  - destruct f as [|c f].
    + destruct Hne as [->|]; [|done]. exists START_FIELD. split; [auto|by rewrite app_nil_l].
    + exists IN_FIELD. split; [auto|].
      pose proof Hq as Hq'. unfold must_quote in Hq'.
      apply negb_false_iff in Hq'. simpl in Hq'.
      apply andb_true_iff in Hq' as [Hc%negb_true_iff Hf].
      rewrite app_cons, scan_cons.
      rewrite line_ends_plain; [|by apply special_newline|by destruct f, k].
      replace (parse_process_char (mkReader st EmptyString fs) (Some c))
        with (mkReader IN_FIELD [: c :] fs).
      * rewrite scan_unquoted; [done| |done]. unfold must_quote. by rewrite Hf.
      * pose proof (special_newline _ Hc) as Hn.
        unfold is_special in Hc. apply orb_false_iff in Hc as [Hc _].
        apply orb_false_iff in Hc as [Hcomma Hquote].
        destruct Hst as [->| ->]; unfold parse_process_char, start_field; simpl;
          by rewrite Hn, ?Hquote, ?Hcomma.
Qed.

Lemma join_append_nil (f : string) : join_append f = EmptyString → f = EmptyString.
Proof. unfold join_append. by destruct (must_quote f). Qed.

(** A field and the delimiter after it. *)
Lemma scan_field_comma (st : ParserState) (f : string) (fs : list string) (k : string) :
  fresh st → k ≠ EmptyString →
  scan (mkReader st EmptyString fs) (join_append f +:+ String COMMA k)
  = scan (mkReader START_FIELD EmptyString (fs ++ [f])) k.
Proof.
  intros Hst Hk.
  destruct (decide (st = START_FIELD ∨ join_append f ≠ EmptyString)) as [Hne|Hne].
  - destruct (scan_join_append st f fs (String COMMA k)) as (st' & Hst' & ->);
      [done..|]. by rewrite scan_comma.
  - assert (join_append f = EmptyString) as Hf
      by (destruct (decide (join_append f = EmptyString)); [done|]; destruct Hne; auto).
    destruct Hst as [->| ->]; [|destruct Hne; auto].
    rewrite Hf. apply join_append_nil in Hf as ->.
    by rewrite app_nil_l, scan_cons, line_ends_plain.
Qed.

Lemma join_fields_cons (f g : string) (fs : list string) :
  join_fields (f :: g :: fs) = join_append f +:+ String COMMA (join_fields (g :: fs)).
Proof. reflexivity. Qed.

(** The fields of a record, then the line terminator. *)
Lemma scan_join_fields (fs : list string) : ∀ (st : ParserState) (acc : list string) (k : string),
  fs ≠ [] → fresh st →
  st = START_FIELD ∨ fs ≠ [EmptyString] →
  scan (mkReader st EmptyString acc) (join_fields fs +:+ (lineterminator +:+ k))
  = (acc ++ fs) :: scan parse_reset k.
Proof.
  induction fs as [|f fs IH]; intros st acc k Hne Hst Hone; [done|].
  destruct fs as [|g fs].
  - simpl join_fields.
    destruct (scan_join_append st f acc (lineterminator +:+ k)) as (st' & Hst' & ->);
      [done|done| |].
    + destruct Hone as [?|Hone]; [by left|right].
      intros Hf. apply Hone. f_equal.
      unfold join_append in Hf. by destruct (must_quote f).
    + by rewrite scan_crlf.
  - rewrite join_fields_cons, app_assoc, app_cons.
    rewrite scan_field_comma; [|done|by destruct (join_fields (g :: fs))].
    rewrite IH; [|done|by right|by left]. by rewrite <-(assoc_L (++)).
Qed.

(** What the writer writes for a record, the reader reads as that record. *)
Theorem scan_writerow (fs : list string) (k : string) :
  scan parse_reset (writerow fs +:+ k) = fs :: scan parse_reset k.
Proof.
  destruct fs as [|f fs].
  - unfold writerow. simpl join_fields. by rewrite app_nil_l, scan_blank.
  - assert (f :: fs = [EmptyString] ∨ f :: fs ≠ [EmptyString]) as [->|Hne]
      by (destruct (decide (f :: fs = [EmptyString])); auto).
    + unfold writerow, quote_field. simpl escape.
      rewrite app_nil_l, !app_cons, app_nil_l.
      rewrite scan_cons, line_ends_plain by done.
      rewrite scan_cons, line_ends_plain by done.
      change (parse_process_char (parse_process_char parse_reset (Some QUOTE))
                (Some QUOTE))
        with (mkReader QUOTE_IN_QUOTED_FIELD EmptyString []).
      rewrite scan_crlf by auto. done.
    + replace (writerow (f :: fs)) with (join_fields (f :: fs) +:+ lineterminator).
      * rewrite app_assoc. unfold parse_reset.
        rewrite scan_join_fields; [done|done|by left|by right].
      * unfold writerow. destruct f, fs; done.
Qed.

Theorem scan_writerows (rows : list (list string)) (k : string) :
  scan parse_reset (writerows rows +:+ k) = rows ++ scan parse_reset k.
Proof.
  induction rows as [|row rows IH]; [done|].
  simpl. by rewrite app_assoc, scan_writerow, IH.
Qed.

(** Round trip of the csv module: reading what was written. *)
Theorem reader_writerows (rows : list (list string)) :
  reader (writerows rows) = rows.
Proof.
  pose proof (scan_writerows rows EmptyString) as H.
  rewrite app_nil_r in H. unfold reader. fold (scan parse_reset (writerows rows)).
  rewrite H, scan_nil. change (at_eof parse_reset) with (@nil (list string)).
  by rewrite (right_id_L [] (++)).
Qed.

End CsvFacts.

Module ReaderFacts.
Import Text TextFacts Csv CsvFacts.

Lemma is_newline_LF : is_newline LF = true.
Proof. reflexivity. Qed.

Lemma is_newline_cases (c : ascii) : is_newline c = true → c = CR ∨ c = LF.
Proof.
  unfold is_newline. intros [H|H]%orb_true_iff; apply Ascii.eqb_eq in H; auto.
Qed.

(** Every line of a file has its line break at the end. *)
Lemma readlines_well_ended (s : string) : Forall well_ended (readlines s).
Proof.
  induction s as [|c s IH]; [constructor|].
  rewrite readlines_cons. destruct (line_ends c s) eqn:Hends.
  - constructor; [|done]. simpl. destruct (is_newline c); auto.
  - destruct s as [|d s]; [done|].
    destruct (readlines (String d s)) as [|l ls] eqn:Hl.
    { by apply readlines_nil in Hl. }
    inversion IH as [|? ? Hwl Hwls]; subst. constructor; [|done].
    simpl. destruct (is_newline c) eqn:Hc; [|done].
    right. simpl in Hends. apply orb_false_iff in Hends as [Hlf Hcr].
    apply is_newline_cases in Hc as [->| ->]; [|done].
    simpl in Hcr. apply negb_false_iff, Ascii.eqb_eq in Hcr as ->.
    simpl in Hl. injection Hl as <- _. done.
Qed.

(** *** The limit on the size of a field *)

Lemma string_length_app (s t : string) :
  String.length (s +:+ t) = String.length s + String.length t.
Proof. induction s as [|c s IH]; [done|]. rewrite app_cons. simpl. by rewrite IH. Qed.

Lemma within_limit_spec (s : string) :
  within_limit s = true ↔ (N.of_nat (String.length s) ≤ field_limit)%N.
Proof. unfold within_limit. apply N.leb_le. Qed.

Lemma within_limit_app_l (s t : string) :
  within_limit (s +:+ t) = true → within_limit s = true.
Proof. rewrite !within_limit_spec, string_length_app. lia. Qed.

(** A field that takes one character more is not at the limit. *)
Lemma field_too_large_fits (st : ParserState) (f : string) (fs : list string)
    (c : ascii) :
  within_limit (f +:+ [: c :]) = true →
  field_too_large (mkReader st f fs) = false.
Proof.
  rewrite within_limit_spec, string_length_app. unfold field_too_large, field_len.
  simpl. intros H. apply N.leb_gt. lia.
Qed.

(** A field within the limit that takes no character more is at the limit. *)
Lemma field_too_large_full (st : ParserState) (f : string) (fs : list string)
    (c : ascii) :
  within_limit f = true → within_limit (f +:+ [: c :]) = false →
  field_too_large (mkReader st f fs) = true.
Proof.
  rewrite within_limit_spec. unfold within_limit. rewrite string_length_app.
  intros Hf Hc%N.leb_gt. unfold field_too_large, field_len. simpl in *.
  apply N.leb_le. lia.
Qed.

(** The steps that add a character are those after which the field is the
    old one with the character at its end. *)
Lemma adds_char_spec (r : Reader) (c : ascii) :
  adds_char r (Some c) = true
  ↔ field (parse_process_char r (Some c)) = field r +:+ [: c :].
Proof.
  assert (∀ f : string, f ≠ f +:+ [: c :]) as Hne.
  { intros f H. apply (f_equal String.length) in H.
    rewrite string_length_app in H. simpl in H. lia. }
  assert (∀ f : string, EmptyString ≠ f +:+ [: c :]) as Hnil.
  { intros f H. apply (f_equal String.length) in H.
    rewrite string_length_app in H. simpl in H. lia. }
  unfold adds_char, parse_process_char, start_field, at_line_break.
  destruct (state r); simpl;
    destruct (is_newline c), (Ascii.eqb c QUOTE), (Ascii.eqb c COMMA); simpl;
    split; try done; intros H; exfalso;
    first [by eapply Hne|by eapply Hnil].
Qed.

(** A step that raises nothing keeps what the reader holds within the
    limit. *)
Lemma step_within_limits (r : Reader) (c : option ascii) :
  parse_error r c = false → within_limits r →
  within_limits (parse_process_char r c).
Proof.
  intros Herr [Hf Hfs].
  assert (within_limits (parse_save_field r)) as Hsave.
  { split; [done|]. simpl. rewrite List.forallb_app, Hfs. simpl. by rewrite Hf. }
  assert (∀ st r', within_limits r' → within_limits (set_state st r')) as Hset
    by (by intros st r' [? ?]).
  assert (∀ ch, adds_char r (Some ch) = true → parse_error r (Some ch) = false →
          within_limits (parse_add_char ch r)) as Hadd.
  { intros ch Ha He. split; [|done]. simpl.
    assert (field_too_large r = false) as Hlarge.
    { unfold parse_error in He. unfold adds_char in Ha, He.
      destruct (state r); try done; by rewrite Ha in He. }
    unfold field_too_large, field_len in Hlarge. apply N.leb_gt in Hlarge.
    apply within_limit_spec. rewrite string_length_app. simpl. lia. }
  destruct c as [ch|].
  - specialize (Hadd ch). revert Hadd Herr.
    unfold adds_char, parse_process_char, start_field, at_line_break.
    destruct (state r) eqn:Hst; simpl;
      destruct (is_newline ch), (Ascii.eqb ch QUOTE), (Ascii.eqb ch COMMA);
      simpl; intros Hadd Herr; auto.
    all: try (split; done).
  - unfold parse_process_char, start_field. destruct (state r); simpl; auto.
    all: try (split; done).
Qed.

Lemma feed_within_limits (l : string) : ∀ r,
  feed_ok r l = true → within_limits r → within_limits (feed r l).
Proof.
  induction l as [|c l IH]; intros r Hok Hr; [done|].
  simpl in *. apply andb_true_iff in Hok as [Herr%negb_true_iff Hok].
  apply IH; [done|]. by apply step_within_limits.
Qed.

Lemma parse_error_eol (r : Reader) : parse_error r None = false.
Proof. unfold parse_error. by destruct (state r). Qed.

(** The fields of the records that the reader returns are within the
    limit. *)
Lemma reader_loop_within_limits (lines : list string) : ∀ r,
  reader_ok r lines = true → within_limits r →
  Forall (λ fs, forallb within_limit fs = true) (reader_loop r lines).
Proof.
  induction lines as [|l lines IH]; intros r Hok Hr.
  - simpl. unfold at_eof. destruct (_ || _); [|constructor].
    constructor; [|constructor]. destruct Hr as [Hf Hfs]. simpl.
    rewrite List.forallb_app, Hfs. simpl. by rewrite Hf.
  - simpl in *. apply andb_true_iff in Hok as [Hfeed Hok].
    assert (within_limits (feed_line r l)) as Hr'.
    { apply step_within_limits; [apply parse_error_eol|].
      by apply feed_within_limits. }
    destruct (bool_decide (state (feed_line r l) = START_RECORD)).
    + constructor; [by destruct Hr'|]. by apply IH.
    + by apply IH.
Qed.

Theorem reader_within_limits (contents : string) :
  reader_ok parse_reset (readlines contents) = true →
  Forall (λ fs, forallb within_limit fs = true) (reader contents).
Proof. intros Hok. by apply reader_loop_within_limits. Qed.

(** *** Whether the reader gets through what the writer wrote *)

(** One character of the text at a time, as [scan_cons]. *)
Lemma scan_ok_cons (r : Reader) (c : ascii) (s' : string) :
  scan_ok r (String c s') =
    negb (parse_error r (Some c))
    && if line_ends c s' then
         if bool_decide
              (state (parse_process_char (parse_process_char r (Some c)) None)
               = START_RECORD)
         then scan_ok parse_reset s'
         else scan_ok (parse_process_char (parse_process_char r (Some c)) None) s'
       else scan_ok (parse_process_char r (Some c)) s'.
Proof.
  unfold scan_ok. rewrite readlines_cons.
  destruct (line_ends c s') eqn:Hends.
  - simpl. by rewrite andb_true_r.
  - destruct (readlines s') as [|l ls] eqn:Hl.
    + apply readlines_nil in Hl as ->. done.
    + simpl. by rewrite andb_assoc.
Qed.

(** A step that adds no character raises nothing, and neither does one
    that adds a character the field has room for. *)
Lemma parse_error_fits (st : ParserState) (f : string) (fs : list string)
    (c : ascii) :
  st ≠ EAT_CRNL → within_limit (f +:+ [: c :]) = true →
  parse_error (mkReader st f fs) (Some c) = false.
Proof.
  intros Hst Hc. unfold parse_error. simpl.
  rewrite (field_too_large_fits _ _ _ _ Hc), andb_false_r. by destruct st.
Qed.

Lemma parse_error_no_add (r : Reader) (c : ascii) :
  state r ≠ EAT_CRNL → adds_char r (Some c) = false →
  parse_error r (Some c) = false.
Proof. intros Hst Hc. unfold parse_error. rewrite Hc. by destruct (state r). Qed.

Lemma ok_unquoted (s : string) : ∀ (f : string) (fs : list string) (k : string),
  must_quote s = false → k ≠ EmptyString → within_limit (f +:+ s) = true →
  scan_ok (mkReader IN_FIELD f fs) (s +:+ k)
  = scan_ok (mkReader IN_FIELD (f +:+ s) fs) k.
Proof.
  unfold must_quote. induction s as [|c s IH]; intros f fs k Hs Hk Hlim.
  - by rewrite app_nil_l, app_nil_r.
  - apply negb_false_iff in Hs. simpl in Hs.
    apply andb_true_iff in Hs as [Hc%negb_true_iff Hs].
    assert (f +:+ String c s = (f +:+ [: c :]) +:+ s) as Hassoc
      by by rewrite app_assoc.
    rewrite Hassoc in Hlim.
    rewrite app_cons, scan_ok_cons.
    rewrite parse_error_fits; [|done|by eapply within_limit_app_l].
    rewrite line_ends_plain; [|by apply special_newline|by destruct s, k].
    rewrite step_in_field by done.
    rewrite IH; [|by rewrite Hs|done|done].
    by rewrite Hassoc.
Qed.

Lemma ok_quoted (s : string) : ∀ (f : string) (fs : list string) (k : string),
  within_limit (f +:+ s) = true →
  scan_ok (mkReader IN_QUOTED_FIELD f fs) (escape s +:+ String QUOTE k)
  = scan_ok (mkReader IN_QUOTED_FIELD (f +:+ s) fs) (String QUOTE k).
Proof.
  induction s as [|c s IH]; intros f fs k Hlim.
  - by rewrite app_nil_l, app_nil_r.
  - assert (f +:+ String c s = (f +:+ [: c :]) +:+ s) as Hassoc
      by by rewrite app_assoc.
    rewrite Hassoc in Hlim.
    pose proof (within_limit_app_l _ _ Hlim) as Hc.
    simpl. destruct (Ascii.eqb c QUOTE) eqn:Hq.
    + apply Ascii.eqb_eq in Hq as ->.
      rewrite !app_cons, scan_ok_cons. rewrite line_ends_plain by done.
      rewrite parse_error_no_add by done.
      rewrite scan_ok_cons.
      rewrite line_ends_plain; [|done|by destruct (escape s)].
      change (parse_process_char (mkReader IN_QUOTED_FIELD f fs) (Some QUOTE))
        with (mkReader QUOTE_IN_QUOTED_FIELD f fs).
      rewrite parse_error_fits by done.
      change (parse_process_char (mkReader QUOTE_IN_QUOTED_FIELD f fs) (Some QUOTE))
        with (mkReader IN_QUOTED_FIELD (f +:+ [: QUOTE :]) fs).
      rewrite IH by done. by rewrite Hassoc.
    + rewrite app_cons, scan_ok_cons.
      rewrite parse_error_fits by done.
      rewrite step_in_quoted, step_in_quoted_eol by done.
      rewrite bool_decide_eq_false_2 by done.
      rewrite IH by done. rewrite Hassoc.
      by destruct (line_ends _ _).
Qed.

Lemma ok_crlf (st : ParserState) (f : string) (fs : list string) (k : string) :
  st = START_FIELD ∨ st = IN_FIELD ∨ st = QUOTE_IN_QUOTED_FIELD →
  scan_ok (mkReader st f fs) (lineterminator +:+ k) = scan_ok parse_reset k.
Proof.
  intros Hst. unfold lineterminator. rewrite !app_cons, app_nil_l.
  rewrite scan_ok_cons, line_ends_CR_LF, scan_ok_cons, line_ends_LF.
  by destruct Hst as [->|[->| ->]].
Qed.

Lemma ok_blank (k : string) :
  scan_ok parse_reset (lineterminator +:+ k) = scan_ok parse_reset k.
Proof.
  unfold lineterminator. rewrite !app_cons, app_nil_l.
  by rewrite scan_ok_cons, line_ends_CR_LF, scan_ok_cons, line_ends_LF.
Qed.

Lemma ok_comma (st : ParserState) (f : string) (fs : list string) (k : string) :
  st = START_FIELD ∨ st = IN_FIELD ∨ st = QUOTE_IN_QUOTED_FIELD →
  k ≠ EmptyString →
  scan_ok (mkReader st f fs) (String COMMA k)
  = scan_ok (mkReader START_FIELD EmptyString (fs ++ [f])) k.
Proof.
  intros Hst Hk. rewrite scan_ok_cons, line_ends_plain by done.
  by destruct Hst as [->|[->| ->]].
Qed.

(** The first character of an unquoted field. *)
Lemma step_fresh_plain (st : ParserState) (c : ascii) (fs : list string) :
  fresh st → is_special c = false →
  parse_process_char (mkReader st EmptyString fs) (Some c)
  = mkReader IN_FIELD [: c :] fs.
Proof.
  intros Hst Hc. pose proof (special_newline _ Hc) as Hn.
  unfold is_special in Hc. apply orb_false_iff in Hc as [Hc _].
  apply orb_false_iff in Hc as [Hcomma Hquote].
  destruct Hst as [->| ->]; unfold parse_process_char, start_field; simpl;
    by rewrite Hn, ?Hquote, ?Hcomma.
Qed.

Lemma parse_error_fresh (st : ParserState) (c : ascii) (fs : list string) :
  fresh st → parse_error (mkReader st EmptyString fs) (Some c) = false.
Proof.
  intros Hst. apply parse_error_fits; [by destruct Hst as [->| ->]|done].
Qed.

Lemma ok_join_append (st : ParserState) (f : string) (fs : list string) (k : string) :
  fresh st → k ≠ EmptyString →
  st = START_FIELD ∨ join_append f ≠ EmptyString →
  within_limit f = true →
  ∃ st', (st' = START_FIELD ∨ st' = IN_FIELD ∨ st' = QUOTE_IN_QUOTED_FIELD) ∧
    scan_ok (mkReader st EmptyString fs) (join_append f +:+ k)
    = scan_ok (mkReader st' f fs) k.
Proof.
  intros Hst Hk Hne Hlim. unfold join_append in *.
  destruct (must_quote f) eqn:Hq.
  - exists QUOTE_IN_QUOTED_FIELD. split; [auto|].
    unfold quote_field. rewrite app_cons, app_assoc, app_cons, app_nil_l.
    rewrite scan_ok_cons, line_ends_plain; [|done|by destruct (escape f)].
    rewrite parse_error_fresh by done.
    replace (parse_process_char (mkReader st EmptyString fs) (Some QUOTE))
      with (mkReader IN_QUOTED_FIELD EmptyString fs) by by destruct Hst as [->| ->].
    rewrite ok_quoted, app_nil_l by done.
    by rewrite scan_ok_cons, line_ends_plain.
  - destruct f as [|c f].
    + destruct Hne as [->|]; [|done]. exists START_FIELD. split; [auto|by rewrite app_nil_l].
    + exists IN_FIELD. split; [auto|].
      pose proof Hq as Hq'. unfold must_quote in Hq'.
      apply negb_false_iff in Hq'. simpl in Hq'.
      apply andb_true_iff in Hq' as [Hc%negb_true_iff Hf].
      rewrite app_cons, scan_ok_cons.
      rewrite line_ends_plain; [|by apply special_newline|by destruct f, k].
      rewrite parse_error_fresh, step_fresh_plain by done.
      rewrite ok_unquoted; [done| |done|done]. unfold must_quote. by rewrite Hf.
Qed.

Lemma ok_field_comma (st : ParserState) (f : string) (fs : list string) (k : string) :
  fresh st → k ≠ EmptyString → within_limit f = true →
  scan_ok (mkReader st EmptyString fs) (join_append f +:+ String COMMA k)
  = scan_ok (mkReader START_FIELD EmptyString (fs ++ [f])) k.
Proof.
  intros Hst Hk Hlim.
  destruct (decide (st = START_FIELD ∨ join_append f ≠ EmptyString)) as [Hne|Hne].
  - destruct (ok_join_append st f fs (String COMMA k)) as (st' & Hst' & ->);
      [done..|]. by rewrite ok_comma.
  - assert (join_append f = EmptyString) as Hf
      by (destruct (decide (join_append f = EmptyString)); [done|]; destruct Hne; auto).
    destruct Hst as [->| ->]; [|destruct Hne; auto].
    rewrite Hf. apply join_append_nil in Hf as ->.
    by rewrite app_nil_l, scan_ok_cons, line_ends_plain.
Qed.

Lemma ok_join_fields (fs : list string) : ∀ (st : ParserState) (acc : list string) (k : string),
  fs ≠ [] → fresh st →
  st = START_FIELD ∨ fs ≠ [EmptyString] →
  forallb within_limit fs = true →
  scan_ok (mkReader st EmptyString acc) (join_fields fs +:+ (lineterminator +:+ k))
  = scan_ok parse_reset k.
Proof.
  induction fs as [|f fs IH]; intros st acc k Hne Hst Hone Hlim; [done|].
  simpl in Hlim. apply andb_true_iff in Hlim as [Hf Hfs].
  destruct fs as [|g fs].
  - simpl join_fields.
    destruct (ok_join_append st f acc (lineterminator +:+ k)) as (st' & Hst' & ->);
      [done|done| |done|].
    + destruct Hone as [?|Hone]; [by left|right].
      intros Hj. apply Hone. f_equal.
      unfold join_append in Hj. by destruct (must_quote f).
    + by rewrite ok_crlf.
  - rewrite join_fields_cons, app_assoc, app_cons.
    rewrite ok_field_comma; [|done|by destruct (join_fields (g :: fs))|done].
    by rewrite IH; [|done|by right|by left|done].
Qed.

(** The reader gets through a record that the writer wrote, when none of
    its fields is over the limit. *)
Theorem ok_writerow (fs : list string) (k : string) :
  forallb within_limit fs = true →
  scan_ok parse_reset (writerow fs +:+ k) = scan_ok parse_reset k.
Proof.
  intros Hlim. destruct fs as [|f fs].
  - unfold writerow. simpl join_fields. by rewrite app_nil_l, ok_blank.
  - assert (f :: fs = [EmptyString] ∨ f :: fs ≠ [EmptyString]) as [->|Hne]
      by (destruct (decide (f :: fs = [EmptyString])); auto).
    + unfold writerow, quote_field. simpl escape.
      rewrite app_nil_l, !app_cons, app_nil_l.
      rewrite scan_ok_cons, line_ends_plain by done.
      rewrite scan_ok_cons, line_ends_plain by done.
      change (parse_process_char (parse_process_char parse_reset (Some QUOTE))
                (Some QUOTE))
        with (mkReader QUOTE_IN_QUOTED_FIELD EmptyString []).
      rewrite ok_crlf by auto. done.
    + replace (writerow (f :: fs)) with (join_fields (f :: fs) +:+ lineterminator).
      * rewrite app_assoc. unfold parse_reset.
        rewrite ok_join_fields; [done|done|by left|by right|done].
      * unfold writerow. destruct f, fs; done.
Qed.

Theorem ok_writerows (rows : list (list string)) (k : string) :
  Forall (λ fs, forallb within_limit fs = true) rows →
  scan_ok parse_reset (writerows rows +:+ k) = scan_ok parse_reset k.
Proof.
  induction 1 as [|row rows Hrow _ IH]; [done|].
  simpl. by rewrite app_assoc, ok_writerow, IH.
Qed.

(** An unquoted field over the limit: the reader raises at the first
    character that the field has no room for. *)
Lemma overflow_in_field (s : string) : ∀ (f : string) (fs : list string) (k : string),
  must_quote s = false → k ≠ EmptyString →
  within_limit f = true → within_limit (f +:+ s) = false →
  scan_ok (mkReader IN_FIELD f fs) (s +:+ k) = false.
Proof.
  unfold must_quote. induction s as [|c s IH]; intros f fs k Hs Hk Hf Hover.
  - rewrite app_nil_r in Hover. congruence.
  - apply negb_false_iff in Hs. simpl in Hs.
    apply andb_true_iff in Hs as [Hc%negb_true_iff Hs].
    assert (f +:+ String c s = (f +:+ [: c :]) +:+ s) as Hassoc
      by by rewrite app_assoc.
    rewrite app_cons, scan_ok_cons.
    destruct (within_limit (f +:+ [: c :])) eqn:Hfc.
    + rewrite parse_error_fits by done.
      rewrite line_ends_plain; [|by apply special_newline|by destruct s, k].
      rewrite step_in_field by done.
      apply IH; [by rewrite Hs|done|done|by rewrite <-Hassoc].
    + assert (parse_error (mkReader IN_FIELD f fs) (Some c) = true) as ->; [|done].
      unfold parse_error. simpl.
      rewrite (field_too_large_full _ _ _ _ Hf Hfc), andb_true_r.
      unfold adds_char. simpl. rewrite (special_newline _ Hc). simpl.
      unfold is_special in Hc. apply orb_false_iff in Hc as [Hc _].
      by apply orb_false_iff in Hc as [-> _].
Qed.

Lemma overflow_field (st : ParserState) (f : string) (fs : list string) (k : string) :
  fresh st → must_quote f = false → k ≠ EmptyString →
  within_limit f = false →
  scan_ok (mkReader st EmptyString fs) (f +:+ k) = false.
Proof.
  intros Hst Hq Hk Hover. destruct f as [|c f]; [done|].
  unfold must_quote in Hq. apply negb_false_iff in Hq. simpl in Hq.
  apply andb_true_iff in Hq as [Hc%negb_true_iff Hf].
  rewrite app_cons, scan_ok_cons.
  rewrite parse_error_fresh by done.
  rewrite line_ends_plain; [|by apply special_newline|by destruct f, k].
  rewrite step_fresh_plain by done.
  apply overflow_in_field; [unfold must_quote; by rewrite Hf|done|done|done].
Qed.

(** The reader raises on a record that starts with an unquoted field over
    the limit. *)
Lemma overflow_writerow (f : string) (fs : list string) (k : string) :
  must_quote f = false → within_limit f = false →
  scan_ok parse_reset (writerow (f :: fs) +:+ k) = false.
Proof.
  intros Hq Hover.
  assert (∃ k', k' ≠ EmptyString ∧ writerow (f :: fs) +:+ k = f +:+ k')
    as (k' & Hk' & ->).
  { assert (join_append f = f) as Hf by (unfold join_append; by rewrite Hq).
    destruct f as [|c f]; [done|]. destruct fs as [|g fs].
    - exists (lineterminator +:+ k). split; [done|].
      unfold writerow. simpl join_fields. by rewrite Hf, app_assoc.
    - exists (String COMMA (join_fields (g :: fs)) +:+ (lineterminator +:+ k)).
      split; [done|]. unfold writerow.
      by rewrite join_fields_cons, Hf, !app_assoc. }
  by apply overflow_field; [left|..].
Qed.

End ReaderFacts.

Module LineFacts.
Import Text TextFacts Csv.

Lemma no_newline_app (s t : string) :
  no_newline (s +:+ t) = no_newline s && no_newline t.
Proof. apply forallb_app. Qed.

Lemma no_newline_escape (f : string) : no_newline (escape f) = no_newline f.
Proof.
  induction f as [|c f IH]; [done|]. simpl.
  destruct (Ascii.eqb c QUOTE) eqn:Hq; [|unfold no_newline in *; simpl; by rewrite IH].
  apply Ascii.eqb_eq in Hq as ->. unfold no_newline in *. simpl. by rewrite IH.
Qed.

Lemma no_newline_join_append (f : string) : no_newline (join_append f) = no_newline f.
Proof.
  unfold join_append. destruct (must_quote f); [|done].
  unfold quote_field. change (no_newline (String QUOTE ?s)) with (no_newline s).
  rewrite no_newline_app, no_newline_escape. apply andb_true_r.
Qed.

Lemma no_newline_join_fields (fs : list string) :
  forallb no_newline fs = true → no_newline (join_fields fs) = true.
Proof.
  induction fs as [|f fs IH]; [done|]. intros [Hf Hfs]%andb_true_iff.
  destruct fs as [|g fs].
  - simpl. by rewrite no_newline_join_append.
  - change (join_fields (f :: g :: fs))
      with (join_append f +:+ String COMMA (join_fields (g :: fs))).
    rewrite no_newline_app, no_newline_join_append, Hf.
    change (no_newline (String COMMA ?s)) with (no_newline s). by apply IH.
Qed.

Lemma writerow_LF (fs : list string) : ∃ s, writerow fs = s +:+ [: LF :].
Proof.
  assert (∀ x, x +:+ lineterminator = (x +:+ [: CR :]) +:+ [: LF :]) as H
    by (intros; by rewrite app_assoc).
  unfold writerow. destruct fs as [|[|] [|]]; rewrite H; eauto.
Qed.

(** A record whose fields have no line breaks is one line of the file. *)
Lemma count_lines_writerow (fs : list string) :
  forallb no_newline fs = true → count_lines (writerow fs) = 1.
Proof.
  intros Hfs. unfold count_lines.
  assert (∃ x, writerow fs = x +:+ lineterminator ∧ no_newline x = true)
    as (x & -> & Hx).
  { unfold writerow. destruct fs as [|[|c f] [|g fs]];
      eauto using no_newline_join_fields. }
  unfold lineterminator. by rewrite readlines_one_line.
Qed.

(** The lines of a record do not depend on what follows it. *)
Lemma readlines_writerow_app (fs : list string) (k : string) :
  readlines (writerow fs +:+ k) = readlines (writerow fs) ++ readlines k.
Proof. destruct (writerow_LF fs) as [s ->]. apply readlines_app_LF. Qed.

Lemma count_lines_writerow_app (fs : list string) (k : string) :
  count_lines (writerow fs +:+ k) = count_lines (writerow fs) + count_lines k.
Proof. unfold count_lines. by rewrite readlines_writerow_app, length_app. Qed.

Lemma count_lines_writerows (rows : list (list string)) :
  Forall (λ fs, forallb no_newline fs = true) rows →
  count_lines (writerows rows) = length rows.
Proof.
  induction 1 as [|fs rows Hfs _ IH]; [done|]. simpl.
  by rewrite count_lines_writerow_app, count_lines_writerow, IH.
Qed.

Lemma writerows_app (rows rows' : list (list string)) :
  writerows (rows ++ rows') = writerows rows +:+ writerows rows'.
Proof.
  induction rows as [|fs rows IH]; [done|]. simpl. by rewrite IH, app_assoc.
Qed.

End LineFacts.

Module DictFacts.
Import Csv CsvFacts LineFacts Spec.

Lemma reader_file_text (columns : list string) (rows : list (list string)) :
  Csv.reader (file_text columns rows) = columns :: rows.
Proof.
  unfold file_text. change (writerow columns +:+ writerows rows)
    with (writerows (columns :: rows)). apply reader_writerows.
Qed.

Lemma file_text_app (columns : list string) (rows rows' : list (list string)) :
  file_text columns rows +:+ writerows rows' = file_text columns (rows ++ rows').
Proof. unfold file_text. by rewrite writerows_app, app_assoc. Qed.

Lemma file_text_nil (columns : list string) :
  file_text columns [] = Csv.writerow columns.
Proof. unfold file_text. simpl. apply app_nil_r. Qed.

Lemma count_lines_file_text (columns : list string) (rows : list (list string)) :
  forallb Text.no_newline columns = true →
  Forall (λ fs, forallb Text.no_newline fs = true) rows →
  Text.count_lines (file_text columns rows) = S (length rows).
Proof.
  intros Hc Hr. unfold file_text.
  by rewrite count_lines_writerow_app, count_lines_writerow, count_lines_writerows.
Qed.

Lemma foldl_zip_lookup (keys : list string) (g : string → string) :
  ∀ (m : gmap string value) (k : string),
  foldl (λ m kv, <[kv.1 := Str kv.2]> m) m (zip keys (map g keys)) !! k
  = if decide (k ∈ keys) then Some (Str (g k)) else m !! k.
Proof.
  induction keys as [|key keys IH]; intros m k; simpl.
  - done.
  - rewrite IH. destruct (decide (k ∈ keys)) as [Hin|Hnin].
    + rewrite decide_True; [done|]. by right.
    + destruct (decide (k = key)) as [->|Hne].
      * rewrite decide_True by left. by rewrite lookup_insert_eq.
      * rewrite decide_False by (by intros [?|?]%elem_of_cons).
        by rewrite lookup_insert_ne.
Qed.

(** A written row read back: exactly the columns, each with the text that
    was written for it. *)
Lemma read_back_rest (columns : list string) (d : PyDict) :
  rest (read_back columns d) = None.
Proof.
  unfold read_back, DictReader.row_to_dict, stored_row.
  rewrite length_map, Nat.ltb_irrefl. done.
Qed.

Lemma read_back_lookup (columns : list string) (d : PyDict) (key : string) :
  items (read_back columns d) !! key
  = if decide (key ∈ columns)
    then Some (Str (DictWriter.cell_text (dict_get d key (Str EmptyString))))
    else None.
Proof.
  unfold read_back, DictReader.row_to_dict, stored_row.
  rewrite length_map, Nat.ltb_irrefl. simpl.
  unfold dict_zip. by rewrite foldl_zip_lookup, lookup_empty.
Qed.

Lemma is_blank_stored_row (columns : list string) (d : PyDict) :
  columns ≠ [] → DictReader.is_blank (stored_row columns d) = false.
Proof. by destruct columns. Qed.

(** Reading a file of the store: the rows that were written, normalised. *)
Lemma read_all_file_text (columns : list string) (rows : list (list string)) :
  DictReader.read_all (file_text columns rows)
  = map (DictReader.row_to_dict columns)
      (filter (λ row, DictReader.is_blank row = false) rows).
Proof. unfold DictReader.read_all. by rewrite reader_file_text. Qed.

Lemma filter_stored_rows (columns : list string) (ds : list PyDict) :
  columns ≠ [] →
  filter (λ row, DictReader.is_blank row = false) (stored_row columns <$> ds)
  = stored_row columns <$> ds.
Proof.
  intros Hne. induction ds as [|d ds IH]; [done|].
  rewrite fmap_cons, filter_cons_True by by apply is_blank_stored_row.
  by rewrite IH.
Qed.

(** *** Reading with the limit on the size of a field *)

Lemma to_list_Some (contents : string) (rows : list PyDict) :
  DictReader.to_list contents = Some rows → rows = DictReader.read_all contents.
Proof.
  unfold DictReader.to_list. destruct (reader_ok _ _); [|done]. by intros [= <-].
Qed.

Lemma to_list_ok (contents : string) :
  reader_ok parse_reset (Text.readlines contents) = true →
  DictReader.to_list contents = Some (DictReader.read_all contents).
Proof. unfold DictReader.to_list. by intros ->. Qed.

(** The reader gets through a file of the store that has no field over the
    limit. *)
Theorem to_list_file_text (columns : list string) (rows : list (list string)) :
  fit columns → Forall fit rows →
  DictReader.to_list (file_text columns rows)
  = Some (DictReader.read_all (file_text columns rows)).
Proof.
  intros Hc Hr. apply to_list_ok. fold (scan_ok parse_reset (file_text columns rows)).
  unfold file_text. rewrite ReaderFacts.ok_writerow by done.
  pose proof (ReaderFacts.ok_writerows rows EmptyString Hr) as H.
  by rewrite app_nil_r in H.
Qed.

(** It raises on a file whose first record starts with an unquoted field
    over the limit. *)
Theorem to_list_overflow (columns : list string) (f : string) (fs : list string)
    (rows : list (list string)) :
  fit columns → must_quote f = false → within_limit f = false →
  DictReader.to_list (file_text columns ((f :: fs) :: rows)) = None.
Proof.
  intros Hc Hq Hover. unfold DictReader.to_list.
  fold (scan_ok parse_reset (file_text columns ((f :: fs) :: rows))).
  unfold file_text. rewrite ReaderFacts.ok_writerow by done.
  change (writerows ((f :: fs) :: rows))
    with (writerow (f :: fs) +:+ writerows rows).
  by rewrite ReaderFacts.overflow_writerow.
Qed.

Lemma fit_elem_of (fs : list string) (f : string) :
  fit fs → f ∈ fs → within_limit f = true.
Proof.
  unfold fit. rewrite forallb_forall. intros H Hf. by apply H, list_elem_of_In.
Qed.

(** The strings of a row come from the fields of its line. *)
Lemma dict_zip_values (keys vals : list string) (k v : string) :
  dict_zip keys vals !! k = Some (Str v) → v ∈ vals.
Proof.
  unfold dict_zip.
  assert (∀ m : gmap string value,
    foldl (λ m kv, <[kv.1 := Str kv.2]> m) m (zip keys vals) !! k = Some (Str v) →
    v ∈ vals ∨ m !! k = Some (Str v)) as H.
  { revert vals. induction keys as [|key keys IH]; intros [|val vals] m; simpl; auto.
    intros [Hin|Hm]%IH; [left; by right|].
    destruct (decide (key = k)) as [->|Hne].
    - rewrite lookup_insert_eq in Hm. injection Hm as ->. left. by left.
    - rewrite lookup_insert_ne in Hm by done. auto. }
  intros [?|Hm]%H; [done|]. by rewrite lookup_empty in Hm.
Qed.

Lemma small_row_to_dict (header row : list string) :
  fit row → small (DictReader.row_to_dict header row).
Proof.
  intros Hrow key v. unfold DictReader.row_to_dict.
  assert (dict_zip header row !! key = Some (Str v) → within_limit v = true) as Hzip.
  { intros Hv%dict_zip_values. by eapply fit_elem_of. }
  destruct (length header <? length row); [done|].
  destruct (length row <? length header); [|done]. simpl.
  generalize (drop (length row) header) (dict_zip header row) Hzip.
  intros keys. induction keys as [|k keys IH]; intros m Hm; [done|].
  simpl. apply IH. intros Hv. destruct (decide (k = key)) as [->|Hne].
  - by rewrite lookup_insert_eq in Hv.
  - rewrite lookup_insert_ne in Hv by done. auto.
Qed.

(** The rows that the reader has returned hold no string over the limit. *)
Theorem to_list_small (contents : string) (rows : list PyDict) :
  DictReader.to_list contents = Some rows → Forall small rows.
Proof.
  unfold DictReader.to_list.
  destruct (reader_ok _ _) eqn:Hok; [|done]. intros [= <-].
  apply ReaderFacts.reader_within_limits in Hok.
  unfold DictReader.read_all. destruct (reader contents) as [|header recs]; [done|].
  inversion Hok as [|? ? _ Hrecs]; subst.
  apply Forall_fmap, Forall_forall. intros rec Hrec. simpl.
  apply small_row_to_dict.
  apply list_elem_of_In, list_elem_of_filter in Hrec as [_ Hrec].
  by apply (proj1 (Forall_forall _ _) Hrecs), list_elem_of_In.
Qed.

Lemma small_dict_set (key v : string) (d : PyDict) :
  within_limit v = true → small d → small (dict_set key (Str v) d).
Proof.
  intros Hv Hd k x. unfold dict_set. simpl.
  destruct (decide (key = k)) as [->|Hne].
  - rewrite lookup_insert_eq. by intros [= <-].
  - rewrite lookup_insert_ne by done. apply Hd.
Qed.

Lemma small_set_status (e s r : string) (d : PyDict) :
  within_limit e = true → within_limit s = true → within_limit r = true →
  small d → small (set_status e s r d).
Proof. intros. unfold set_status. by repeat apply small_dict_set. Qed.

(** A row without strings over the limit is readable once written. *)
Lemma small_readable (columns : list string) (d : PyDict) :
  small d → readable columns d.
Proof.
  intros Hd. unfold readable, fit, stored_row. apply forallb_forall.
  intros x (key & <- & _)%in_map_iff. unfold dict_get.
  destruct (items d !! key) as [[v|]|] eqn:Hv; [by eapply Hd|done..].
Qed.

Lemma fit_stored_rows (columns : list string) (ds : list PyDict) :
  Forall small ds → Forall fit (stored_row columns <$> ds).
Proof.
  intros H. apply Forall_fmap. eapply List.Forall_impl; [|exact H].
  intros d Hd. by apply small_readable.
Qed.


End DictFacts.

(** * Running the backend *)

Module RunFacts.
Import Py CsvBackend Spec DictFacts.

Ltac unfold_monad :=
  unfold mbind, M_bind, mret, M_ret, get_world, set_files, throw in *.

Lemma ensured_lookup path columns w :
  files (ensured path columns w) !! path = Some (contents_of path columns w).
Proof.
  unfold ensured, contents_of. destruct (files w !! path) eqn:E; simpl; [done|].
  by rewrite lookup_insert_eq.
Qed.

Lemma ensured_lookup_ne path path' columns w :
  path ≠ path' → files (ensured path columns w) !! path' = files w !! path'.
Proof.
  intros Hne. unfold ensured. destruct (files w !! path); simpl; [done|].
  by rewrite lookup_insert_ne.
Qed.

Lemma ensured_heap path columns w : heap (ensured path columns w) = heap w.
Proof. unfold ensured. by destruct (files w !! path). Qed.

Lemma ensured_today path columns w : today (ensured path columns w) = today w.
Proof. unfold ensured. by destruct (files w !! path). Qed.

Lemma ensured_exists path columns w contents :
  files w !! path = Some contents → ensured path columns w = w.
Proof. unfold ensured. by intros ->. Qed.

Lemma ensured_idem path columns w :
  ensured path columns (ensured path columns w) = ensured path columns w.
Proof. eapply ensured_exists, ensured_lookup. Qed.

Lemma contents_of_ensured path columns w :
  contents_of path columns (ensured path columns w) = contents_of path columns w.
Proof. unfold contents_of at 1. by rewrite ensured_lookup. Qed.

(** The header never holds a key the writer would reject. *)
Lemma dict_zip_keys (keys vals : list string) (key : string) :
  is_Some (dict_zip keys vals !! key) → key ∈ keys.
Proof.
  unfold dict_zip.
  assert (∀ m : gmap string value,
    is_Some (foldl (λ m kv, <[kv.1 := Str kv.2]> m) m (zip keys vals) !! key) →
    key ∈ keys ∨ is_Some (m !! key)) as H.
  { revert vals. induction keys as [|k keys IH]; intros [|v vals] m; simpl; auto.
    intros [Hin|Hm]%IH; [left; by right|].
    destruct (decide (k = key)) as [->|Hne]; [left; by left|].
    rewrite lookup_insert_ne in Hm by done. auto. }
  intros [?|Hm]%H; [done|]. rewrite lookup_empty in Hm. by destruct Hm.
Qed.

Lemma header_accepted (columns : list string) :
  DictWriter.wrong_fields columns (DictWriter.header columns) = false.
Proof.
  unfold DictWriter.wrong_fields. simpl.
  rewrite orb_false_r. apply not_true_is_false. intros H.
  apply existsb_exists in H as (key & Hin & Hkey).
  apply bool_decide_eq_true in Hkey. apply Hkey.
  apply list_elem_of_In, list_elem_of_fmap in Hin as ([k v] & -> & Hin).
  apply elem_of_map_to_list in Hin. eapply dict_zip_keys; eauto.
Qed.

Lemma stored_row_header (columns : list string) :
  stored_row columns (DictWriter.header columns) = columns.
Proof.
  unfold stored_row, dict_get, DictWriter.header. simpl.
  transitivity (map id columns); [|apply map_id]. apply map_ext_in. intros key Hin.
  pose proof (foldl_zip_lookup columns id ∅ key) as H.
  rewrite map_id in H. unfold dict_zip. rewrite H.
  rewrite decide_True; [done|]. by apply list_elem_of_In.
Qed.

Lemma writeheader_text (columns : list string) (ea : DictWriter.extrasaction) :
  DictWriter.writeheader columns ea = Some (Csv.writerow columns).
Proof.
  unfold DictWriter.writeheader, DictWriter.writerow, DictWriter.dict_to_list.
  fold (stored_row columns (DictWriter.header columns)).
  rewrite header_accepted, stored_row_header. by destruct ea.
Qed.

Lemma writerow_text (columns : list string) (d : PyDict) :
  DictWriter.writerow columns DictWriter.ignore d
  = Some (Csv.writerow (stored_row columns d)).
Proof. reflexivity. Qed.

Lemma _ensure_csv_run path columns w :
  _ensure_csv path columns w = (Ok tt, ensured path columns w).
Proof.
  unfold _ensure_csv, ensured, path_exists, open_truncate, writeheader,
    writerow, log, Py.write.
  fold (DictWriter.writeheader columns DictWriter.raise).
  rewrite writeheader_text. unfold_monad. simpl.
  destruct (files w !! path) eqn:E; simpl.
  - done.
  - by rewrite lookup_insert_eq, insert_insert_eq.
Qed.

Lemma _read_csv_run path columns w :
  _read_csv path columns w
  = (read_result (contents_of path columns w), ensured path columns w).
Proof.
  unfold _read_csv, read_text, read_result. unfold_monad. rewrite _ensure_csv_run.
  rewrite ensured_lookup. by destruct (DictReader.to_list _).
Qed.

Lemma read_result_ok contents rows :
  DictReader.to_list contents = Some rows → read_result contents = Ok rows.
Proof. unfold read_result. by intros ->. Qed.

Lemma read_result_raised contents :
  DictReader.to_list contents = None → read_result contents = Raised CsvError.
Proof. unfold read_result. by intros ->. Qed.

(** Reading a file of the store that has no field over the limit. *)
Lemma read_result_file_text columns recs :
  fit columns → Forall fit recs →
  read_result (file_text columns recs)
  = Ok (DictReader.read_all (file_text columns recs)).
Proof. intros Hc Hr. by apply read_result_ok, to_list_file_text. Qed.

(** Writing rows one after the other into an existing file. *)
Lemma write_rows_run path columns (rows : list PyDict) : ∀ w contents,
  files w !! path = Some contents →
  for_each rows (λ row, writerow path columns DictWriter.ignore row) w
  = (Ok tt, put_file path (contents +:+ Csv.writerows (stored_row columns <$> rows)) w).
Proof.
  induction rows as [|d rows IH]; intros w contents Hw.
  - simpl. unfold_monad. unfold put_file. rewrite app_nil_r, insert_id by done.
    by destruct w.
  - simpl. unfold_monad. unfold writerow. rewrite writerow_text.
    unfold Py.write. unfold_monad. simpl. rewrite Hw. simpl.
    erewrite IH; [|simpl; apply lookup_insert_eq].
    unfold put_file. simpl. by rewrite insert_insert_eq, app_assoc.
Qed.

Lemma _append_rows_run path columns (rows : list PyDict) w :
  _append_rows path columns rows w
  = (Ok (Z.of_nat (Text.count_lines (contents_of path columns w)) + 1)%Z,
     put_file path (contents_of path columns w
                    +:+ Csv.writerows (stored_row columns <$> rows))
       (ensured path columns w)).
Proof.
  unfold _append_rows, read_text. unfold_monad. rewrite _ensure_csv_run.
  rewrite ensured_lookup.
  by erewrite write_rows_run by apply ensured_lookup.
Qed.

End RunFacts.

Module UpdateFacts.
Import Py CsvBackend Spec DictFacts RunFacts.

Lemma setitem_at_run (rows : list PyDict) (i : Z) key v row w :
  (0 ≤ i < Z.of_nat (length rows))%Z →
  rows !! Z.to_nat i = Some row →
  setitem_at rows i key v w = (Ok (<[Z.to_nat i := dict_set key v row]> rows), w).
Proof.
  intros Hi Hrow. unfold setitem_at, getitem, py_index.
  rewrite bool_decide_eq_true_2 by done. simpl. rewrite Hrow.
  unfold_monad. done.
Qed.

Lemma writeheader_run path columns ea w :
  writeheader path columns ea w = Py.write path (Csv.writerow columns) w.
Proof.
  unfold writeheader, writerow.
  change (DictWriter.writerow columns ea (DictWriter.header columns))
    with (DictWriter.writeheader columns ea).
  by rewrite writeheader_text.
Qed.

Lemma open_truncate_run path w :
  open_truncate path w = (Ok tt, put_file path EmptyString w).
Proof. reflexivity. Qed.

Lemma write_run path text contents w :
  files w !! path = Some contents →
  Py.write path text w = (Ok tt, put_file path (contents +:+ text) w).
Proof. intros H. unfold Py.write. unfold_monad. by rewrite H. Qed.

Lemma put_file_put_file path c c' w :
  put_file path c (put_file path c' w) = put_file path c w.
Proof. unfold put_file. simpl. by rewrite insert_insert_eq. Qed.

Lemma put_file_lookup path c w : files (put_file path c w) !! path = Some c.
Proof. apply lookup_insert_eq. Qed.

Section Update.
Context (columns : list string) (self : CsvBackend).
Context (row_number : Z) (email_sent skip_reason email_recipient : string).
Context (w : World).

Let path := _jobs_path self.

(** The read raises: nothing is written. *)
Lemma update_run_unreadable :
  DictReader.to_list (contents_of path columns w) = None →
  update_scraped_job_status columns self row_number email_sent skip_reason
    email_recipient w
  = (Raised CsvError, ensured path columns w).
Proof.
  intros Hread. unfold update_scraped_job_status. unfold_monad.
  rewrite _ensure_csv_run, _read_csv_run, ensured_idem, contents_of_ensured.
  fold path. by rewrite (read_result_raised _ Hread).
Qed.

Context (rows : list PyDict).
Context (Hread : DictReader.to_list (contents_of path columns w) = Some rows).

Lemma update_run_out_of_range :
  ¬ (0 ≤ row_number - 2 < Z.of_nat (length rows))%Z →
  update_scraped_job_status columns self row_number email_sent skip_reason
    email_recipient w
  = (Ok tt, put_log WARNING (out_of_range_msg row_number (length rows))
              (ensured path columns w)).
Proof using Hread.
  intros Hout. unfold update_scraped_job_status. unfold_monad.
  rewrite _ensure_csv_run, _read_csv_run, ensured_idem, contents_of_ensured.
  fold path. rewrite (read_result_ok _ _ Hread).
  destruct (bool_decide (0 ≤ row_number - 2)%Z) eqn:H1;
    destruct (bool_decide (row_number - 2 < Z.of_nat (length rows))%Z) eqn:H2;
    simpl; try done.
  apply bool_decide_eq_true in H1, H2. lia.
Qed.

Lemma update_run_in_range (row : PyDict) :
  (0 ≤ row_number - 2 < Z.of_nat (length rows))%Z →
  rows !! Z.to_nat (row_number - 2) = Some row →
  update_scraped_job_status columns self row_number email_sent skip_reason
    email_recipient w
  = (Ok tt,
     put_log DEBUG (updated_msg row_number email_sent)
       (put_file path
          (file_text columns
             (stored_row columns <$>
                <[Z.to_nat (row_number - 2) :=
                    set_status email_sent skip_reason email_recipient row]> rows))
          (ensured path columns w))).
Proof using Hread.
  intros Hin Hrow. unfold update_scraped_job_status. unfold_monad.
  rewrite _ensure_csv_run, _read_csv_run, ensured_idem, contents_of_ensured.
  fold path. rewrite (read_result_ok _ _ Hread).
  rewrite !bool_decide_eq_true_2 by lia. cbn [andb].
  assert (Z.to_nat (row_number - 2) < length rows) as Hlt by lia.
  erewrite setitem_at_run by done.
  erewrite setitem_at_run;
    [|by rewrite length_insert|by apply list_lookup_insert_eq].
  erewrite setitem_at_run;
    [|by rewrite !length_insert
     |apply list_lookup_insert_eq; by rewrite length_insert].
  rewrite !list_insert_insert_eq.
  rewrite open_truncate_run, writeheader_run.
  erewrite write_run by apply put_file_lookup.
  rewrite put_file_put_file, app_nil_l.
  erewrite write_rows_run by apply put_file_lookup.
  by rewrite put_file_put_file.
Qed.

End Update.

End UpdateFacts.

Module QueryFacts.
Import Py CsvBackend Spec DictFacts RunFacts.

Lemma pending_loop_spec (jobs : list (Z * PyDict)) : ∀ pending,
  pending_loop jobs pending = pending ++ pending_of jobs.
Proof.
  unfold pending_of. induction jobs as [|[i job] jobs IH]; intros pending.
  - simpl. symmetry. apply (right_id_L [] (++)).
  - simpl. destruct (is_pending job) eqn:Hp.
    + rewrite IH, filter_cons_True by done. by rewrite <-(assoc_L (++)).
    + rewrite IH, filter_cons_False; [done|]. simpl. by rewrite Hp.
Qed.

Lemma is_pending_spec (job : PyDict) :
  is_pending job = true ↔ items job !! "email_sent" = Some (Str "Pending").
Proof.
  unfold is_pending, dict_get. rewrite bool_decide_eq_true.
  destruct (items job !! "email_sent") as [v|]; [|done].
  split; congruence.
Qed.

Lemma get_pending_jobs_run columns self w :
  get_pending_jobs columns self w
  = (result_map (λ rows, pending_of (enumerate rows))
       (read_result (contents_of (_jobs_path self) columns w)),
     ensured (_jobs_path self) columns w).
Proof.
  unfold get_pending_jobs. unfold_monad. rewrite _read_csv_run.
  destruct (read_result _); [|done]. simpl. by rewrite pending_loop_spec.
Qed.

(** [startswith] is the prefix relation. *)
Lemma startswith_spec (s p : string) :
  startswith s p = true ↔ ∃ t, s = p +:+ t.
Proof.
  revert s. induction p as [|a p IH]; intros s.
  - split; [intros _; by exists s|intros _; by destruct s].
  - destruct s as [|b s]; simpl.
    + split; [done|]. by intros [t ?].
    + rewrite andb_true_iff, Ascii.eqb_eq, IH. split.
      * intros [-> [t ->]]. eauto.
      * intros [t Ht]. rewrite app_cons in Ht. injection Ht as -> ->. eauto.
Qed.

Lemma isoformat_nonempty (d : Date) : isoformat d ≠ EmptyString.
Proof.
  unfold isoformat. intros [_ H]%app_eq_nil. done.
Qed.

(** The test of the counting loop: the field is there, a string, and has
    today's date as a prefix. *)
Lemma sent_today_spec (d : Date) (record : PyDict) :
  sent_today (isoformat d) record = true
  ↔ ∃ date_sent rest,
      items record !! "date_sent" = Some (Str date_sent)
      ∧ date_sent = isoformat d +:+ rest.
Proof.
  unfold sent_today, dict_get.
  destruct (items record !! "date_sent") as [[date_sent|]|] eqn:E.
  - rewrite andb_true_iff, startswith_spec. split.
    + intros [_ [t ->]]. eauto.
    + intros (? & t & [= <-] & ->). split; [|eauto].
      pose proof (isoformat_nonempty d). by destruct (isoformat d).
  - split; [done|]. by intros (? & ? & ? & ?).
  - simpl. split; [done|]. by intros (? & ? & ? & ?).
Qed.

Lemma count_loop_spec (today_str : string) (records : list PyDict) : ∀ count,
  count_loop today_str records count
  = (count + Z.of_nat (length (filter (λ r, sent_today today_str r = true) records)))%Z.
Proof.
  induction records as [|r records IH]; intros count; simpl; [lia|].
  rewrite IH. destruct (sent_today today_str r) eqn:E.
  - rewrite filter_cons_True by done. simpl. lia.
  - rewrite filter_cons_False; [done|]. by rewrite E.
Qed.

Lemma get_today_sent_emails_count_run columns self w :
  get_today_sent_emails_count columns self w
  = (result_map
       (λ rows, Z.of_nat (length (filter
                  (λ r, sent_today (isoformat (today w)) r = true) rows)))
       (read_result (contents_of (_sent_path self) columns w)),
     ensured (_sent_path self) columns w).
Proof.
  unfold get_today_sent_emails_count, date_today. unfold_monad.
  rewrite _read_csv_run. destruct (read_result _); [|done]. simpl.
  by rewrite count_loop_spec, ensured_today.
Qed.

End QueryFacts.

Module AppendFacts.
Import Py CsvBackend Spec DictFacts RunFacts.

Lemma number_loop_run (start_row : Z) (jobs : list (Z * nat)) : ∀ w,
  for_each jobs (λ '(i, record),
    setitem record "row_number" (Str (str_int (start_row + i)))) w
  = (Ok tt, put_heap (number_records start_row jobs (heap w)) w).
Proof.
  induction jobs as [|[i a] jobs IH]; intros w.
  - by destruct w.
  - simpl. unfold_monad. unfold setitem at 1. by rewrite IH.
Qed.

Lemma number_records_cons (start_row : Z) (i : Z) (a : nat) jobs h :
  number_records start_row ((i, a) :: jobs) h
  = number_records start_row jobs
      (<[a := dict_set "row_number" (Str (str_int (start_row + i))) (h a)]> h).
Proof. reflexivity. Qed.

Lemma number_records_other (start_row : Z) (records : list nat) (a : nat) :
  ∀ n h, a ∉ records →
  number_records start_row (enumerate_from n records) h a = h a.
Proof.
  induction records as [|b records IH]; intros n h Ha; [done|].
  apply not_elem_of_cons in Ha as [Hne Ha].
  change (enumerate_from n (b :: records))
    with ((n, b) :: enumerate_from (n + 1) records).
  rewrite number_records_cons, IH by done.
  by rewrite fn_lookup_insert_ne.
Qed.

Lemma number_records_at (start_row : Z) (records : list nat) :
  ∀ n h (i : nat) a, NoDup records → records !! i = Some a →
  number_records start_row (enumerate_from n records) h a
  = dict_set "row_number" (Str (str_int (start_row + (n + Z.of_nat i)))) (h a).
Proof.
  induction records as [|b records IH]; intros n h i a Hnd Hi; [done|].
  inversion Hnd as [|? ? Hb Hnd']; subst.
  change (enumerate_from n (b :: records))
    with ((n, b) :: enumerate_from (n + 1) records).
  rewrite number_records_cons.
  destruct i as [|i]; simpl in Hi.
  - injection Hi as ->.
    rewrite number_records_other by done.
    rewrite fn_lookup_insert. do 3 f_equal. lia.
  - erewrite IH by done.
    assert (a ≠ b) as Hne.
    { intros ->. apply Hb. by eapply list_elem_of_lookup_2. }
    rewrite fn_lookup_insert_ne by done. do 3 f_equal. lia.
Qed.

Lemma _get_next_row_number_run columns self w :
  _get_next_row_number columns self w
  = (Ok (Z.of_nat (Text.count_lines (contents_of (_jobs_path self) columns w)) + 1)%Z,
     ensured (_jobs_path self) columns w).
Proof.
  unfold _get_next_row_number, read_text. unfold_monad.
  by rewrite _ensure_csv_run, ensured_lookup.
Qed.

Lemma add_scraped_jobs_run columns self (records : list nat) w :
  records ≠ [] →
  let path := _jobs_path self in
  let contents := contents_of path columns w in
  let start_row := (Z.of_nat (Text.count_lines contents) + 1)%Z in
  let h := number_records start_row (enumerate records) (heap w) in
  add_scraped_jobs columns self records w
  = (Ok start_row,
     put_file path (contents +:+ Csv.writerows (stored_row columns <$> (h <$> records)))
       (put_heap h (ensured path columns w))).
Proof.
  intros Hne. cbv zeta. unfold add_scraped_jobs.
  destruct records as [|a records]; [done|].
  unfold_monad. rewrite _get_next_row_number_run, number_loop_run.
  rewrite _append_rows_run.
  set (w1 := ensured (_jobs_path self) columns w).
  assert (files (put_heap (number_records
    (Z.of_nat (Text.count_lines (contents_of (_jobs_path self) columns w)) + 1)
    (enumerate (a :: records)) (heap w1)) w1) !! _jobs_path self
    = Some (contents_of (_jobs_path self) columns w)) as Hfile
    by apply ensured_lookup.
  rewrite (ensured_exists _ _ _ _ Hfile).
  unfold contents_of at 1 3. rewrite Hfile. simpl.
  unfold w1. by rewrite ensured_heap.
Qed.

End AppendFacts.

Module RowFacts.
Import Spec DictFacts.

Section Fold.
Context {X : Type} (key_of : X → string) (val_of : X → value).

Let ins (m : gmap string value) (x : X) := <[key_of x := val_of x]> m.

Lemma foldl_insert_is_Some (l : list X) : ∀ (m : gmap string value) (k : string),
  is_Some (foldl ins m l !! k) ↔ is_Some (m !! k) ∨ k ∈ key_of <$> l.
Proof using Type.
  induction l as [|x l IH]; intros m k.
  - simpl. rewrite elem_of_nil. tauto.
  - cbn [foldl]. rewrite IH, fmap_cons, elem_of_cons. unfold ins.
    destruct (decide (k = key_of x)) as [->|Hne].
    + rewrite lookup_insert_eq. split; [auto|]. intros _. left. eauto.
    + rewrite lookup_insert_ne by done. tauto.
Qed.

Lemma foldl_insert_lookup_ne (l : list X) : ∀ (m : gmap string value) (k : string),
  k ∉ key_of <$> l → foldl ins m l !! k = m !! k.
Proof using Type.
  induction l as [|x l IH]; intros m k Hk; [done|].
  rewrite fmap_cons in Hk. apply not_elem_of_cons in Hk as [Hne Hk].
  simpl. rewrite IH by done. unfold ins. by rewrite lookup_insert_ne.
Qed.

End Fold.

Lemma zip_keys (keys vals : list string) :
  (zip keys vals).*1 = take (length vals) keys.
Proof.
  revert vals. induction keys as [|k keys IH]; intros [|v vals]; simpl; [done..|].
  by rewrite IH.
Qed.

(** A key that has a field under it is mapped to that field's text. *)
Lemma dict_zip_covered (keys vals : list string) (k : string) :
  k ∈ take (length vals) keys → ∃ v, dict_zip keys vals !! k = Some (Str v).
Proof.
  rewrite <-zip_keys. unfold dict_zip.
  assert (∀ (l : list (string * string)) (m : gmap string value),
    (∃ v, m !! k = Some (Str v)) ∨ k ∈ l.*1 →
    ∃ v, foldl (λ m kv, <[kv.1 := Str kv.2]> m) m l !! k = Some (Str v)) as H.
  { induction l as [|[a b] l IH]; intros m [Hm|Hk]; simpl.
    - done.
    - by apply elem_of_nil in Hk.
    - apply IH. destruct (decide (k = a)) as [->|Hne].
      + left. rewrite lookup_insert_eq. eauto.
      + left. by rewrite lookup_insert_ne.
    - apply IH. rewrite fmap_cons in Hk. apply elem_of_cons in Hk as [->|Hk].
      + left. simpl. rewrite lookup_insert_eq. eauto.
      + by right. }
  intros Hk. apply H. by right.
Qed.

(** The keys of a row are the names in the header, whatever the length of
    the line. *)
Lemma row_to_dict_keys (header row : list string) (key : string) :
  is_Some (items (DictReader.row_to_dict header row) !! key) ↔ key ∈ header.
Proof.
  assert (is_Some (dict_zip header row !! key) ↔ key ∈ take (length row) header)
    as Hzip.
  { unfold dict_zip.
    rewrite (foldl_insert_is_Some fst (λ kv, Str kv.2)), lookup_empty, zip_keys.
    split; [by intros [[? ?]|?]|auto]. }
  unfold DictReader.row_to_dict.
  destruct (length header <? length row) eqn:Hlt; simpl.
  - apply Nat.ltb_lt in Hlt. rewrite Hzip, take_ge by lia. done.
  - destruct (length row <? length header) eqn:Hgt; simpl.
    + rewrite (foldl_insert_is_Some id (λ _, PyNone)), Hzip, list_fmap_id.
      rewrite <-elem_of_app, take_drop. done.
    + apply Nat.ltb_ge in Hlt, Hgt. rewrite Hzip, take_ge by lia. done.
Qed.

(** A line with at least as many fields as the header gives every column a
    string. *)
Lemma row_to_dict_full (header row : list string) (key : string) :
  length header ≤ length row → key ∈ header →
  ∃ v, items (DictReader.row_to_dict header row) !! key = Some (Str v).
Proof.
  intros Hlen Hkey.
  assert (∃ v, dict_zip header row !! key = Some (Str v)) as Hv.
  { apply dict_zip_covered. by rewrite take_ge by lia. }
  unfold DictReader.row_to_dict.
  destruct (length header <? length row); [done|].
  destruct (length row <? length header) eqn:Hgt; [|done].
  apply Nat.ltb_lt in Hgt. lia.
Qed.

Lemma row_to_dict_rest (header row : list string) :
  is_Some (rest (DictReader.row_to_dict header row)) ↔ length header < length row.
Proof.
  unfold DictReader.row_to_dict.
  destruct (length header <? length row) eqn:Hlt; simpl.
  - apply Nat.ltb_lt in Hlt. split; eauto.
  - apply Nat.ltb_ge in Hlt. destruct (length row <? length header); simpl;
      (split; [by intros [? ?]|lia]).
Qed.

(** Every value of a row that was read is a string or [None]; the columns
    of a short line that are missing are [None]. *)
Lemma read_back_keys (columns : list string) (d : PyDict) (key : string) :
  is_Some (items (read_back columns d) !! key) ↔ key ∈ columns.
Proof. apply row_to_dict_keys. Qed.

(** Reading the file after it was rewritten from rows. *)
Lemma read_all_rewritten (columns : list string) (rows : list PyDict) :
  columns ≠ [] →
  DictReader.read_all (file_text columns (stored_row columns <$> rows))
  = read_back columns <$> rows.
Proof.
  intros Hne. rewrite read_all_file_text, filter_stored_rows by done.
  unfold read_back. by rewrite <-list_fmap_compose.
Qed.

End RowFacts.

(** * The properties of the specification *)

Import Py CsvBackend Spec Example.
Import DictFacts RunFacts UpdateFacts QueryFacts AppendFacts RowFacts.

Lemma contents_of_lookup path columns w contents :
  files w !! path = Some contents → contents_of path columns w = contents.
Proof. unfold contents_of. by intros ->. Qed.

Lemma reads_read_all contents :
  reads contents → DictReader.to_list contents = Some (DictReader.read_all contents).
Proof. intros [rows Hrows]. by rewrite (to_list_Some _ _ Hrows) in Hrows. Qed.

Lemma reads_file_text columns recs :
  fit columns → Forall fit recs → reads (file_text columns recs).
Proof. intros Hc Hr. eexists. by apply to_list_file_text. Qed.

(** *** The long field of the examples *)

Lemma length_str_repeat (c : ascii) (n : nat) : String.length (str_repeat c n) = n.
Proof. induction n as [|n IH]; [done|]. simpl. by rewrite IH. Qed.

Lemma long_field_length : N.of_nat (String.length long_field) = 131073%N.
Proof. unfold long_field. rewrite length_str_repeat. apply N2Nat.id. Qed.

Lemma long_field_over : Csv.within_limit long_field = false.
Proof. unfold Csv.within_limit. by rewrite long_field_length. Qed.

Lemma long_field_plain : Csv.must_quote long_field = false.
Proof.
  unfold long_field, Csv.must_quote. apply negb_false_iff.
  induction (N.to_nat 131073) as [|n IH]; [done|]. simpl. exact IH.
Qed.

Lemma long_job_unreadable : DictReader.to_list long_job_contents = None.
Proof.
  apply to_list_overflow; [reflexivity|apply long_field_plain|apply long_field_over].
Qed.

Lemma long_sent_unreadable : DictReader.to_list long_sent_contents = None.
Proof.
  apply to_list_overflow; [reflexivity|apply long_field_plain|apply long_field_over].
Qed.

Lemma long_job_file : files long_job_world !! _jobs_path backend = Some long_job_contents.
Proof. apply lookup_singleton_eq. Qed.

Lemma long_sent_file : files long_sent_world !! _sent_path backend = Some long_sent_contents.
Proof. apply lookup_singleton_eq. Qed.

Lemma long_job_contents_of :
  contents_of (_jobs_path backend) job_columns long_job_world = long_job_contents.
Proof. exact (contents_of_lookup _ _ _ _ long_job_file). Qed.

Lemma long_sent_contents_of :
  contents_of (_sent_path backend) sent_columns long_sent_world = long_sent_contents.
Proof. exact (contents_of_lookup _ _ _ _ long_sent_file). Qed.

(** C3, as the specification has it, fails on a job file that holds a field
    of more than 131072 characters, the limit of the csv reader: the update
    reads the file before it tests the row number, and the read raises
    [csv.Error]. The job file below has one data row, whose title has 131073
    characters; row 999 is out of range, and the call raises. *)
Lemma update_out_of_range_raises :
  files long_job_world !! _jobs_path backend
  = Some (file_text job_columns
            [[long_field; "2"; "Pending"; EmptyString; EmptyString]])
  ∧ N.of_nat (String.length long_field) = 131073%N
  ∧ (update_scraped_job_status job_columns backend 999 "Sent" "none"
       "hr@example.org" long_job_world).1 = Raised CsvError.
Proof.
  split; [apply long_job_file|]. split; [apply long_field_length|].
  rewrite update_run_unreadable; [done|].
  rewrite long_job_contents_of. apply long_job_unreadable.
Qed.

(** C3, amended. An update whose row number falls outside the data rows of
    an existing job file that the csv reader gets through (the file holds no
    field of more than 131072 characters) writes nothing: the index
    [row_number - 2] is negative, or not below the number of rows; the files
    are as before, no exception is raised, and the one thing that happens is
    a warning in the log. *)
Theorem update_out_of_range_noop (columns : list string) (self : CsvBackend)
    (row_number : Z) (email_sent skip_reason email_recipient : string)
    (w : World) (contents : string) :
  files w !! _jobs_path self = Some contents →
  reads contents →
  ¬ (0 ≤ row_number - 2 < Z.of_nat (length (DictReader.read_all contents)))%Z →
  ∃ w', update_scraped_job_status columns self row_number email_sent skip_reason
          email_recipient w = (Ok tt, w')
    ∧ files w' = files w
    ∧ heap w' = heap w
    ∧ logs w' = logs w ++ [mkLog WARNING
        (out_of_range_msg row_number (length (DictReader.read_all contents)))].
Proof.
  intros Hfile Hreads%reads_read_all Hout. eexists. split.
  - apply update_run_out_of_range; [|done].
    by rewrite (contents_of_lookup _ _ _ _ Hfile).
  - by rewrite (ensured_exists _ _ _ _ Hfile).
Qed.

Lemma read_all_header (columns : list string) :
  DictReader.read_all (Csv.writerow columns) = [].
Proof. by rewrite <-file_text_nil, read_all_file_text. Qed.

Lemma to_list_header (columns : list string) :
  fit columns → DictReader.to_list (Csv.writerow columns) = Some [].
Proof.
  intros Hc. rewrite <-file_text_nil, to_list_file_text by done.
  by rewrite file_text_nil, read_all_header.
Qed.


(** C4, as the specification has it, fails on a job file with a field over
    the reader's limit: the job file below has one row, pending, with a
    title of 131073 characters, and [get_pending_jobs] raises [csv.Error]
    where the claim has it return that row. *)
Lemma get_pending_jobs_raises :
  files long_job_world !! _jobs_path backend
  = Some (file_text job_columns
            [[long_field; "2"; "Pending"; EmptyString; EmptyString]])
  ∧ N.of_nat (String.length long_field) = 131073%N
  ∧ (get_pending_jobs job_columns backend long_job_world).1 = Raised CsvError.
Proof.
  split; [apply long_job_file|]. split; [apply long_field_length|].
  rewrite get_pending_jobs_run. cbn [fst].
  rewrite long_job_contents_of.
  by rewrite (read_result_raised long_job_contents long_job_unreadable).
Qed.

(** C4, amended. The pending jobs of a job file that the csv reader gets
    through are its data rows whose [email_sent] is the string "Pending", in
    the order of the file, each with [row_number] set to the string of its
    index plus two, whatever the file had in that field. The file is not
    touched. *)
Theorem get_pending_jobs_spec (columns : list string) (self : CsvBackend)
    (w : World) (contents : string) :
  files w !! _jobs_path self = Some contents →
  reads contents →
  get_pending_jobs columns self w
  = (Ok ((λ p, dict_set "row_number" (Str (str_int (p.1 + 2))) p.2)
           <$> filter (λ p, items p.2 !! "email_sent" = Some (Str "Pending"))
                 (enumerate (DictReader.read_all contents))),
     w).
Proof.
  intros Hfile Hreads%reads_read_all. rewrite get_pending_jobs_run.
  rewrite (ensured_exists _ _ _ _ Hfile), (contents_of_lookup _ _ _ _ Hfile).
  rewrite (read_result_ok _ _ Hreads). simpl.
  unfold pending_of. do 3 f_equal.
  apply list_filter_iff. intros [i job]. apply is_pending_spec.
Qed.

(** C6, as the specification has it, fails on a sent-email file with a
    field over the reader's limit: the file below has one row, of today,
    with an address of 131073 characters, and the count raises [csv.Error]. *)
Lemma get_today_sent_emails_count_raises :
  files long_sent_world !! _sent_path backend
  = Some (file_text sent_columns [[long_field; "2024-01-02"]])
  ∧ N.of_nat (String.length long_field) = 131073%N
  ∧ today long_sent_world = mkDate 2024 1 2
  ∧ (get_today_sent_emails_count sent_columns backend long_sent_world).1
    = Raised CsvError.
Proof.
  split; [apply long_sent_file|]. split; [apply long_field_length|].
  split; [done|].
  rewrite get_today_sent_emails_count_run. cbn [fst].
  rewrite long_sent_contents_of.
  by rewrite (read_result_raised long_sent_contents long_sent_unreadable).
Qed.

(** C6, amended. For a sent-email file that the csv reader gets through,
    the count of today's sent emails is the number of rows whose
    [date_sent] is a string that starts with the clock's date in the form
    YYYY-MM-DD: a comparison of prefixes, not of dates. A row with an empty
    or missing [date_sent], or with another prefix, does not count. On
    2024-01-02, "2024-01-02" and "2024-01-02T09:00:00" count, "2024-01-01"
    and the empty string do not. *)
Theorem get_today_sent_emails_count_spec (columns : list string)
    (self : CsvBackend) (w : World) (contents : string) :
  files w !! _sent_path self = Some contents →
  reads contents →
  let today_str := isoformat (today w) in
  get_today_sent_emails_count columns self w
  = (Ok (Z.of_nat (length (filter (λ r, sent_today today_str r = true)
                             (DictReader.read_all contents)))), w)
  ∧ (∀ r, sent_today today_str r = true
          ↔ ∃ date_sent rest, items r !! "date_sent" = Some (Str date_sent)
                              ∧ date_sent = today_str +:+ rest)
  ∧ (∀ r, items r !! "date_sent" = Some (Str EmptyString)
          ∨ items r !! "date_sent" = Some PyNone
          ∨ items r !! "date_sent" = None → sent_today today_str r = false)
  ∧ (today w = mkDate 2024 1 2 →
     today_str = "2024-01-02"
     ∧ ∀ r date_sent, items r !! "date_sent" = Some (Str date_sent) →
         (date_sent = "2024-01-02" ∨ date_sent = "2024-01-02T09:00:00"
            → sent_today today_str r = true)
         ∧ (date_sent = "2024-01-01" ∨ date_sent = EmptyString
            → sent_today today_str r = false)).
Proof.
  intros Hfile Hreads%reads_read_all today_str. split; [|split; [|split]].
  - rewrite get_today_sent_emails_count_run.
    rewrite (ensured_exists _ _ _ _ Hfile), (contents_of_lookup _ _ _ _ Hfile).
    by rewrite (read_result_ok _ _ Hreads).
  - intros r. apply sent_today_spec.
  - intros r. unfold sent_today, dict_get. by intros [->|[->| ->]].
  - intros Htoday. unfold today_str. rewrite Htoday. split; [done|].
    intros r date_sent Hr. unfold sent_today, dict_get. rewrite Hr.
    split; intros [->| ->]; done.
Qed.

(** C8, as the specification has it, fails: the keys of the rows come from
    the header line of the file, not from the [columns] the caller passes.
    A file with the header [x,y], read with the columns [a] and [b], gives
    a row with the keys [x] and [y]. *)
Lemma read_csv_keys_not_columns :
  let w := mkWorld {[ "f.csv" := file_text ["x"; "y"] [["1"; "2"]] ]}
                   (λ _, empty_dict) (mkDate 2024 1 2) [] in
  ∃ d, (_read_csv "f.csv" ["a"; "b"] w).1 = Ok [d]
    ∧ items d !! "a" = None ∧ items d !! "b" = None
    ∧ items d !! "x" = Some (Str "1") ∧ items d !! "y" = Some (Str "2").
Proof. eexists. repeat split; vm_compute; reflexivity. Qed.

(** C8, amended. Reading a file that the csv reader gets through (no field
    of more than 131072 characters; otherwise the read raises [csv.Error])
    parses every record after the first one that is not blank into a dict
    whose keys are the names in the file's first record, the header (so they
    are [columns] when the file was created from [columns]); for a file that
    holds only a header the result is empty. The file is left as it is. *)
Theorem read_csv_spec (path : string) (columns : list string) (w : World)
    (contents : string) :
  files w !! path = Some contents →
  reads contents →
  (∀ header recs, Csv.reader contents = header :: recs →
     _read_csv path columns w
     = (Ok (DictReader.row_to_dict header
              <$> filter (λ row, DictReader.is_blank row = false) recs), w)
     ∧ ∀ row key,
         is_Some (items (DictReader.row_to_dict header row) !! key) ↔ key ∈ header)
  ∧ (∀ header, contents = Csv.writerow header →
       _read_csv path columns w = (Ok [], w)).
Proof.
  intros Hfile Hreads%reads_read_all.
  assert (_read_csv path columns w = (Ok (DictReader.read_all contents), w)) as Hrun.
  { rewrite _read_csv_run, (ensured_exists _ _ _ _ Hfile).
    by rewrite (contents_of_lookup _ _ _ _ Hfile), (read_result_ok _ _ Hreads). }
  split.
  - intros header recs Hreader. split; [|apply row_to_dict_keys].
    rewrite Hrun. unfold DictReader.read_all. by rewrite Hreader.
  - intros header ->. rewrite Hrun. by rewrite read_all_header.
Qed.

(** C5, as the specification has it, fails: on a path where there is no
    file yet, [_append_rows] first writes the header, which is line 1, and
    returns 2. *)
Lemma append_rows_new_file_returns_2 :
  let w := mkWorld ∅ (λ _, empty_dict) (mkDate 2024 1 2) [] in
  (_append_rows "f.csv" ["a"; "b"] [] w).1 = Ok 2%Z
  ∧ (_append_rows "f.csv" ["a"; "b"] [] w).1 ≠ Ok 1%Z.
Proof. split; vm_compute; [reflexivity|discriminate]. Qed.

Lemma append_rows_store_file path columns rows (recs : list (list string)) w :
  contents_of path columns w = file_text columns recs →
  ∃ w', _append_rows path columns rows w
        = (Ok (Z.of_nat (Text.count_lines (file_text columns recs)) + 1)%Z, w')
    ∧ contents_of path columns w'
      = file_text columns (recs ++ (stored_row columns <$> rows)).
Proof.
  intros Hfile. rewrite _append_rows_run, Hfile. eexists. split; [done|].
  erewrite contents_of_lookup by apply put_file_lookup.
  apply file_text_app.
Qed.

Lemma append_batches_store_file path columns (batches : list (list PyDict)) :
  ∀ (recs : list (list string)) w,
  contents_of path columns w = file_text columns recs →
  ∃ w', append_batches path columns batches w = (Ok tt, w')
    ∧ contents_of path columns w'
      = file_text columns (recs ++ (stored_row columns <$> concat batches)).
Proof.
  induction batches as [|rows batches IH]; intros recs w Hfile.
  - exists w. split; [done|]. simpl. by rewrite (right_id_L [] (++)).
  - destruct (append_rows_store_file path columns rows recs w Hfile)
      as (w1 & Hrun & Hfile1).
    destruct (IH _ _ Hfile1) as (w2 & Hrun2 & Hfile2).
    exists w2. split.
    + unfold append_batches in *. simpl. unfold_monad. by rewrite Hrun.
    + rewrite Hfile2. simpl. by rewrite fmap_app, (assoc_L (++)).
Qed.

(** C5, amended. With the header as line 1, [_append_rows] on a file that
    is new or holds only the header returns 2; and after K rows have been
    appended, none with a line break in a field, the next call returns
    K + 2. (Column names are taken to have no line breaks.) *)
Theorem append_rows_start_row (path : string) (columns : list string)
    (batches : list (list PyDict)) (rows : list PyDict) (w : World) :
  forallb Text.no_newline columns = true →
  files w !! path = None ∨ files w !! path = Some (Csv.writerow columns) →
  Forall (single_line columns) (concat batches) →
  (∃ w0, _append_rows path columns rows w = (Ok 2%Z, w0))
  ∧ ∃ w1 w2, append_batches path columns batches w = (Ok tt, w1)
      ∧ _append_rows path columns rows w1
        = (Ok (Z.of_nat (length (concat batches)) + 2)%Z, w2).
Proof.
  intros Hcols Hfile Hrows.
  assert (contents_of path columns w = file_text columns []) as Hw.
  { rewrite file_text_nil. unfold contents_of. by destruct Hfile as [->| ->]. }
  split.
  - destruct (append_rows_store_file path columns rows [] w Hw) as (w0 & -> & _).
    exists w0. rewrite count_lines_file_text by done. done.
  - destruct (append_batches_store_file path columns batches [] w Hw)
      as (w1 & Hrun1 & Hw1).
    destruct (append_rows_store_file path columns rows _ w1 Hw1) as (w2 & Hrun2 & _).
    exists w1, w2. split; [done|]. rewrite Hrun2.
    rewrite count_lines_file_text; [|done|].
    + simpl. rewrite length_fmap. do 2 f_equal. lia.
    + simpl. by apply Forall_fmap.
Qed.


Lemma dict_get_set_status e s r (d : PyDict) (key : string) (dflt : value) :
  dict_get (set_status e s r d) key dflt
  = match status_of e s r key with
    | Some v => Str v
    | None => dict_get d key dflt
    end.
Proof.
  unfold dict_get, set_status, status_of. simpl.
  repeat case_decide; subst; simplify_map_eq; done.
Qed.

Lemma fit_status (e s r : string) :
  fit [e; s; r] →
  Csv.within_limit e = true ∧ Csv.within_limit s = true ∧ Csv.within_limit r = true.
Proof.
  unfold fit. simpl. rewrite !andb_true_iff. tauto.
Qed.

(** The rows of the job file after an update in range. *)
Lemma update_in_range_rows (columns : list string) (self : CsvBackend)
    (row_number : Z) (e s r : string) (w : World) (contents : string) :
  columns ≠ [] →
  files w !! _jobs_path self = Some contents →
  reads contents →
  let rows := DictReader.read_all contents in
  let idx := Z.to_nat (row_number - 2) in
  (0 ≤ row_number - 2 < Z.of_nat (length rows))%Z →
  ∃ w' contents' recs',
    update_scraped_job_status columns self row_number e s r w = (Ok tt, w')
    ∧ files w' = <[_jobs_path self := contents']> (files w)
    ∧ heap w' = heap w
    ∧ Csv.reader contents' = columns :: recs'
    ∧ DictReader.read_all contents'
      = read_back columns <$> alter (set_status e s r) idx rows
    ∧ (fit columns → fit [e; s; r] → reads contents').
Proof.
  intros Hne Hfile Hreads%reads_read_all rows idx Hin.
  destruct (lookup_lt_is_Some_2 rows idx) as [row Hrow]; [unfold idx; lia|].
  pose proof (update_run_in_range columns self row_number e s r w rows) as Hrun.
  cbv zeta in Hrun. rewrite (contents_of_lookup _ _ _ _ Hfile) in Hrun.
  specialize (Hrun Hreads row Hin Hrow).
  rewrite (ensured_exists _ _ _ _ Hfile) in Hrun.
  eexists _, _, _. split; [exact Hrun|]. simpl.
  split; [done|]. split; [done|]. split; [apply reader_file_text|]. split.
  - rewrite read_all_rewritten by done. f_equal.
    fold idx rows. apply list_eq. intros j.
    destruct (decide (j = idx)) as [->|Hj].
    + rewrite list_lookup_insert_eq by (unfold idx; lia).
      by rewrite list_lookup_alter_eq, Hrow.
    + by rewrite list_lookup_insert_ne, list_lookup_alter_ne.
  - intros Hcols (He & Hs & Hr)%fit_status.
    apply reads_file_text; [done|]. apply fit_stored_rows.
    pose proof (to_list_small _ _ Hreads) as Hsmall.
    apply Forall_insert; [done|]. apply small_set_status; [done..|].
    eapply (proj1 (Forall_forall _ _) Hsmall), list_elem_of_In.
    by eapply list_elem_of_lookup_2.
Qed.

(** C2, as the specification has it, fails on a job file with a short line:
    the rewrite fills in the fields the line does not have. Row 3 below has
    only its first field; after the update of row 2 its [email_sent] reads
    as the empty string, where it was [None] before. *)
Lemma update_fills_short_rows :
  let columns := ["row_number"; "email_sent"; "skip_reason"; "email_recipient"] in
  let self := __init__ "data" in
  let before := file_text columns [["2"; "Pending"; EmptyString; EmptyString]; ["3"]] in
  let w := mkWorld {[ _jobs_path self := before ]} (λ _, empty_dict)
                   (mkDate 2024 1 2) [] in
  let w' := (update_scraped_job_status columns self 2 "Sent" "none" "hr@example.org" w).2 in
  let email_sent_of_row_3 (contents : string) :=
    row ← DictReader.read_all contents !! 1; items row !! "email_sent" in
  email_sent_of_row_3 before = Some PyNone
  ∧ (files w' !! _jobs_path self ≫= email_sent_of_row_3) = Some (Str EmptyString)
  ∧ email_sent_of_row_3 before ≠ (files w' !! _jobs_path self ≫= email_sent_of_row_3).
Proof.
  split; [|split]; [vm_compute; reflexivity..|].
  vm_compute. discriminate.
Qed.

(** C2, amended. For a job file that the csv reader gets through, whose
    header is the schema, with N data rows, and a row number with
    [0 <= row_number - 2 < N], the update rewrites the file so that the
    header, the number of rows and their order are as before; in the row at
    index [row_number - 2] the three status fields have the new values; and
    every other field of the schema, in that row and in all others, keeps
    its string. Only a field that a short line did not have (read as
    [None]) comes back as the empty string. Other files and the caller's
    records are not touched. The column names and the new values are within
    the reader's limit of 131072 characters, so that the file reads back. *)
Theorem update_in_range_spec (columns : list string) (self : CsvBackend)
    (row_number : Z) (email_sent skip_reason email_recipient : string)
    (w : World) (contents : string) (recs : list (list string)) :
  columns ≠ [] → fit columns →
  fit [email_sent; skip_reason; email_recipient] →
  files w !! _jobs_path self = Some contents →
  reads contents →
  Csv.reader contents = columns :: recs →
  let rows := DictReader.read_all contents in
  let idx := Z.to_nat (row_number - 2) in
  (0 ≤ row_number - 2 < Z.of_nat (length rows))%Z →
  ∃ w' contents' recs',
    update_scraped_job_status columns self row_number email_sent skip_reason
      email_recipient w = (Ok tt, w')
    ∧ files w' = <[_jobs_path self := contents']> (files w)
    ∧ heap w' = heap w
    ∧ reads contents'
    ∧ Csv.reader contents' = columns :: recs'
    ∧ length (DictReader.read_all contents') = length rows
    ∧ ∀ j row, rows !! j = Some row →
        ∃ row', DictReader.read_all contents' !! j = Some row'
          ∧ ∀ key, key ∈ columns →
              (j = idx → ∀ v,
                 status_of email_sent skip_reason email_recipient key = Some v →
                 items row' !! key = Some (Str v))
              ∧ (j ≠ idx
                 ∨ status_of email_sent skip_reason email_recipient key = None →
                 (∀ v, items row !! key = Some (Str v) →
                       items row' !! key = Some (Str v))
                 ∧ (items row !! key = Some PyNone →
                    items row' !! key = Some (Str EmptyString))).
Proof.
  intros Hne Hcols Hstatus Hfile Hreads Hreader rows idx Hin.
  destruct (update_in_range_rows columns self row_number email_sent skip_reason
              email_recipient w contents Hne Hfile Hreads Hin)
    as (w' & contents' & recs' & Hrun & Hfiles & Hheap & Hreader' & Hrows' & Hreads').
  exists w', contents', recs'. do 3 (split; [done|]).
  split; [by apply Hreads'|]. split; [done|].
  rewrite Hrows'. fold rows idx. split; [by rewrite length_fmap, length_alter|].
  intros j row Hj. rewrite list_lookup_fmap.
  destruct (decide (j = idx)) as [->|Hne'].
  - rewrite list_lookup_alter_eq, Hj. simpl. eexists. split; [done|].
    intros key Hkey. rewrite read_back_lookup, decide_True by done.
    rewrite dict_get_set_status. split.
    + intros _ v ->. done.
    + intros [?|Hnone]; [done|]. rewrite Hnone. unfold dict_get.
      split; [intros v ->|intros ->]; done.
  - rewrite list_lookup_alter_ne, Hj by done. simpl. eexists. split; [done|].
    intros key Hkey. rewrite read_back_lookup, decide_True by done.
    split; [done|]. intros _. unfold dict_get.
    split; [intros v ->|intros ->]; done.
Qed.

(** C9, as the specification has it, fails where it says that the
    addressed row is the only one whose fields under the schema change. The
    job file below has a row with a surplus field (row 3) and a row with
    only its first field (row 4). The update of row 2 drops the surplus
    field of row 3, and it also changes row 4, which it does not address:
    the [skip_reason] of row 4 was [None] and is the empty string
    afterwards. *)
Lemma update_changes_short_row :
  let before :=
    file_text job_columns
      [["Developer"; "2"; "Pending"; EmptyString; EmptyString];
       ["Analyst"; "3"; "Sent"; EmptyString; "hr@example.org"; "surplus"];
       ["Tester"]] in
  let w := world {[ _jobs_path backend := before ]} in
  let w' := (update_scraped_job_status job_columns backend 2 "Sent" "none"
               "hr@example.org" w).2 in
  let row (j : nat) (contents : string) : option PyDict :=
    DictReader.to_list contents ≫= λ rows : list PyDict, rows !! j in
  (rest <$> row 1 before) = Some (Some ["surplus"])
  ∧ (rest <$> (files w' !! _jobs_path backend ≫= row 1)) = Some None
  ∧ (row 2 before ≫= λ d : PyDict, items d !! "skip_reason") = Some PyNone
  ∧ ((files w' !! _jobs_path backend ≫= row 2)
       ≫= λ d : PyDict, items d !! "skip_reason")
    = Some (Str EmptyString).
Proof. repeat split; vm_compute; reflexivity. Qed.

(** C9, amended. An update in range, on a job file that the csv reader gets
    through and whose header is the schema, writes every row back with the
    columns of the schema and nothing else: after it, every row of the job
    file has exactly the schema's keys and no surplus fields. A row that had
    surplus fields (a line longer than the header) has lost them, also when
    it is not the row the update addresses, and its fields under the schema
    are as before. In every row that is not addressed a field under the
    schema keeps its string; but a field that a short line did not have
    (read as [None]) is the empty string afterwards, so the addressed row
    is not the only one that changes under the schema. The column names and
    the new values are within the reader's limit, so that the file reads
    back. *)
Theorem update_drops_surplus_fields (columns : list string) (self : CsvBackend)
    (row_number : Z) (email_sent skip_reason email_recipient : string)
    (w : World) (contents : string) (recs : list (list string)) :
  columns ≠ [] → fit columns →
  fit [email_sent; skip_reason; email_recipient] →
  files w !! _jobs_path self = Some contents →
  reads contents →
  Csv.reader contents = columns :: recs →
  let rows := DictReader.read_all contents in
  let idx := Z.to_nat (row_number - 2) in
  (0 ≤ row_number - 2 < Z.of_nat (length rows))%Z →
  ∃ w' contents',
    update_scraped_job_status columns self row_number email_sent skip_reason
      email_recipient w = (Ok tt, w')
    ∧ files w' !! _jobs_path self = Some contents'
    ∧ reads contents'
    ∧ (∀ j row', DictReader.read_all contents' !! j = Some row' →
         rest row' = None
         ∧ ∀ key, is_Some (items row' !! key) ↔ key ∈ columns)
    ∧ (∀ j row, rows !! j = Some row →
         ∃ row', DictReader.read_all contents' !! j = Some row'
           ∧ rest row' = None
           ∧ (j ≠ idx → ∀ key, key ∈ columns →
                (∀ v, items row !! key = Some (Str v) →
                      items row' !! key = Some (Str v))
                ∧ (items row !! key = Some PyNone →
                   items row' !! key = Some (Str EmptyString)))
           ∧ (j ≠ idx → is_Some (rest row) → ∀ key, key ∈ columns →
                items row' !! key = items row !! key)).
Proof.
  intros Hne Hcols Hstatus Hfile Hreads Hreader rows idx Hin.
  destruct (update_in_range_rows columns self row_number email_sent skip_reason
              email_recipient w contents Hne Hfile Hreads Hin)
    as (w' & contents' & recs' & Hrun & Hfiles & Hheap & Hreader' & Hrows' & Hreads').
  exists w', contents'. split; [done|].
  split; [by rewrite Hfiles, lookup_insert_eq|]. split; [by apply Hreads'|].
  rewrite Hrows'. fold rows idx. split.
  - intros j row'. rewrite list_lookup_fmap.
    destruct (alter _ idx rows !! j) as [d|]; [|done]. intros [= <-].
    split; [apply read_back_rest|apply read_back_keys].
  - intros j row Hj. rewrite list_lookup_fmap.
    destruct (decide (j = idx)) as [->|Hne'].
    + rewrite list_lookup_alter_eq, Hj. simpl. eexists.
      split; [done|]. split; [apply read_back_rest|done].
    + rewrite list_lookup_alter_ne, Hj by done. simpl. eexists.
      split; [done|]. split; [apply read_back_rest|]. split.
      * intros _ key Hkey. rewrite read_back_lookup, decide_True by done.
        unfold dict_get. split; [intros v ->|intros ->]; done.
      * intros _ Hrest key Hkey.
        rewrite read_back_lookup, decide_True by done.
        unfold rows, DictReader.read_all in Hj. rewrite Hreader in Hj.
        rewrite list_lookup_fmap in Hj.
        destruct (filter _ recs !! j) as [rec|]; [|done]. injection Hj as <-.
        apply row_to_dict_rest in Hrest.
        destruct (row_to_dict_full columns rec key) as [v Hv]; [lia|done|].
        unfold dict_get. by rewrite Hv.
Qed.

Lemma round_trip_read_back (columns : list string) (d : PyDict) :
  round_trip columns d (read_back columns d).
Proof.
  assert (∀ key v, key ∈ columns → items d !! key = Some (Str v) →
    items (read_back columns d) !! key = Some (Str v)) as Hstr.
  { intros key v Hkey Hd. rewrite read_back_lookup, decide_True by done.
    unfold dict_get. by rewrite Hd. }
  split; [apply read_back_rest|]. split; [|split; [done|split]].
  - intros Hpop key Hkey. destruct (Hpop key Hkey) as [v Hv].
    rewrite Hv. by apply Hstr.
  - intros key Hkey Hd. rewrite read_back_lookup, decide_True by done.
    unfold dict_get. by rewrite Hd.
  - intros key Hkey. by rewrite read_back_lookup, decide_False.
Qed.

Lemma store_file_contents path columns w :
  store_file columns (files w !! path) →
  ∃ recs, contents_of path columns w = file_text columns recs.
Proof.
  unfold contents_of. intros [->|[recs ->]]; simpl; [|eauto].
  exists []. by rewrite file_text_nil.
Qed.

Lemma readable_file_contents path columns w :
  readable_file columns (files w !! path) →
  ∃ recs, contents_of path columns w = file_text columns recs ∧ Forall fit recs.
Proof.
  unfold contents_of. intros [->|(recs & -> & Hrecs)]; simpl; [|eauto].
  exists []. by rewrite file_text_nil.
Qed.

Lemma fit_snoc (recs : list (list string)) (columns : list string) (ds : list PyDict) :
  Forall fit recs → Forall (readable columns) ds →
  Forall fit (recs ++ (stored_row columns <$> ds)).
Proof. intros Hr Hd. apply Forall_app. split; [done|]. by apply Forall_fmap. Qed.

Lemma read_all_file_text_app (columns : list string) (recs : list (list string))
    (ds : list PyDict) :
  columns ≠ [] →
  DictReader.read_all (file_text columns (recs ++ (stored_row columns <$> ds)))
  = DictReader.read_all (file_text columns recs) ++ (read_back columns <$> ds).
Proof.
  intros Hne. rewrite !read_all_file_text, list.filter_app, fmap_app.
  rewrite filter_stored_rows by done. unfold read_back.
  by rewrite <-list_fmap_compose.
Qed.

(** Reading a file of the store after rows were appended: the rows that
    were there, then the new ones as they read back. *)
Lemma read_after_append (columns : list string) (recs : list (list string))
    (ds : list PyDict) :
  columns ≠ [] → fit columns → Forall fit recs → Forall (readable columns) ds →
  read_result (file_text columns recs +:+ Csv.writerows (stored_row columns <$> ds))
  = Ok (DictReader.read_all (file_text columns recs) ++ (read_back columns <$> ds)).
Proof.
  intros Hne Hcols Hrecs Hds.
  rewrite file_text_app, read_result_file_text; [|done|by apply fit_snoc].
  by rewrite read_all_file_text_app.
Qed.

Lemma stored_row_email (f : string) :
  stored_row sent_columns (record [("email", f); ("date_sent", "2024-01-02")])
  = [f; "2024-01-02"].
Proof. reflexivity. Qed.

Lemma record_email (f : string) :
  items (record [("email", f); ("date_sent", "2024-01-02")]) !! "email"
  = Some (Str f).
Proof. reflexivity. Qed.

Lemma populated_email (f : string) :
  populated sent_columns (record [("email", f); ("date_sent", "2024-01-02")]).
Proof.
  intros key Hkey. apply list_elem_of_In in Hkey. simpl in Hkey.
  destruct Hkey as [<-|[<-|[]]]; eexists; reflexivity.
Qed.

Lemma add_sent_email_run columns self (record : PyDict) w :
  add_sent_email columns self record w
  = (Ok tt,
     put_log DEBUG ("Recorded sent email: "
                    +:+ format_value (dict_get record "email" (Str "?")))
       (put_file (_sent_path self)
          (contents_of (_sent_path self) columns w
           +:+ Csv.writerows [stored_row columns record])
          (ensured (_sent_path self) columns w))).
Proof.
  unfold add_sent_email. unfold_monad. by rewrite _append_rows_run.
Qed.

Lemma add_run_stats_run columns self (stats : PyDict) w :
  add_run_stats columns self stats w
  = (Ok tt,
     put_log INFO ("Saved run stats for "
                   +:+ format_value (dict_get stats "date" (Str "?")))
       (put_file (_stats_path self)
          (contents_of (_stats_path self) columns w
           +:+ Csv.writerows [stored_row columns stats])
          (ensured (_stats_path self) columns w))).
Proof.
  unfold add_run_stats. unfold_monad. by rewrite _append_rows_run.
Qed.

Lemma add_then_get_unreadable columns self (d : PyDict) w :
  DictReader.to_list
    (contents_of (_sent_path self) columns w
     +:+ Csv.writerows [stored_row columns d]) = None →
  ((add_sent_email columns self d;; get_sent_emails columns self) w).1
  = Raised CsvError.
Proof.
  intros Hread. unfold_monad. rewrite add_sent_email_run.
  unfold get_sent_emails. rewrite _read_csv_run. cbn [fst].
  erewrite contents_of_lookup by apply put_file_lookup.
  by apply read_result_raised.
Qed.

Lemma long_record_unreadable :
  DictReader.to_list
    (contents_of (_sent_path backend) sent_columns new_world
     +:+ Csv.writerows [stored_row sent_columns long_record]) = None.
Proof.
  unfold long_record. rewrite (stored_row_email long_field).
  exact long_sent_unreadable.
Qed.

(** C7, as the specification has it, fails for a record with a field over
    the reader's limit, which the writer does not have: the record below
    has a string under every column of the schema, its address of 131073
    characters; [add_sent_email] writes it, and [get_sent_emails] then
    raises [csv.Error] instead of giving the record back. *)
Lemma write_then_read_raises :
  populated sent_columns long_record
  ∧ items long_record !! "email" = Some (Str long_field)
  ∧ N.of_nat (String.length long_field) = 131073%N
  ∧ ((add_sent_email sent_columns backend long_record;;
      get_sent_emails sent_columns backend) new_world).1 = Raised CsvError.
Proof.
  split; [apply (populated_email long_field)|].
  split; [apply (record_email long_field)|].
  split; [apply long_field_length|].
  apply (add_then_get_unreadable sent_columns backend long_record new_world).
  apply long_record_unreadable.
Qed.

(** C7, amended. Write, then read, without a field over the reader's limit
    of 131072 characters: not in the names of the columns, not in the file
    as it is, not in the record. On such files of the store, a record
    appended with [add_sent_email], [add_scraped_jobs] or [add_run_stats] is
    the last row that [get_sent_emails], [_read_csv] on the job file or
    [get_run_stats] return afterwards, and that row has no surplus fields
    and exactly the schema's keys: under a column for which the record has a
    string, the same string (so a record that populates every column reads
    back the same, column by column); under a column the record does not
    have, the empty string; and no key that is not a column. For a job the
    record compared is the caller's object after the call, in which
    [add_scraped_jobs] has set [row_number]; its other fields are as the
    caller had them. *)
Theorem write_then_read (SENT_EMAIL_COLUMNS SCRAPED_JOB_COLUMNS RUN_STATS_COLUMNS
    : list string) (self : CsvBackend) (w : World) (record stats : PyDict)
    (job : nat) :
  SENT_EMAIL_COLUMNS ≠ [] → SCRAPED_JOB_COLUMNS ≠ [] → RUN_STATS_COLUMNS ≠ [] →
  fit SENT_EMAIL_COLUMNS → fit SCRAPED_JOB_COLUMNS → fit RUN_STATS_COLUMNS →
  readable_file SENT_EMAIL_COLUMNS (files w !! _sent_path self) →
  readable_file SCRAPED_JOB_COLUMNS (files w !! _jobs_path self) →
  readable_file RUN_STATS_COLUMNS (files w !! _stats_path self) →
  readable SENT_EMAIL_COLUMNS record →
  readable_numbered SCRAPED_JOB_COLUMNS (heap w)
    (Z.of_nat (Text.count_lines
                 (contents_of (_jobs_path self) SCRAPED_JOB_COLUMNS w)) + 1)
    [job] →
  readable RUN_STATS_COLUMNS stats →
  (∃ rows r w',
     (add_sent_email SENT_EMAIL_COLUMNS self record;;
      get_sent_emails SENT_EMAIL_COLUMNS self) w = (Ok (rows ++ [r]), w')
     ∧ round_trip SENT_EMAIL_COLUMNS record r)
  ∧ (∃ rows r w',
       (add_scraped_jobs SCRAPED_JOB_COLUMNS self [job];;
        _read_csv (_jobs_path self) SCRAPED_JOB_COLUMNS) w = (Ok (rows ++ [r]), w')
       ∧ round_trip SCRAPED_JOB_COLUMNS (heap w' job) r
       ∧ ∀ key, key ≠ "row_number" →
           items (heap w' job) !! key = items (heap w job) !! key)
  ∧ (∃ rows r w',
       (add_run_stats RUN_STATS_COLUMNS self stats;;
        get_run_stats RUN_STATS_COLUMNS self) w = (Ok (rows ++ [r]), w')
       ∧ round_trip RUN_STATS_COLUMNS stats r).
Proof.
  intros Hsent Hjobs Hstats Lsent Ljobs Lstats Fsent Fjobs Fstats
    Rrecord Rjob Rstats.
  split; [|split].
  - destruct (readable_file_contents _ _ _ Fsent) as (recs & Hw & Hrecs).
    eexists _, _, _. split; [|apply round_trip_read_back].
    unfold_monad. rewrite add_sent_email_run. unfold get_sent_emails.
    rewrite _read_csv_run.
    erewrite contents_of_lookup by apply put_file_lookup. rewrite Hw.
    change [stored_row SENT_EMAIL_COLUMNS record]
      with (stored_row SENT_EMAIL_COLUMNS <$> [record]).
    rewrite read_after_append by (done || by repeat constructor). done.
  - destruct (readable_file_contents _ _ _ Fjobs) as (recs & Hw & Hrecs).
    pose proof (add_scraped_jobs_run SCRAPED_JOB_COLUMNS self [job] w) as Hrun.
    cbv zeta in Hrun. specialize (Hrun ltac:(done)).
    specialize (Rjob 0 job eq_refl). rewrite Hw in Hrun, Rjob.
    eexists _, _, _. split; [|split].
    + unfold_monad. rewrite Hrun. rewrite _read_csv_run.
      erewrite contents_of_lookup by apply put_file_lookup.
      erewrite ensured_exists by apply put_file_lookup.
      rewrite read_after_append; [done..|].
      constructor; [|constructor]. unfold number_records, enumerate. simpl.
      rewrite fn_lookup_insert. exact Rjob.
    + simpl. apply round_trip_read_back.
    + intros key Hkey. simpl. unfold number_records. simpl.
      rewrite fn_lookup_insert. simpl. by rewrite lookup_insert_ne.
  - destruct (readable_file_contents _ _ _ Fstats) as (recs & Hw & Hrecs).
    eexists _, _, _. split; [|apply round_trip_read_back].
    unfold_monad. rewrite add_run_stats_run. unfold get_run_stats.
    rewrite _read_csv_run.
    erewrite contents_of_lookup by apply put_file_lookup. rewrite Hw.
    change [stored_row RUN_STATS_COLUMNS stats]
      with (stored_row RUN_STATS_COLUMNS <$> [stats]).
    rewrite read_after_append by (done || by repeat constructor). done.
Qed.

(** * The properties at the example data *)

Lemma job_contents_reads : reads job_contents.
Proof. vm_compute. eexists. reflexivity. Qed.

Lemma sent_contents_reads : reads sent_contents.
Proof. vm_compute. eexists. reflexivity. Qed.

Lemma job_rows_fit : Forall fit job_rows.
Proof. repeat constructor. Qed.

Lemma sent_rows_fit : Forall fit sent_rows.
Proof. repeat constructor. Qed.

(** C3 at the example job file: row 999 of a file with two data rows. *)
Lemma update_out_of_range_noop_witness :
  ∃ w', update_scraped_job_status job_columns backend 999 "Sent" "none"
          "hr@example.org" job_world = (Ok tt, w')
    ∧ files w' = files job_world
    ∧ logs w' = [mkLog WARNING "CSV row 999 out of range (2 rows), skipping update"].
Proof.
  destruct (update_out_of_range_noop job_columns backend 999 "Sent" "none"
              "hr@example.org" job_world job_contents)
    as (w' & Hrun & Hfiles & _ & Hlogs).
  - reflexivity.
  - exact job_contents_reads.
  - intros [_ H]. vm_compute in H. discriminate.
  - exists w'. split; [exact Hrun|]. split; [exact Hfiles|]. exact Hlogs.
Defined.


(** C4 at the example job file: the one pending job is the row at index 0. *)
Lemma get_pending_jobs_spec_witness :
  ∃ job, get_pending_jobs job_columns backend job_world = (Ok [job], job_world)
    ∧ items job !! "title" = Some (Str "Developer")
    ∧ items job !! "row_number" = Some (Str "2").
Proof.
  eexists. split.
  - rewrite (get_pending_jobs_spec job_columns backend job_world job_contents);
      [|reflexivity|exact job_contents_reads].
    vm_compute. reflexivity.
  - split; vm_compute; reflexivity.
Defined.

(** C6 at the example sent-email file, on 2024-01-02: two of four rows. *)
Lemma get_today_sent_emails_count_spec_witness :
  get_today_sent_emails_count sent_columns backend sent_world = (Ok 2%Z, sent_world).
Proof.
  destruct (get_today_sent_emails_count_spec sent_columns backend sent_world
              sent_contents) as [Hrun _].
  - reflexivity.
  - exact sent_contents_reads.
  - rewrite Hrun. vm_compute. reflexivity.
Defined.

(** C8 at the example job file, whose header is the schema. *)
Lemma read_csv_spec_witness :
  ∃ rows, _read_csv (_jobs_path backend) job_columns job_world = (Ok rows, job_world)
    ∧ length rows = 2.
Proof.
  destruct (read_csv_spec (_jobs_path backend) job_columns job_world job_contents)
    as [Hrows _].
  - reflexivity.
  - exact job_contents_reads.
  - destruct (Hrows job_columns job_rows) as [Hrun _].
    + vm_compute. reflexivity.
    + eexists. split; [exact Hrun|]. vm_compute. reflexivity.
Defined.

(** C5 for two calls with one row each on a new file: the third call
    returns 4. *)
Lemma append_rows_start_row_witness :
  ∃ w1 w2,
    append_batches "data/f.csv" job_columns [[caller_heap 0]; [caller_heap 1]]
      new_world = (Ok tt, w1)
    ∧ _append_rows "data/f.csv" job_columns [] w1 = (Ok 4%Z, w2).
Proof.
  destruct (append_rows_start_row "data/f.csv" job_columns
              [[caller_heap 0]; [caller_heap 1]] [] new_world)
    as (_ & w1 & w2 & Hrun1 & Hrun2).
  - vm_compute. reflexivity.
  - left. reflexivity.
  - repeat constructor.
  - exists w1, w2. split; [exact Hrun1|exact Hrun2].
Defined.


(** C2 at the example job file: row 2 is updated and keeps its title, and
    the file reads back. *)
Lemma update_in_range_spec_witness :
  ∃ w' contents' row',
    update_scraped_job_status job_columns backend 2 "Sent" "none"
      "hr@example.org" job_world = (Ok tt, w')
    ∧ files w' = {[ _jobs_path backend := contents' ]}
    ∧ reads contents'
    ∧ DictReader.read_all contents' !! 0 = Some row'
    ∧ items row' !! "email_sent" = Some (Str "Sent")
    ∧ items row' !! "title" = Some (Str "Developer").
Proof.
  destruct (update_in_range_spec job_columns backend 2 "Sent" "none"
              "hr@example.org" job_world job_contents job_rows)
    as (w' & contents' & recs' & Hrun & Hfiles & _ & Hreads & _ & _ & Hrows).
  - discriminate.
  - reflexivity.
  - reflexivity.
  - reflexivity.
  - exact job_contents_reads.
  - vm_compute. reflexivity.
  - split; vm_compute; [discriminate|reflexivity].
  - destruct (Hrows 0 (DictReader.row_to_dict job_columns
        ["Developer"; "2"; "Pending"; EmptyString; EmptyString]))
      as (row' & Hrow' & Hkeys); [vm_compute; reflexivity|].
    exists w', contents', row'. split; [exact Hrun|]. split.
    { rewrite Hfiles. vm_compute. reflexivity. }
    split; [exact Hreads|]. split; [exact Hrow'|]. split.
    + destruct (Hkeys "email_sent") as [Hset _]; [compute_done|].
      apply Hset; reflexivity.
    + destruct (Hkeys "title") as [_ Hkeep]; [compute_done|].
      destruct Hkeep as [Hstr _]; [right; reflexivity|].
      apply Hstr. vm_compute. reflexivity.
Defined.

(** C9 at the example job file: row 3 has a surplus field, which the update
    of row 2 drops. *)
Lemma update_drops_surplus_fields_witness :
  rest <$> DictReader.read_all job_contents !! 1 = Some (Some ["surplus"])
  ∧ ∃ w' contents' row',
      update_scraped_job_status job_columns backend 2 "Sent" "none"
        "hr@example.org" job_world = (Ok tt, w')
      ∧ files w' !! _jobs_path backend = Some contents'
      ∧ reads contents'
      ∧ DictReader.read_all contents' !! 1 = Some row'
      ∧ rest row' = None
      ∧ items row' !! "email_recipient" = Some (Str "hr@example.org").
Proof.
  split; [vm_compute; reflexivity|].
  destruct (update_drops_surplus_fields job_columns backend 2 "Sent" "none"
              "hr@example.org" job_world job_contents job_rows)
    as (w' & contents' & Hrun & Hfile & Hreads & _ & Hrows).
  - discriminate.
  - reflexivity.
  - reflexivity.
  - reflexivity.
  - exact job_contents_reads.
  - vm_compute. reflexivity.
  - split; vm_compute; [discriminate|reflexivity].
  - destruct (Hrows 1 (DictReader.row_to_dict job_columns
        ["Analyst"; "3"; "Sent"; EmptyString; "hr@example.org"; "surplus"]))
      as (row' & Hrow' & Hrest & _ & Hsame); [vm_compute; reflexivity|].
    exists w', contents', row'. do 5 (split; [done|]).
    rewrite Hsame; [vm_compute; reflexivity|done|eexists; reflexivity|compute_done].
Defined.

(** C7 for a sent-email record appended to the example file. *)
Lemma write_then_read_witness :
  ∃ rows r w',
    (add_sent_email sent_columns backend
       (record [("email", "e@example.org"); ("date_sent", "2024-01-02")]);;
     get_sent_emails sent_columns backend) sent_world = (Ok (rows ++ [r]), w')
    ∧ items r !! "email" = Some (Str "e@example.org")
    ∧ items r !! "date_sent" = Some (Str "2024-01-02").
Proof.
  destruct (write_then_read sent_columns job_columns stats_columns backend
              sent_world
              (record [("email", "e@example.org"); ("date_sent", "2024-01-02")])
              (record [("date", "2024-01-02"); ("total", "5")]) 0)
    as ((rows & r & w' & Hrun & Hrt) & _).
  - discriminate.
  - discriminate.
  - discriminate.
  - reflexivity.
  - reflexivity.
  - reflexivity.
  - right. exists sent_rows. split; [reflexivity|exact sent_rows_fit].
  - left. reflexivity.
  - left. reflexivity.
  - vm_compute. reflexivity.
  - intros i a Hi. destruct i; [|discriminate Hi]. injection Hi as <-.
    vm_compute. reflexivity.
  - vm_compute. reflexivity.
  - destruct Hrt as (_ & _ & Hstr & _).
    exists rows, r, w'. split; [exact Hrun|].
    split; apply Hstr; solve [compute_done | vm_compute; reflexivity].
Defined.
(** * Further properties of the backend *)

Lemma add_scraped_jobs_nil_run columns self w :
  add_scraped_jobs columns self [] w = _get_next_row_number columns self w.
Proof. reflexivity. Qed.

(** The world after an update: in range, out of range, or with a file that
    the reader does not get through. *)
Lemma update_run columns self row_number e s r w :
  let w' := (update_scraped_job_status columns self row_number e s r w).2 in
  today w' = today w ∧ heap w' = heap w
  ∧ ∀ path, path ≠ _jobs_path self → files w' !! path = files w !! path.
Proof.
  destruct (DictReader.to_list (contents_of (_jobs_path self) columns w))
    as [rows|] eqn:Hread.
  - destruct (decide (0 ≤ row_number - 2 < Z.of_nat (length rows))%Z) as [Hin|Hout].
    + destruct (lookup_lt_is_Some_2 rows (Z.to_nat (row_number - 2)))
        as [row Hrow]; [lia|].
      erewrite update_run_in_range by done. simpl.
      rewrite ensured_today, ensured_heap. do 2 (split; [done|]).
      intros path Hne. rewrite lookup_insert_ne by done.
      by apply ensured_lookup_ne.
    + erewrite update_run_out_of_range by done. simpl.
      rewrite ensured_today, ensured_heap. do 2 (split; [done|]).
      intros path Hne. by apply ensured_lookup_ne.
  - rewrite update_run_unreadable by done. simpl.
    rewrite ensured_today, ensured_heap. do 2 (split; [done|]).
    intros path Hne. by apply ensured_lookup_ne.
Qed.



(** X1. [_ensure_csv] is idempotent: a second call changes nothing, and a
    call on a file that exists changes nothing at all (no write, no log
    line). On a path without a file it writes one record, the column names,
    and logs the creation. *)
Theorem ensure_csv_idempotent (path : string) (columns : list string) (w : World) :
  (_ensure_csv path columns;; _ensure_csv path columns) w = _ensure_csv path columns w
  ∧ (∀ contents, files w !! path = Some contents →
       _ensure_csv path columns w = (Ok tt, w))
  ∧ (files w !! path = None →
       ∃ w', _ensure_csv path columns w = (Ok tt, w')
         ∧ files w' = <[path := Csv.writerow columns]> (files w)
         ∧ Csv.reader (Csv.writerow columns) = [columns]
         ∧ logs w' = logs w ++ [mkLog INFO ("Created CSV file: " +:+ path)]).
Proof.
  split; [|split].
  - unfold_monad. by rewrite !_ensure_csv_run, ensured_idem.
  - intros contents Hfile. by rewrite _ensure_csv_run, (ensured_exists _ _ _ _ Hfile).
  - intros Hfile. eexists. split; [apply _ensure_csv_run|].
    unfold ensured. rewrite Hfile. simpl. split; [done|].
    split; [|done]. by rewrite <-file_text_nil, reader_file_text.
Qed.

(** X2. On files that exist, the queries are pure: [get_sent_emails],
    [get_pending_jobs], [get_run_stats], [get_today_sent_emails_count],
    [_get_next_row_number] and [add_scraped_jobs] on an empty list leave the
    files, the caller's records and the log exactly as they were. *)
Theorem queries_leave_world (SENT_EMAIL_COLUMNS SCRAPED_JOB_COLUMNS
    RUN_STATS_COLUMNS : list string) (self : CsvBackend) (w : World) :
  is_Some (files w !! _sent_path self) →
  is_Some (files w !! _jobs_path self) →
  is_Some (files w !! _stats_path self) →
  (get_sent_emails SENT_EMAIL_COLUMNS self w).2 = w
  ∧ (get_pending_jobs SCRAPED_JOB_COLUMNS self w).2 = w
  ∧ (get_run_stats RUN_STATS_COLUMNS self w).2 = w
  ∧ (get_today_sent_emails_count SENT_EMAIL_COLUMNS self w).2 = w
  ∧ (_get_next_row_number SCRAPED_JOB_COLUMNS self w).2 = w
  ∧ (add_scraped_jobs SCRAPED_JOB_COLUMNS self [] w).2 = w.
Proof.
  intros [cs Hs] [cj Hj] [ct Ht].
  unfold get_sent_emails, get_run_stats.
  rewrite add_scraped_jobs_nil_run, !_read_csv_run, get_pending_jobs_run,
    get_today_sent_emails_count_run, _get_next_row_number_run. cbn [snd].
  by rewrite (ensured_exists _ _ _ _ Hs), (ensured_exists _ _ _ _ Hj),
    (ensured_exists _ _ _ _ Ht).
Qed.

(** X3. On a path without a file every query first creates the file with
    its header, and then finds no rows: the lists are empty, the count of
    today's emails is 0, and the next row number is one more than the lines
    of the header. (The names of the columns are within the limit of the
    csv reader, so that the header reads back.) *)
Theorem queries_on_missing_files (SENT_EMAIL_COLUMNS SCRAPED_JOB_COLUMNS
    RUN_STATS_COLUMNS : list string) (self : CsvBackend) (w : World) :
  fit SENT_EMAIL_COLUMNS → fit SCRAPED_JOB_COLUMNS → fit RUN_STATS_COLUMNS →
  files w !! _sent_path self = None →
  files w !! _jobs_path self = None →
  files w !! _stats_path self = None →
  let created path columns :=
    mkWorld (<[path := Csv.writerow columns]> (files w)) (heap w) (today w)
            (logs w ++ [mkLog INFO ("Created CSV file: " +:+ path)]) in
  get_sent_emails SENT_EMAIL_COLUMNS self w
    = (Ok [], created (_sent_path self) SENT_EMAIL_COLUMNS)
  ∧ get_pending_jobs SCRAPED_JOB_COLUMNS self w
    = (Ok [], created (_jobs_path self) SCRAPED_JOB_COLUMNS)
  ∧ get_run_stats RUN_STATS_COLUMNS self w
    = (Ok [], created (_stats_path self) RUN_STATS_COLUMNS)
  ∧ get_today_sent_emails_count SENT_EMAIL_COLUMNS self w
    = (Ok 0%Z, created (_sent_path self) SENT_EMAIL_COLUMNS)
  ∧ _get_next_row_number SCRAPED_JOB_COLUMNS self w
    = (Ok (Z.of_nat (Text.count_lines (Csv.writerow SCRAPED_JOB_COLUMNS)) + 1)%Z,
       created (_jobs_path self) SCRAPED_JOB_COLUMNS).
Proof.
  intros Ls Lj Lt Hs Hj Ht created.
  assert (∀ columns, fit columns → read_result (Csv.writerow columns) = Ok [])
    as Hrows.
  { intros columns Hc. by apply read_result_ok, to_list_header. }
  unfold get_sent_emails, get_run_stats.
  rewrite !_read_csv_run, get_pending_jobs_run,
    get_today_sent_emails_count_run, _get_next_row_number_run.
  unfold contents_of, ensured, created. rewrite Hs, Hj, Ht. simpl.
  by rewrite !Hrows.
Qed.


(** X17. A file that the csv reader does not get through (a field of more
    than 131072 characters) makes every operation that reads it raise
    [csv.Error], and nothing is written: the world is as before. *)
Theorem unreadable_file_raises (SENT_EMAIL_COLUMNS SCRAPED_JOB_COLUMNS
    RUN_STATS_COLUMNS : list string) (self : CsvBackend) (w : World)
    (row_number : Z) (email_sent skip_reason email_recipient : string) :
  let unreadable path :=
    ∃ contents, files w !! path = Some contents
                ∧ DictReader.to_list contents = None in
  (unreadable (_sent_path self) →
   get_sent_emails SENT_EMAIL_COLUMNS self w = (Raised CsvError, w)
   ∧ get_today_sent_emails_count SENT_EMAIL_COLUMNS self w = (Raised CsvError, w))
  ∧ (unreadable (_jobs_path self) →
     update_scraped_job_status SCRAPED_JOB_COLUMNS self row_number email_sent
       skip_reason email_recipient w = (Raised CsvError, w)
     ∧ get_pending_jobs SCRAPED_JOB_COLUMNS self w = (Raised CsvError, w))
  ∧ (unreadable (_stats_path self) →
     get_run_stats RUN_STATS_COLUMNS self w = (Raised CsvError, w)).
Proof.
  intros unreadable.
  unfold get_sent_emails, get_run_stats.
  rewrite !_read_csv_run, get_pending_jobs_run, get_today_sent_emails_count_run.
  split; [|split]; intros (contents & Hfile & Hread).
  - rewrite (ensured_exists _ _ _ _ Hfile), (contents_of_lookup _ _ _ _ Hfile).
    by rewrite (read_result_raised _ Hread).
  - rewrite update_run_unreadable
      by by rewrite (contents_of_lookup _ _ _ _ Hfile).
    rewrite (ensured_exists _ _ _ _ Hfile), (contents_of_lookup _ _ _ _ Hfile).
    by rewrite (read_result_raised _ Hread).
  - rewrite (ensured_exists _ _ _ _ Hfile), (contents_of_lookup _ _ _ _ Hfile).
    by rewrite (read_result_raised _ Hread).
Qed.

(** *** The paths of the backend *)

Lemma join_snoc (ps : list string) (name : string) :
  Pathlib.join (ps ++ [name])
  = foldr (λ p rest, p +:+ String Pathlib.SEP rest) name ps.
Proof.
  induction ps as [|p ps IH]; [done|].
  simpl. rewrite <-IH. by destruct (ps ++ [name]) eqn:E; [destruct ps|].
Qed.

(** The string of a path joined with a plain file name: the root, the
    components with a slash after each, and the file name. *)
Lemma str_truediv (base : Pathlib.Path) (name : string) :
  Pathlib.parse name = Pathlib.mkPath EmptyString [name] →
  Pathlib.str (Pathlib.truediv base name)
  = Pathlib.root base
    +:+ foldr (λ p rest, p +:+ String Pathlib.SEP rest) name (Pathlib.parts base).
Proof.
  intros Hname. unfold Pathlib.truediv. rewrite Hname. simpl.
  unfold Pathlib.str. simpl. rewrite <-join_snoc.
  destruct (Pathlib.root base); [|done].
  by destruct (Pathlib.parts base).
Qed.

Lemma str_truediv_inj (base : Pathlib.Path) (name name' : string) :
  Pathlib.parse name = Pathlib.mkPath EmptyString [name] →
  Pathlib.parse name' = Pathlib.mkPath EmptyString [name'] →
  Pathlib.str (Pathlib.truediv base name) = Pathlib.str (Pathlib.truediv base name') →
  name = name'.
Proof.
  intros Hn Hn'. rewrite !str_truediv by done.
  intros H%(inj (String.app (Pathlib.root base))).
  induction (Pathlib.parts base) as [|p ps IH]; [done|].
  simpl in H. apply (inj (String.app p)) in H. injection H as H. auto.
Qed.

(** X5. Each operation touches its own file only. The three paths of a
    backend made by [__init__] differ, whatever the base directory (they
    are the base path with three different file names joined to it), and
    whatever the operation, a file under another path than the operation's
    own is as before; the clock is never changed, and the caller's records
    only by [add_scraped_jobs]. *)
Theorem operations_touch_own_file (SENT_EMAIL_COLUMNS SCRAPED_JOB_COLUMNS
    RUN_STATS_COLUMNS : list string) (self : CsvBackend) (w : World)
    (record stats : PyDict) (records : list nat) (row_number : Z)
    (email_sent skip_reason email_recipient : string) :
  (∀ base_dir, _sent_path (__init__ base_dir) ≠ _jobs_path (__init__ base_dir)
               ∧ _sent_path (__init__ base_dir) ≠ _stats_path (__init__ base_dir)
               ∧ _jobs_path (__init__ base_dir) ≠ _stats_path (__init__ base_dir))
  ∧ (let w' := (add_sent_email SENT_EMAIL_COLUMNS self record w).2 in
     heap w' = heap w
     ∧ ∀ path, path ≠ _sent_path self → files w' !! path = files w !! path)
  ∧ (let w' := (add_scraped_jobs SCRAPED_JOB_COLUMNS self records w).2 in
     ∀ path, path ≠ _jobs_path self → files w' !! path = files w !! path)
  ∧ (let w' := (update_scraped_job_status SCRAPED_JOB_COLUMNS self row_number
                  email_sent skip_reason email_recipient w).2 in
     heap w' = heap w
     ∧ ∀ path, path ≠ _jobs_path self → files w' !! path = files w !! path)
  ∧ (let w' := (add_run_stats RUN_STATS_COLUMNS self stats w).2 in
     heap w' = heap w
     ∧ ∀ path, path ≠ _stats_path self → files w' !! path = files w !! path).
Proof.
  split; [|split; [|split; [|split]]].
  - intros base_dir. unfold __init__. simpl.
    repeat split; intros H; apply str_truediv_inj in H; done.
  - rewrite add_sent_email_run. simpl. rewrite ensured_heap. split; [done|].
    intros path Hne. rewrite lookup_insert_ne by done. by apply ensured_lookup_ne.
  - destruct records as [|a records].
    + rewrite add_scraped_jobs_nil_run, _get_next_row_number_run. simpl.
      intros path Hne. by apply ensured_lookup_ne.
    + rewrite add_scraped_jobs_run by done. simpl.
      intros path Hne. rewrite lookup_insert_ne by done. by apply ensured_lookup_ne.
  - destruct (update_run SCRAPED_JOB_COLUMNS self row_number email_sent
                skip_reason email_recipient w) as (_ & Hheap & Hfiles).
    done.
  - rewrite add_run_stats_run. simpl. rewrite ensured_heap. split; [done|].
    intros path Hne. rewrite lookup_insert_ne by done. by apply ensured_lookup_ne.
Qed.

Lemma add_sent_emails_store columns self (ds : list PyDict) :
  ∀ (recs : list (list string)) w,
  contents_of (_sent_path self) columns w = file_text columns recs →
  ∃ w', add_sent_emails columns self ds w = (Ok tt, w')
    ∧ contents_of (_sent_path self) columns w'
      = file_text columns (recs ++ (stored_row columns <$> ds)).
Proof.
  induction ds as [|d ds IH]; intros recs w Hw.
  - exists w. split; [done|]. simpl. by rewrite (right_id_L [] (++)).
  - destruct (IH (recs ++ [stored_row columns d])
               (add_sent_email columns self d w).2) as (w' & Hrun & Hw').
    + rewrite add_sent_email_run. cbn [snd].
      erewrite contents_of_lookup by apply put_file_lookup.
      rewrite Hw. apply file_text_app.
    + exists w'. split.
      * unfold add_sent_emails in *. simpl. unfold_monad.
        rewrite add_sent_email_run in *. exact Hrun.
      * rewrite Hw'. simpl. by rewrite <-(assoc_L (++)).
Qed.

(** X6. Records appended one by one with [add_sent_email] to a file of the
    store come back from [get_sent_emails] after the rows that were there,
    all of them, in the order of the calls, each as it reads back: the
    record's strings under the columns, the empty string for a column it
    does not have, no other key. No field is over the reader's limit of
    131072 characters: not in the names of the columns, not in the file, not
    in the records. *)
Theorem sent_emails_in_append_order (columns : list string) (self : CsvBackend)
    (w : World) (records : list PyDict) :
  columns ≠ [] → fit columns →
  readable_file columns (files w !! _sent_path self) →
  Forall (readable columns) records →
  ∃ before new w',
    (get_sent_emails columns self w).1 = Ok before
    ∧ (add_sent_emails columns self records;; get_sent_emails columns self) w
      = (Ok (before ++ new), w')
    ∧ Forall2 (round_trip columns) records new
    ∧ (files w !! _sent_path self = None → before = []).
Proof.
  intros Hne Hcols Hstore Hrecords.
  destruct (readable_file_contents _ _ _ Hstore) as (recs & Hw & Hrecs).
  destruct (add_sent_emails_store columns self records recs w Hw)
    as (w' & Hrun & Hw').
  exists (DictReader.read_all (file_text columns recs)),
    (read_back columns <$> records), (ensured (_sent_path self) columns w').
  split; [|split; [|split]].
  - unfold get_sent_emails. by rewrite _read_csv_run, Hw, read_result_file_text.
  - unfold_monad. rewrite Hrun. unfold get_sent_emails.
    by rewrite _read_csv_run, Hw', <-file_text_app, read_after_append.
  - apply Forall2_fmap_r, Forall_Forall2_diag, Forall_forall.
    intros d _. apply round_trip_read_back.
  - intros Hnone. unfold contents_of in Hw. rewrite Hnone in Hw. simpl in Hw.
    rewrite <-Hw, <-file_text_nil. by rewrite read_all_file_text.
Qed.

(** X8. The files stay files of the store: if a file is not there yet or is
    the header and records as the writer puts them out, then after any
    operation (whether it returns or raises) it is there and is again the
    header of the same schema and records in the writer's form. The header
    is never lost or changed. *)
Theorem store_files_stay (SENT_EMAIL_COLUMNS SCRAPED_JOB_COLUMNS
    RUN_STATS_COLUMNS : list string) (self : CsvBackend) (w : World)
    (record stats : PyDict) (records : list nat) (row_number : Z)
    (email_sent skip_reason email_recipient : string) :
  store_file SENT_EMAIL_COLUMNS (files w !! _sent_path self) →
  store_file SCRAPED_JOB_COLUMNS (files w !! _jobs_path self) →
  store_file RUN_STATS_COLUMNS (files w !! _stats_path self) →
  let kept columns path (w' : World) :=
    ∃ recs, files w' !! path = Some (file_text columns recs) in
  kept SENT_EMAIL_COLUMNS (_sent_path self)
    (add_sent_email SENT_EMAIL_COLUMNS self record w).2
  ∧ kept SENT_EMAIL_COLUMNS (_sent_path self)
      (get_sent_emails SENT_EMAIL_COLUMNS self w).2
  ∧ kept SENT_EMAIL_COLUMNS (_sent_path self)
      (get_today_sent_emails_count SENT_EMAIL_COLUMNS self w).2
  ∧ kept SCRAPED_JOB_COLUMNS (_jobs_path self)
      (add_scraped_jobs SCRAPED_JOB_COLUMNS self records w).2
  ∧ kept SCRAPED_JOB_COLUMNS (_jobs_path self)
      (update_scraped_job_status SCRAPED_JOB_COLUMNS self row_number email_sent
         skip_reason email_recipient w).2
  ∧ kept SCRAPED_JOB_COLUMNS (_jobs_path self)
      (get_pending_jobs SCRAPED_JOB_COLUMNS self w).2
  ∧ kept RUN_STATS_COLUMNS (_stats_path self)
      (add_run_stats RUN_STATS_COLUMNS self stats w).2
  ∧ kept RUN_STATS_COLUMNS (_stats_path self)
      (get_run_stats RUN_STATS_COLUMNS self w).2.
Proof.
  intros Fs Fj Ft kept.
  destruct (store_file_contents _ _ _ Fs) as [rs Hs].
  destruct (store_file_contents _ _ _ Fj) as [rj Hj].
  destruct (store_file_contents _ _ _ Ft) as [rt Ht].
  assert (∀ columns path recs (w' : World),
    files w' !! path = Some (file_text columns recs) → kept columns path w')
    as Hkept.
  { intros columns path recs w' Hw'. by exists recs. }
  unfold get_sent_emails, get_run_stats.
  rewrite !_read_csv_run, add_sent_email_run, add_run_stats_run,
    get_pending_jobs_run, get_today_sent_emails_count_run.
  cbn [snd]. repeat split.
  - eapply Hkept. unfold put_log. cbn [snd files].
    by rewrite put_file_lookup, Hs, file_text_app.
  - eapply Hkept. by rewrite ensured_lookup, Hs.
  - eapply Hkept. by rewrite ensured_lookup, Hs.
  - destruct records as [|a records].
    + rewrite add_scraped_jobs_nil_run, _get_next_row_number_run.
      eapply Hkept. cbn [snd]. by rewrite ensured_lookup, Hj.
    + rewrite add_scraped_jobs_run by done. eapply Hkept. cbn [snd].
      by rewrite put_file_lookup, Hj, file_text_app.
  - destruct (DictReader.to_list (contents_of (_jobs_path self)
                                    SCRAPED_JOB_COLUMNS w))
      as [rows|] eqn:Hread.
    + destruct (decide (0 ≤ row_number - 2 < Z.of_nat (length rows))%Z)
        as [Hin|Hout].
      * destruct (lookup_lt_is_Some_2 rows (Z.to_nat (row_number - 2)))
          as [row Hrow]; [lia|].
        erewrite update_run_in_range by done. eapply Hkept.
        unfold put_log. cbn [snd files]. by rewrite put_file_lookup.
      * erewrite update_run_out_of_range by done. eapply Hkept.
        unfold put_log. cbn [snd files]. by rewrite ensured_lookup, Hj.
    + rewrite update_run_unreadable by done. eapply Hkept.
      cbn [snd]. by rewrite ensured_lookup, Hj.
  - eapply Hkept. by rewrite ensured_lookup, Hj.
  - eapply Hkept. unfold put_log. cbn [snd files].
    by rewrite put_file_lookup, Ht, file_text_app.
  - eapply Hkept. by rewrite ensured_lookup, Ht.
Qed.

Module CountFacts.
Import Text TextFacts Csv LineFacts ReaderFacts.

Lemma readlines_singleton (s l : string) : readlines s = [l] → l = s.
Proof.
  revert l. induction s as [|c s IH]; intros l; [done|].
  rewrite readlines_cons. destruct (line_ends c s).
  - intros [= <- Hs]. by apply readlines_nil in Hs as ->.
  - destruct (readlines s) as [|l' ls] eqn:Hs.
    + apply readlines_nil in Hs as ->. by intros [= <-].
    + intros [= <- ->]. by rewrite (IH l').
Qed.

(** A text that is one line has no line break before its end. *)
Lemma count_lines_one (x : string) :
  count_lines (x +:+ lineterminator) = 1 → no_newline x = true.
Proof.
  unfold count_lines. intros Hone.
  destruct (readlines (x +:+ lineterminator)) as [|l [|]] eqn:Hl; try done.
  pose proof (readlines_well_ended (x +:+ lineterminator)) as Hw.
  rewrite Hl in Hw. inversion Hw as [|? ? Hwl _]; subst.
  apply readlines_singleton in Hl as ->. clear Hw Hone.
  induction x as [|c x IH]; [done|].
  rewrite app_cons in Hwl. simpl in Hwl. unfold no_newline. simpl.
  destruct (is_newline c) eqn:Hc; simpl.
  - destruct Hwl as [Hnil|[_ Hlf]].
    + by destruct x.
    + by destruct x as [|? [|]].
  - by apply IH.
Qed.

Lemma no_newline_join_fields_eq (fs : list string) :
  no_newline (join_fields fs) = forallb no_newline fs.
Proof.
  induction fs as [|f fs IH]; [done|].
  destruct fs as [|g fs].
  - simpl. by rewrite no_newline_join_append, andb_true_r.
  - change (join_fields (f :: g :: fs))
      with (join_append f +:+ String COMMA (join_fields (g :: fs))).
    rewrite no_newline_app, no_newline_join_append.
    change (no_newline (String COMMA ?s)) with (no_newline s).
    by rewrite IH.
Qed.

Lemma count_lines_writerow_pos (fs : list string) : 1 ≤ count_lines (writerow fs).
Proof.
  unfold count_lines. destruct (readlines (writerow fs)) eqn:Hl; [|simpl; lia].
  apply readlines_nil in Hl. destruct (writerow_LF fs) as [s Hs].
  rewrite Hs in Hl. by destruct s.
Qed.

(** A record is one line of the file exactly when none of its fields has a
    line break. *)
Lemma count_lines_writerow_iff (fs : list string) :
  count_lines (writerow fs) = 1 ↔ forallb no_newline fs = true.
Proof.
  split; [|apply count_lines_writerow].
  destruct (decide (fs = [EmptyString])) as [->|Hne]; [done|].
  replace (writerow fs) with (join_fields fs +:+ lineterminator)
    by (destruct fs as [|[|] [|]]; done).
  intros H%count_lines_one. by rewrite <-no_newline_join_fields_eq.
Qed.

Lemma count_lines_writerows_ge (rows : list (list string)) :
  length rows ≤ count_lines (writerows rows).
Proof.
  induction rows as [|fs rows IH]; simpl; [lia|].
  rewrite count_lines_writerow_app. pose proof (count_lines_writerow_pos fs). lia.
Qed.

Lemma count_lines_writerows_iff (rows : list (list string)) :
  count_lines (writerows rows) = length rows
  ↔ Forall (λ fs, forallb no_newline fs = true) rows.
Proof.
  split; [|apply count_lines_writerows].
  induction rows as [|fs rows IH]; [constructor|]. simpl.
  rewrite count_lines_writerow_app. intros Hsum.
  pose proof (count_lines_writerow_pos fs).
  pose proof (count_lines_writerows_ge rows).
  constructor; [apply count_lines_writerow_iff|apply IH]; lia.
Qed.

End CountFacts.

(** X12. Row numbers are line numbers, and they agree with the positions
    of the rows only while no field holds a line break. For a file of the
    store with K records (the column names without line breaks), the start
    row that [_append_rows] returns, and that [add_scraped_jobs] hands out,
    is at least K + 2; it is K + 2 exactly when every field of every record
    is free of line breaks. *)
Theorem start_row_and_line_breaks (path : string) (columns : list string)
    (recs : list (list string)) (rows : list PyDict) (w : World) :
  forallb Text.no_newline columns = true →
  files w !! path = Some (file_text columns recs) →
  ∃ start_row w',
    _append_rows path columns rows w = (Ok start_row, w')
    ∧ (Z.of_nat (length recs) + 2 ≤ start_row)%Z
    ∧ (start_row = (Z.of_nat (length recs) + 2)%Z
       ↔ Forall (λ fs, forallb Text.no_newline fs = true) recs).
Proof.
  intros Hcols Hfile. rewrite _append_rows_run. eexists _, _. split; [done|].
  rewrite (contents_of_lookup _ _ _ _ Hfile). unfold file_text.
  rewrite LineFacts.count_lines_writerow_app, LineFacts.count_lines_writerow by done.
  pose proof (CountFacts.count_lines_writerows_ge recs).
  rewrite <-CountFacts.count_lines_writerows_iff. split; [lia|]. split; lia.
Qed.

Lemma stored_row_ext (columns : list string) (d d' : PyDict) :
  (∀ key, key ∈ columns →
     DictWriter.cell_text (dict_get d key (Str EmptyString))
     = DictWriter.cell_text (dict_get d' key (Str EmptyString))) →
  stored_row columns d = stored_row columns d'.
Proof.
  intros H. unfold stored_row. apply map_ext_in. intros key Hkey.
  apply H. by apply list_elem_of_In.
Qed.

Lemma dict_get_read_back (columns : list string) (d : PyDict) (key : string)
    (dflt : value) :
  key ∈ columns →
  dict_get (read_back columns d) key dflt
  = Str (DictWriter.cell_text (dict_get d key (Str EmptyString))).
Proof.
  intros Hkey. unfold dict_get at 1. by rewrite read_back_lookup, decide_True.
Qed.

(** Writing a row that was read back gives the text that was written. *)
Lemma stored_row_read_back (columns : list string) (d : PyDict) :
  stored_row columns (read_back columns d) = stored_row columns d.
Proof.
  apply stored_row_ext. intros key Hkey. by rewrite dict_get_read_back.
Qed.

Lemma stored_row_set_status_read_back (columns : list string) e s r (d : PyDict) :
  stored_row columns (set_status e s r (read_back columns (set_status e s r d)))
  = stored_row columns (set_status e s r d).
Proof.
  apply stored_row_ext. intros key Hkey. rewrite !dict_get_set_status.
  destruct (status_of e s r key) eqn:Hst; [done|].
  rewrite dict_get_read_back, dict_get_set_status, Hst by done. done.
Qed.

Lemma read_all_stored (columns : list string) (ds : list PyDict) :
  DictReader.read_all (file_text columns (stored_row columns <$> ds))
  = match columns with [] => [] | _ => read_back columns <$> ds end.
Proof.
  destruct columns as [|c columns]; [|by apply read_all_rewritten].
  rewrite read_all_file_text. induction ds as [|d ds IH]; [done|].
  rewrite fmap_cons, filter_cons_False; [done|]. simpl. by intros ?.
Qed.

(** X9. An update is idempotent on the files: the same call a second time
    leaves the job file, and every other file, as the first call left
    them. The caller's records are not touched by either. *)
Theorem update_idempotent (columns : list string) (self : CsvBackend)
    (row_number : Z) (email_sent skip_reason email_recipient : string)
    (w : World) :
  let update := update_scraped_job_status columns self row_number email_sent
                  skip_reason email_recipient in
  files ((update;; update) w).2 = files (update w).2
  ∧ heap ((update;; update) w).2 = heap w.
Proof.
  intros update. unfold update. unfold_monad.
  set (path := _jobs_path self).
  set (idx := Z.to_nat (row_number - 2)).
  destruct (DictReader.to_list (contents_of path columns w)) as [rows|] eqn:Hread;
    [|rewrite update_run_unreadable by done; split; [done|apply ensured_heap]].
  destruct (decide (0 ≤ row_number - 2 < Z.of_nat (length rows))%Z) as [Hin|Hout].
  - destruct (lookup_lt_is_Some_2 rows idx) as [row Hrow]; [unfold idx; lia|].
    rewrite (update_run_in_range _ _ _ _ _ _ _ _ Hread row Hin Hrow).
    fold path idx.
    set (rows1 := <[idx := set_status email_sent skip_reason email_recipient row]> rows).
    set (w1 := put_log _ _ (put_file path _ (ensured path columns w))).
    assert (files w1 !! path
            = Some (file_text columns (stored_row columns <$> rows1))) as Hw1
      by apply put_file_lookup.
    assert (heap w1 = heap w) as Hheap by apply ensured_heap.
    destruct (DictReader.to_list (contents_of path columns w1))
      as [rows2|] eqn:Hread2.
    2: { rewrite update_run_unreadable by done. cbn [snd]. fold path.
         by rewrite (ensured_exists _ _ _ _ Hw1). }
    pose proof (to_list_Some _ _ Hread2) as Hrows2.
    rewrite (contents_of_lookup _ _ _ _ Hw1), read_all_stored in Hrows2.
    destruct columns as [|c columns].
    + rewrite (update_run_out_of_range _ _ _ _ _ _ _ _ Hread2)
        by (rewrite Hrows2; simpl; lia).
      cbn [snd]. fold path. by rewrite (ensured_exists _ _ _ _ Hw1).
    + rewrite (update_run_in_range _ _ _ _ _ _ _ _ Hread2
                 (read_back (c :: columns)
                    (set_status email_sent skip_reason email_recipient row))).
      * cbn [snd]. unfold put_log. cbn [files heap]. fold path idx.
        rewrite (ensured_exists _ _ _ _ Hw1). split; [|done].
        unfold w1, put_log, put_file. cbn [files]. rewrite insert_insert_eq.
        assert (stored_row (c :: columns) <$>
                  <[idx := set_status email_sent skip_reason email_recipient
                             (read_back (c :: columns)
                                (set_status email_sent skip_reason
                                   email_recipient row))]> rows2
                = stored_row (c :: columns) <$> rows1) as ->; [|done].
        rewrite Hrows2. apply list_eq. intros j.
        rewrite !list_lookup_fmap. unfold rows1.
        destruct (decide (j = idx)) as [->|Hj].
        -- rewrite !list_lookup_insert_eq;
             rewrite ?length_fmap, ?length_insert; try (unfold idx; lia).
           cbn -[stored_row read_back set_status]. f_equal.
           apply stored_row_set_status_read_back.
        -- rewrite !list_lookup_insert_ne by done.
           rewrite list_lookup_fmap, list_lookup_insert_ne by done.
           destruct (rows !! j) as [d|]; [|done].
           cbn -[stored_row read_back]. by rewrite stored_row_read_back.
      * rewrite Hrows2, length_fmap. unfold rows1. rewrite length_insert. lia.
      * rewrite Hrows2, list_lookup_fmap. unfold rows1. fold idx.
        rewrite list_lookup_insert_eq by (unfold idx; lia). done.
  - rewrite (update_run_out_of_range _ _ _ _ _ _ _ _ Hread Hout). fold path.
    set (w1 := put_log _ _ (ensured path columns w)).
    assert (files w1 !! path = Some (contents_of path columns w)) as Hw1
      by apply ensured_lookup.
    assert (DictReader.to_list (contents_of path columns w1) = Some rows) as Hread1
      by by rewrite (contents_of_lookup _ _ _ _ Hw1).
    rewrite (update_run_out_of_range _ _ _ _ _ _ _ _ Hread1 Hout).
    cbn [snd]. fold path. rewrite (ensured_exists _ _ _ _ Hw1).
    split; [done|]. unfold w1. simpl. apply ensured_heap.
Qed.

Lemma is_pending_read_back (columns : list string) (d : PyDict) :
  "email_sent" ∈ columns → is_pending (read_back columns d) = is_pending d.
Proof.
  intros Hkey. unfold is_pending. rewrite dict_get_read_back by done.
  destruct (dict_get d "email_sent" (Str EmptyString)) as [v|]; simpl; [|done].
  apply bool_decide_ext. split; congruence.
Qed.

(** X10. An update takes effect on the pending list. After an update in
    range on a job file that the csv reader gets through (the schema has
    the column [email_sent]; the column names and the new values are within
    the reader's limit), [get_pending_jobs] works on rows of which the one
    addressed is pending exactly when the new status is "Pending", and every
    other one exactly when it was pending before: marking a job as sent
    takes that job, and no other, off the list. *)
Theorem update_then_pending (columns : list string) (self : CsvBackend)
    (row_number : Z) (email_sent skip_reason email_recipient : string)
    (w : World) (contents : string) :
  "email_sent" ∈ columns → fit columns →
  fit [email_sent; skip_reason; email_recipient] →
  files w !! _jobs_path self = Some contents →
  reads contents →
  let rows := DictReader.read_all contents in
  let idx := Z.to_nat (row_number - 2) in
  (0 ≤ row_number - 2 < Z.of_nat (length rows))%Z →
  ∃ rows' w',
    (update_scraped_job_status columns self row_number email_sent skip_reason
       email_recipient;;
     get_pending_jobs columns self) w
    = (Ok ((λ p, dict_set "row_number" (Str (str_int (p.1 + 2))) p.2)
             <$> filter (λ p, is_pending p.2 = true) (enumerate rows')), w')
    ∧ length rows' = length rows
    ∧ ∀ j row, rows !! j = Some row →
        ∃ row', rows' !! j = Some row'
          ∧ is_pending row'
            = if decide (j = idx) then bool_decide (email_sent = "Pending")
              else is_pending row.
Proof.
  intros Hkey Hcols Hstatus Hfile Hreads rows idx Hin.
  assert (columns ≠ []) as Hne by (intros ->; by apply elem_of_nil in Hkey).
  destruct (update_in_range_rows columns self row_number email_sent skip_reason
              email_recipient w contents Hne Hfile Hreads Hin)
    as (w' & contents' & recs' & Hrun & Hfiles & _ & _ & Hrows' & Hreads').
  fold rows idx in Hrows'.
  assert (files w' !! _jobs_path self = Some contents') as Hfile'
    by (rewrite Hfiles; apply lookup_insert_eq).
  specialize (Hreads' Hcols Hstatus). apply reads_read_all in Hreads'.
  eexists _, _. split; [|split].
  - unfold_monad. rewrite Hrun, get_pending_jobs_run.
    rewrite (contents_of_lookup _ _ _ _ Hfile'), (read_result_ok _ _ Hreads').
    rewrite Hrows'. reflexivity.
  - by rewrite length_fmap, length_alter.
  - intros j row Hj. rewrite list_lookup_fmap.
    destruct (decide (j = idx)) as [->|Hj'].
    + rewrite list_lookup_alter_eq, Hj. eexists. split; [done|].
      rewrite is_pending_read_back by done.
      unfold is_pending. rewrite dict_get_set_status. simpl.
      apply bool_decide_ext. split; congruence.
    + rewrite list_lookup_alter_ne, Hj by done. eexists. split; [done|].
      by apply is_pending_read_back.
Qed.

Lemma sent_today_read_back (columns : list string) (today_str : string)
    (d : PyDict) :
  "date_sent" ∈ columns →
  sent_today today_str (read_back columns d) = sent_today today_str d.
Proof.
  intros Hkey. unfold sent_today. rewrite dict_get_read_back by done.
  by destruct (dict_get d "date_sent" (Str EmptyString)).
Qed.

(** X11. A sent email counts at once. On a sent-email file of the store
    (the schema has the column [date_sent]; no field over the reader's
    limit in the column names, the file or the record), the count of
    today's emails after [add_sent_email] is the count before, plus one
    exactly when the record's [date_sent] is a string that starts with
    today's date. *)
Theorem add_sent_email_counts (columns : list string) (self : CsvBackend)
    (w : World) (record : PyDict) :
  "date_sent" ∈ columns → fit columns →
  readable_file columns (files w !! _sent_path self) →
  readable columns record →
  ∃ count w',
    (get_today_sent_emails_count columns self w).1 = Ok count
    ∧ (add_sent_email columns self record;;
       get_today_sent_emails_count columns self) w
      = (Ok (count + (if sent_today (isoformat (today w)) record then 1 else 0))%Z,
         w').
Proof.
  intros Hkey Hcols Hstore Hrecord.
  assert (columns ≠ []) as Hne by (intros ->; by apply elem_of_nil in Hkey).
  destruct (readable_file_contents _ _ _ Hstore) as (recs & Hw & Hrecs).
  eexists _, _. split.
  - by rewrite get_today_sent_emails_count_run, Hw, read_result_file_text.
  - unfold_monad. rewrite add_sent_email_run, get_today_sent_emails_count_run.
    unfold put_log at 1 2 3. cbn [today files]. rewrite Hw.
    erewrite contents_of_lookup by apply put_file_lookup.
    change [stored_row columns record] with (stored_row columns <$> [record]).
    rewrite read_after_append by (done || by repeat constructor).
    cbn [result_map].
    rewrite list.filter_app, length_app. simpl.
    unfold put_file. cbn [today]. rewrite ensured_today.
    rewrite <-(sent_today_read_back columns) by done.
    f_equal. f_equal.
    destruct (sent_today (isoformat (today w)) (read_back columns record)) eqn:E.
    + rewrite filter_cons_True by done. simpl. lia.
    + rewrite filter_cons_False by (by rewrite E). simpl. lia.
Qed.

Lemma filter_not_blank (recs : list (list string)) :
  Forall (λ fs, fs ≠ []) recs →
  filter (λ row, DictReader.is_blank row = false) recs = recs.
Proof.
  induction 1 as [|fs recs Hfs _ IH]; [done|].
  rewrite filter_cons_True by by destruct fs. by rewrite IH.
Qed.

Lemma readable_numbered_records (columns : list string) (h : nat → PyDict)
    (start_row : Z) (records : list nat) :
  NoDup records → readable_numbered columns h start_row records →
  Forall (readable columns)
    (number_records start_row (enumerate records) h <$> records).
Proof.
  intros Hnd Hr. apply Forall_fmap, Forall_forall. intros a Ha. simpl.
  apply list_elem_of_In, list_elem_of_lookup in Ha as [i Hi].
  unfold enumerate. erewrite number_records_at by done.
  rewrite Z.add_0_l. by apply Hr.
Qed.

(** X13. The row number that [add_scraped_jobs] writes into a record is the
    address of that record's row for [update_scraped_job_status]. On a job
    file of the store whose records are not blank and hold no line breaks
    (or on no file yet), for distinct records: the update called with the
    number given to the record at offset [i] changes the row at position
    K + i, where K rows were there before, and that row is the record's: it
    has the new status fields and, under every other column, the record's
    text. No field is over the reader's limit of 131072 characters: not in
    the names of the columns, the file, the records as numbered, or the new
    values. *)
Theorem assigned_row_number_addresses_row (columns : list string)
    (self : CsvBackend) (records : list nat) (w : World)
    (recs : list (list string)) (i : nat) (a : nat)
    (email_sent skip_reason email_recipient : string) :
  columns ≠ [] →
  forallb Text.no_newline columns = true →
  fit columns →
  fit [email_sent; skip_reason; email_recipient] →
  files w !! _jobs_path self = Some (file_text columns recs)
  ∨ (files w !! _jobs_path self = None ∧ recs = []) →
  Forall (λ fs, fs ≠ [] ∧ forallb Text.no_newline fs = true) recs →
  Forall fit recs →
  NoDup records →
  readable_numbered columns (heap w) (Z.of_nat (length recs) + 2) records →
  records !! i = Some a →
  ∃ start_row w1 w2 rows' row',
    add_scraped_jobs columns self records w = (Ok start_row, w1)
    ∧ items (heap w1 a) !! "row_number"
      = Some (Str (str_int (start_row + Z.of_nat i)))
    ∧ update_scraped_job_status columns self (start_row + Z.of_nat i)
        email_sent skip_reason email_recipient w1 = (Ok tt, w2)
    ∧ _read_csv (_jobs_path self) columns w2 = (Ok rows', w2)
    ∧ length rows' = length recs + length records
    ∧ rows' !! (length recs + i) = Some row'
    ∧ ∀ key, key ∈ columns →
        items row' !! key
        = match status_of email_sent skip_reason email_recipient key with
          | Some v => Some (Str v)
          | None => Some (Str (DictWriter.cell_text
                                 (dict_get (heap w1 a) key (Str EmptyString))))
          end.
Proof.
  intros Hne Hcols Lcols Lstatus Hfile Hrecs Lrecs Hnd Lrecords Hi.
  set (path := _jobs_path self).
  assert (contents_of path columns w = file_text columns recs) as Hw.
  { unfold contents_of. fold path in Hfile.
    destruct Hfile as [->|[-> ->]]; [done|]. simpl. by rewrite file_text_nil. }
  assert (records ≠ []) as Hrs by (by destruct records).
  assert (Forall (λ fs, forallb Text.no_newline fs = true) recs) as Hsingle.
  { apply Forall_forall. intros fs Hfs.
    by destruct (proj1 (Forall_forall _ _) Hrecs fs Hfs). }
  assert (Forall (λ fs : list string, fs ≠ []) recs) as Hfull.
  { apply Forall_forall. intros fs Hfs.
    by destruct (proj1 (Forall_forall _ _) Hrecs fs Hfs). }
  pose proof (add_scraped_jobs_run columns self records w Hrs) as Hadd.
  cbv zeta in Hadd. fold path in Hadd. rewrite Hw in Hadd.
  rewrite count_lines_file_text in Hadd by done.
  set (start_row := (Z.of_nat (S (length recs)) + 1)%Z) in *.
  set (h := number_records start_row (enumerate records) (heap w)) in *.
  rewrite file_text_app in Hadd.
  set (w1 := put_file path _ (put_heap h (ensured path columns w))) in Hadd.
  assert (files w1 !! path
          = Some (file_text columns (recs ++ (stored_row columns <$> (h <$> records)))))
    as Hw1 by apply put_file_lookup.
  assert (DictReader.read_all
            (file_text columns (recs ++ (stored_row columns <$> (h <$> records))))
          = (DictReader.row_to_dict columns <$> recs)
            ++ (read_back columns <$> (h <$> records))) as Hrows1.
  { rewrite read_all_file_text_app, read_all_file_text by done.
    by rewrite filter_not_blank. }
  assert (i < length records) as Hlt by by eapply lookup_lt_Some.
  assert (Z.to_nat (start_row + Z.of_nat i - 2) = length recs + i) as Hidx
    by (unfold start_row; lia).
  assert (reads (file_text columns
                   (recs ++ (stored_row columns <$> (h <$> records))))) as Hreads1.
  { apply reads_file_text; [done|]. apply fit_snoc; [done|].
    apply readable_numbered_records; [done|].
    by replace start_row with (Z.of_nat (length recs) + 2)%Z
      by (unfold start_row; lia). }
  pose proof (update_in_range_rows columns self (start_row + Z.of_nat i)
                email_sent skip_reason email_recipient w1 _ Hne Hw1 Hreads1)
    as Hupd0.
  cbv zeta in Hupd0. rewrite Hrows1, Hidx in Hupd0.
  destruct Hupd0
    as (w2 & contents' & recs' & Hupd & Hfiles2 & _ & _ & Hrows2 & Hreads2).
  { rewrite length_app, !length_fmap. unfold start_row. lia. }
  specialize (Hreads2 Lcols Lstatus). apply reads_read_all in Hreads2.
  assert (files w2 !! path = Some contents') as Hw2
    by (rewrite Hfiles2; apply lookup_insert_eq).
  exists start_row, w1, w2, (DictReader.read_all contents').
  eexists. split; [exact Hadd|]. split; [|split; [exact Hupd|split; [|split; [|split]]]].
  - unfold w1. cbn [heap put_file put_heap]. unfold h, enumerate.
    erewrite number_records_at by done. simpl. by rewrite lookup_insert_eq.
  - rewrite _read_csv_run, (ensured_exists _ _ _ _ Hw2).
    by rewrite (contents_of_lookup _ _ _ _ Hw2), (read_result_ok _ _ Hreads2).
  - rewrite Hrows2, length_fmap, length_alter, length_app, !length_fmap. done.
  - rewrite Hrows2, list_lookup_fmap, list_lookup_alter_eq.
    rewrite lookup_app_r by (rewrite length_fmap; lia).
    rewrite length_fmap, Nat.add_comm, Nat.add_sub.
    rewrite !list_lookup_fmap, Hi. reflexivity.
  - intros key Hkey. rewrite read_back_lookup, decide_True by done.
    rewrite dict_get_set_status.
    destruct (status_of email_sent skip_reason email_recipient key); [done|].
    by rewrite dict_get_read_back.
Qed.

(** The decimal form of an integer has no line break. *)
Lemma no_newline_str_int (n : Z) : Text.no_newline (str_int n) = true.
Proof.
  assert (∀ d, Text.no_newline (NilEmpty.string_of_uint d) = true) as Hu
    by (induction d; done).
  assert (∀ d, Text.no_newline (NilZero.string_of_uint d) = true) as Hz
    by (intros []; try done; apply Hu).
  unfold str_int. destruct (Z.to_int n); [apply Hz|].
  unfold NilZero.string_of_int. apply Hz.
Qed.

Lemma single_line_numbered (columns : list string) (d : PyDict) (n : Z) :
  (∀ key, key ∈ columns → key ≠ "row_number" →
     Text.no_newline (DictWriter.cell_text (dict_get d key (Str EmptyString))) = true) →
  forallb Text.no_newline
    (stored_row columns (dict_set "row_number" (Str (str_int n)) d)) = true.
Proof.
  intros Hd. apply forallb_forall. intros x Hx. unfold stored_row in Hx.
  apply in_map_iff in Hx as (key & <- & Hkey). apply list_elem_of_In in Hkey.
  unfold dict_get, dict_set. simpl.
  destruct (decide (key = "row_number")) as [->|Hne].
  - rewrite lookup_insert_eq. apply no_newline_str_int.
  - rewrite lookup_insert_ne by done. by apply Hd.
Qed.

(** X7. Batches get consecutive row numbers. On a job file of the store
    without line breaks in its records (or on no file yet), after
    [add_scraped_jobs] has numbered a batch of distinct records whose other
    fields hold no line breaks, the next call starts right after it: its
    start row is the first start row plus the size of the first batch. *)
Theorem batches_are_consecutive (columns : list string) (self : CsvBackend)
    (first next : list nat) (w : World) (recs : list (list string)) :
  forallb Text.no_newline columns = true →
  files w !! _jobs_path self = Some (file_text columns recs)
  ∨ (files w !! _jobs_path self = None ∧ recs = []) →
  Forall (λ fs, forallb Text.no_newline fs = true) recs →
  first ≠ [] → NoDup first →
  (∀ a key, a ∈ first → key ∈ columns → key ≠ "row_number" →
     Text.no_newline
       (DictWriter.cell_text (dict_get (heap w a) key (Str EmptyString))) = true) →
  ∃ start1 w1 start2 w2,
    add_scraped_jobs columns self first w = (Ok start1, w1)
    ∧ add_scraped_jobs columns self next w1 = (Ok start2, w2)
    ∧ start1 = (Z.of_nat (length recs) + 2)%Z
    ∧ start2 = (start1 + Z.of_nat (length first))%Z.
Proof.
  intros Hcols Hfile Hrecs Hne Hnd Hfields.
  set (path := _jobs_path self).
  assert (contents_of path columns w = file_text columns recs) as Hw.
  { unfold contents_of. fold path in Hfile.
    destruct Hfile as [->|[-> ->]]; [done|]. simpl. by rewrite file_text_nil. }
  pose proof (add_scraped_jobs_run columns self first w Hne) as Hadd.
  cbv zeta in Hadd. fold path in Hadd. rewrite Hw in Hadd.
  rewrite count_lines_file_text in Hadd by done.
  set (start_row := (Z.of_nat (S (length recs)) + 1)%Z) in *.
  set (h := number_records start_row (enumerate first) (heap w)) in *.
  rewrite file_text_app in Hadd.
  set (w1 := put_file path _ (put_heap h (ensured path columns w))) in Hadd.
  assert (files w1 !! path
          = Some (file_text columns (recs ++ (stored_row columns <$> (h <$> first)))))
    as Hw1 by apply put_file_lookup.
  assert (Text.count_lines
            (file_text columns (recs ++ (stored_row columns <$> (h <$> first))))
          = S (length recs + length first)) as Hlines.
  { rewrite count_lines_file_text, length_app, !length_fmap; [done..|].
    apply Forall_app. split; [done|].
    apply Forall_fmap, Forall_fmap, Forall_forall. intros a Ha. simpl.
    apply list_elem_of_In, list_elem_of_lookup in Ha as [i Hi].
    unfold h, enumerate. erewrite number_records_at by done.
    apply single_line_numbered. intros key Hkey Hrn.
    apply Hfields; [by eapply list_elem_of_lookup_2|done..]. }
  assert (∃ w2, add_scraped_jobs columns self next w1
                = (Ok (Z.of_nat (S (length recs + length first)) + 1)%Z, w2))
    as [w2 Hnext].
  { destruct next as [|b next].
    - rewrite add_scraped_jobs_nil_run, _get_next_row_number_run.
      fold path. rewrite (contents_of_lookup _ _ _ _ Hw1), Hlines. eauto.
    - rewrite add_scraped_jobs_run by done.
      fold path. rewrite (contents_of_lookup _ _ _ _ Hw1), Hlines. eauto. }
  eexists start_row, w1, _, w2. split; [exact Hadd|]. split; [exact Hnext|].
  unfold start_row. lia.
Qed.

Lemma elem_of_enumerate_from {A} (l : list A) : ∀ (start : Z) (j : nat) (x : A),
  l !! j = Some x → (start + Z.of_nat j, x)%Z ∈ enumerate_from start l.
Proof.
  induction l as [|y l IH]; intros start j x Hj; [done|].
  destruct j as [|j]; simpl in Hj; cbn [enumerate_from].
  - injection Hj as ->. rewrite Z.add_0_r. apply list_elem_of_here.
  - apply list_elem_of_further.
    replace (start + Z.of_nat (S j))%Z with ((start + 1) + Z.of_nat j)%Z by lia.
    by apply IH.
Qed.

Lemma elem_of_pending_of (rows : list PyDict) (j : nat) (row : PyDict) :
  rows !! j = Some row → is_pending row = true →
  dict_set "row_number" (Str (str_int (Z.of_nat j + 2))) row
  ∈ pending_of (enumerate rows).
Proof.
  intros Hj Hp. unfold pending_of. apply list_elem_of_fmap.
  exists (Z.of_nat j, row). split; [done|].
  apply list_elem_of_filter. split; [done|].
  apply (elem_of_enumerate_from rows 0 j row Hj).
Qed.

Lemma dict_set_same (key : string) (v : value) (d : PyDict) :
  items d !! key = Some v → dict_set key v d = d.
Proof. intros H. destruct d as [m r]. unfold dict_set. simpl in *. by rewrite insert_id. Qed.

(** X14. What [add_scraped_jobs] numbers, [get_pending_jobs] finds under
    the same number. On a job file of the store whose records are not
    blank and hold no line breaks (or on no file yet), a record added with
    [email_sent] "Pending" is among the pending jobs afterwards, as it reads
    back from the file; the row number that [get_pending_jobs] recomputes
    for it from its position is the one [add_scraped_jobs] wrote. No field
    is over the reader's limit of 131072 characters: not in the names of the
    columns, the file, or the records as numbered. *)
Theorem pending_after_add (columns : list string) (self : CsvBackend)
    (records : list nat) (w : World) (recs : list (list string))
    (i : nat) (a : nat) :
  forallb Text.no_newline columns = true →
  fit columns →
  "email_sent" ∈ columns → "row_number" ∈ columns →
  files w !! _jobs_path self = Some (file_text columns recs)
  ∨ (files w !! _jobs_path self = None ∧ recs = []) →
  Forall (λ fs, fs ≠ [] ∧ forallb Text.no_newline fs = true) recs →
  Forall fit recs →
  NoDup records →
  readable_numbered columns (heap w) (Z.of_nat (length recs) + 2) records →
  records !! i = Some a →
  items (heap w a) !! "email_sent" = Some (Str "Pending") →
  ∃ start_row w1 jobs w2,
    add_scraped_jobs columns self records w = (Ok start_row, w1)
    ∧ get_pending_jobs columns self w1 = (Ok jobs, w2)
    ∧ read_back columns (heap w1 a) ∈ jobs
    ∧ items (read_back columns (heap w1 a)) !! "row_number"
      = Some (Str (str_int (start_row + Z.of_nat i)))
    ∧ start_row = (Z.of_nat (length recs) + 2)%Z.
Proof.
  intros Hcols Lcols Hsent Hrn Hfile Hrecs Lrecs Hnd Lrecords Hi Hpending.
  assert (columns ≠ []) as Hne by (intros ->; by apply elem_of_nil in Hrn).
  set (path := _jobs_path self).
  assert (contents_of path columns w = file_text columns recs) as Hw.
  { unfold contents_of. fold path in Hfile.
    destruct Hfile as [->|[-> ->]]; [done|]. simpl. by rewrite file_text_nil. }
  assert (records ≠ []) as Hrs by (by destruct records).
  assert (Forall (λ fs, forallb Text.no_newline fs = true) recs) as Hsingle.
  { apply Forall_forall. intros fs Hfs.
    by destruct (proj1 (Forall_forall _ _) Hrecs fs Hfs). }
  assert (Forall (λ fs : list string, fs ≠ []) recs) as Hfull.
  { apply Forall_forall. intros fs Hfs.
    by destruct (proj1 (Forall_forall _ _) Hrecs fs Hfs). }
  pose proof (add_scraped_jobs_run columns self records w Hrs) as Hadd.
  cbv zeta in Hadd. fold path in Hadd. rewrite Hw in Hadd.
  rewrite count_lines_file_text in Hadd by done.
  set (start_row := (Z.of_nat (S (length recs)) + 1)%Z) in *.
  set (h := number_records start_row (enumerate records) (heap w)) in *.
  rewrite file_text_app in Hadd.
  set (w1 := put_file path _ (put_heap h (ensured path columns w))) in Hadd.
  assert (files w1 !! path
          = Some (file_text columns (recs ++ (stored_row columns <$> (h <$> records)))))
    as Hw1 by apply put_file_lookup.
  assert (h a = dict_set "row_number" (Str (str_int (start_row + Z.of_nat i)))
                  (heap w a)) as Hha.
  { unfold h, enumerate. by erewrite number_records_at by done. }
  assert (items (read_back columns (h a)) !! "row_number"
          = Some (Str (str_int (start_row + Z.of_nat i)))) as Hnum.
  { rewrite read_back_lookup, decide_True by done.
    unfold dict_get. rewrite Hha. simpl. by rewrite lookup_insert_eq. }
  assert (read_result (file_text columns
                         (recs ++ (stored_row columns <$> (h <$> records))))
          = Ok (DictReader.read_all
                  (file_text columns
                     (recs ++ (stored_row columns <$> (h <$> records))))))
    as Hread1.
  { apply read_result_file_text; [done|]. apply fit_snoc; [done|].
    apply readable_numbered_records; [done|].
    by replace start_row with (Z.of_nat (length recs) + 2)%Z
      by (unfold start_row; lia). }
  eexists start_row, w1, _, _.
  split; [exact Hadd|]. split.
  { rewrite get_pending_jobs_run. fold path.
    rewrite (contents_of_lookup _ _ _ _ Hw1), Hread1. reflexivity. }
  split; [|split; [exact Hnum|unfold start_row; lia]].
  rewrite read_all_file_text_app, read_all_file_text, filter_not_blank by done.
  change (heap w1 a) with (h a).
  rewrite <-(dict_set_same "row_number"
               (Str (str_int (Z.of_nat (length recs + i) + 2)))
               (read_back columns (h a))).
  - apply elem_of_pending_of.
    + rewrite lookup_app_r by (rewrite length_fmap; lia).
      rewrite length_fmap, Nat.add_comm, Nat.add_sub.
      by rewrite !list_lookup_fmap, Hi.
    + rewrite is_pending_read_back by done. unfold is_pending, dict_get.
      rewrite Hha. simpl. rewrite lookup_insert_ne by done.
      rewrite Hpending. by apply bool_decide_eq_true.
  - rewrite Hnum. do 3 f_equal. unfold start_row. lia.
Qed.

(** X15. Appending never rewrites. Whatever an existing file holds,
    [add_sent_email] and [add_run_stats] leave its contents in place and put
    exactly one record after them: the record's values under the columns, in
    the writer's form; and [add_scraped_jobs] leaves the contents in place
    and puts its rows after them (none for an empty batch). Each logs one
    line, except [add_scraped_jobs], which logs nothing. *)
Theorem appends_keep_contents (SENT_EMAIL_COLUMNS SCRAPED_JOB_COLUMNS
    RUN_STATS_COLUMNS : list string) (self : CsvBackend) (w : World)
    (record stats : PyDict) (records : list nat) (sent jobs run : string) :
  files w !! _sent_path self = Some sent →
  files w !! _jobs_path self = Some jobs →
  files w !! _stats_path self = Some run →
  (let w' := (add_sent_email SENT_EMAIL_COLUMNS self record w).2 in
   files w' !! _sent_path self
   = Some (sent +:+ Csv.writerow (stored_row SENT_EMAIL_COLUMNS record))
   ∧ ∃ msg, logs w' = logs w ++ [mkLog DEBUG msg])
  ∧ (let w' := (add_run_stats RUN_STATS_COLUMNS self stats w).2 in
     files w' !! _stats_path self
     = Some (run +:+ Csv.writerow (stored_row RUN_STATS_COLUMNS stats))
     ∧ ∃ msg, logs w' = logs w ++ [mkLog INFO msg])
  ∧ (let w' := (add_scraped_jobs SCRAPED_JOB_COLUMNS self records w).2 in
     files w' !! _jobs_path self
     = Some (jobs +:+ Csv.writerows
                        (stored_row SCRAPED_JOB_COLUMNS <$> (heap w' <$> records)))
     ∧ logs w' = logs w)
  ∧ files (add_scraped_jobs SCRAPED_JOB_COLUMNS self [] w).2 = files w.
Proof.
  intros Hs Hj Ht. split; [|split; [|split]].
  - rewrite add_sent_email_run. unfold put_log. cbn [snd files logs].
    rewrite put_file_lookup, (contents_of_lookup _ _ _ _ Hs).
    rewrite (ensured_exists _ _ _ _ Hs). simpl. rewrite app_nil_r. eauto.
  - rewrite add_run_stats_run. unfold put_log. cbn [snd files logs].
    rewrite put_file_lookup, (contents_of_lookup _ _ _ _ Ht).
    rewrite (ensured_exists _ _ _ _ Ht). simpl. rewrite app_nil_r. eauto.
  - destruct records as [|a records].
    + rewrite add_scraped_jobs_nil_run, _get_next_row_number_run.
      cbn [snd]. rewrite (ensured_exists _ _ _ _ Hj). simpl.
      by rewrite app_nil_r.
    + rewrite add_scraped_jobs_run by done. cbn [snd].
      rewrite put_file_lookup, (contents_of_lookup _ _ _ _ Hj).
      rewrite (ensured_exists _ _ _ _ Hj). done.
  - rewrite add_scraped_jobs_nil_run, _get_next_row_number_run.
    cbn [snd]. by rewrite (ensured_exists _ _ _ _ Hj).
Qed.

(** X16. An update in range rewrites the whole job file in the form of the
    schema, whatever the csv reader found in it: afterwards the file is the
    header of the schema followed by one record for each data row there
    was, in the writer's form, each with exactly as many fields as the
    schema has columns. A header that differed from the schema, blank
    lines, and short and long lines are gone. (On a file that the reader
    does not get through, the update raises and rewrites nothing.) *)
Theorem update_normalises_file (columns : list string) (self : CsvBackend)
    (row_number : Z) (email_sent skip_reason email_recipient : string)
    (w : World) (contents : string) :
  files w !! _jobs_path self = Some contents →
  reads contents →
  let rows := DictReader.read_all contents in
  (0 ≤ row_number - 2 < Z.of_nat (length rows))%Z →
  ∃ w' recs',
    update_scraped_job_status columns self row_number email_sent skip_reason
      email_recipient w = (Ok tt, w')
    ∧ files w' !! _jobs_path self = Some (file_text columns recs')
    ∧ length recs' = length rows
    ∧ Forall (λ fs, length fs = length columns) recs'.
Proof.
  intros Hfile Hreads%reads_read_all rows Hin.
  destruct (lookup_lt_is_Some_2 rows (Z.to_nat (row_number - 2)))
    as [row Hrow]; [lia|].
  pose proof (update_run_in_range columns self row_number email_sent skip_reason
                email_recipient w rows) as Hrun.
  cbv zeta in Hrun. rewrite (contents_of_lookup _ _ _ _ Hfile) in Hrun.
  specialize (Hrun Hreads row Hin Hrow).
  eexists _, _. split; [exact Hrun|]. unfold put_log. cbn [files].
  split; [apply put_file_lookup|].
  split.
  - by rewrite length_fmap, length_insert.
  - apply Forall_fmap, Forall_forall. intros d _. simpl.
    unfold stored_row. apply length_map.
Qed.

(** * The further properties at the example data *)

(** X2 with all three files in place. *)
Lemma queries_leave_world_witness :
  (get_sent_emails sent_columns backend full_world).2 = full_world
  ∧ (get_pending_jobs job_columns backend full_world).2 = full_world
  ∧ (get_run_stats stats_columns backend full_world).2 = full_world
  ∧ (get_today_sent_emails_count sent_columns backend full_world).2 = full_world
  ∧ (_get_next_row_number job_columns backend full_world).2 = full_world
  ∧ (add_scraped_jobs job_columns backend [] full_world).2 = full_world.
Proof.
  apply (queries_leave_world sent_columns job_columns stats_columns backend
           full_world); vm_compute; eexists; reflexivity.
Defined.

(** X3 in a directory without files. *)
Lemma queries_on_missing_files_witness :
  (get_sent_emails sent_columns backend new_world).1 = Ok []
  ∧ (get_today_sent_emails_count sent_columns backend new_world).1 = Ok 0%Z
  ∧ (_get_next_row_number job_columns backend new_world).1 = Ok 2%Z.
Proof.
  destruct (queries_on_missing_files sent_columns job_columns stats_columns
              backend new_world) as (Hs & _ & _ & Hc & Hn); [reflexivity..|].
  rewrite Hs, Hc, Hn. repeat split.
Defined.


(** X17 at the job file with the long title. *)
Lemma unreadable_file_raises_witness :
  get_pending_jobs job_columns backend long_job_world
  = (Raised CsvError, long_job_world).
Proof.
  destruct (unreadable_file_raises sent_columns job_columns stats_columns backend
              long_job_world 2 "Sent" "none" "hr@example.org")
    as (_ & Hjobs & _).
  destruct Hjobs as [_ Hpending]; [|exact Hpending].
  exists long_job_contents. split; [exact long_job_file|exact long_job_unreadable].
Defined.

(** X6 for two records appended to no file yet. *)
Lemma sent_emails_in_append_order_witness :
  ∃ before new w',
    (get_sent_emails sent_columns backend new_world).1 = Ok before
    ∧ (add_sent_emails sent_columns backend
         [record [("email", "a@example.org"); ("date_sent", "2024-01-02")];
          record [("email", "b@example.org")]];;
       get_sent_emails sent_columns backend) new_world
      = (Ok (before ++ new), w')
    ∧ Forall2 (round_trip sent_columns)
        [record [("email", "a@example.org"); ("date_sent", "2024-01-02")];
         record [("email", "b@example.org")]] new
    ∧ (files new_world !! _sent_path backend = None → before = []).
Proof.
  apply (sent_emails_in_append_order sent_columns backend new_world);
    [discriminate|reflexivity|left; reflexivity|].
  repeat constructor.
Defined.

(** X7 for the caller's two records on no file yet: the next batch starts
    at row 4. *)
Lemma batches_are_consecutive_witness :
  ∃ start1 w1 start2 w2,
    add_scraped_jobs job_columns backend [0; 1] new_world = (Ok start1, w1)
    ∧ add_scraped_jobs job_columns backend [2] w1 = (Ok start2, w2)
    ∧ start1 = 2%Z
    ∧ start2 = (start1 + 2)%Z.
Proof.
  apply (batches_are_consecutive job_columns backend [0; 1] [2] new_world []).
  - reflexivity.
  - right. split; reflexivity.
  - constructor.
  - discriminate.
  - apply NoDup_ListNoDup. repeat constructor; simpl; intuition lia.
  - intros a key Ha Hkey _. apply list_elem_of_In in Ha, Hkey.
    simpl in Ha, Hkey.
    destruct Ha as [<-|[<-|[]]];
      repeat (destruct Hkey as [<-|Hkey]; [vm_compute; reflexivity|]);
      destruct Hkey.
Defined.

(** X8 for a record appended to the example sent-email file. *)
Lemma store_files_stay_witness :
  ∃ recs,
    files (add_sent_email sent_columns backend
             (record [("email", "e@example.org")]) sent_world).2
      !! _sent_path backend
    = Some (file_text sent_columns recs).
Proof.
  destruct (store_files_stay sent_columns job_columns stats_columns backend
              sent_world (record [("email", "e@example.org")])
              (record [("date", "2024-01-02")]) [0] 2 "Sent" "none" "x@example.org")
    as [(recs & Hfile) _].
  - right. exists sent_rows. reflexivity.
  - left. reflexivity.
  - left. reflexivity.
  - exists recs. exact Hfile.
Defined.

(** X10 at the example job file: row 2, the pending one, is marked as sent. *)
Lemma update_then_pending_witness :
  ∃ rows' w',
    (update_scraped_job_status job_columns backend 2 "Sent" "none"
       "hr@example.org";;
     get_pending_jobs job_columns backend) job_world
    = (Ok ((λ p, dict_set "row_number" (Str (str_int (p.1 + 2))) p.2)
             <$> filter (λ p, is_pending p.2 = true) (enumerate rows')), w')
    ∧ length rows' = 2.
Proof.
  destruct (update_then_pending job_columns backend 2 "Sent" "none"
              "hr@example.org" job_world job_contents)
    as (rows' & w' & Hrun & Hlen & _).
  - compute_done.
  - reflexivity.
  - reflexivity.
  - reflexivity.
  - exact job_contents_reads.
  - split; vm_compute; [discriminate|reflexivity].
  - exists rows', w'. split; [exact Hrun|exact Hlen].
Defined.

(** X11 at the example sent-email file, on 2024-01-02: a third email of the
    day. *)
Lemma add_sent_email_counts_witness :
  ∃ w',
    (add_sent_email sent_columns backend
       (record [("email", "e@example.org"); ("date_sent", "2024-01-02T11:30:00")]);;
     get_today_sent_emails_count sent_columns backend) sent_world
    = (Ok 3%Z, w').
Proof.
  destruct (add_sent_email_counts sent_columns backend sent_world
              (record [("email", "e@example.org");
                       ("date_sent", "2024-01-02T11:30:00")]))
    as (count & w' & Hcount & Hrun).
  - compute_done.
  - reflexivity.
  - right. exists sent_rows. split; [reflexivity|exact sent_rows_fit].
  - vm_compute. reflexivity.
  - vm_compute in Hcount. injection Hcount as <-.
    exists w'. rewrite Hrun. reflexivity.
Defined.

(** X12 at the example job file: two records without line breaks, so the
    next row is 4. *)
Lemma start_row_and_line_breaks_witness :
  ∃ w', _append_rows (_jobs_path backend) job_columns [] job_world = (Ok 4%Z, w').
Proof.
  destruct (start_row_and_line_breaks (_jobs_path backend) job_columns job_rows
              [] job_world) as (start_row & w' & Hrun & _ & Hiff).
  - reflexivity.
  - reflexivity.
  - exists w'. rewrite Hrun. f_equal. f_equal. apply Hiff.
    repeat constructor.
Defined.

(** X13 for the caller's two records on no file yet: the second one is
    addressed by its number, 3. *)
Lemma assigned_row_number_addresses_row_witness :
  ∃ start_row w1 w2 rows' row',
    add_scraped_jobs job_columns backend [0; 1] new_world = (Ok start_row, w1)
    ∧ items (heap w1 1) !! "row_number"
      = Some (Str (str_int (start_row + Z.of_nat 1)))
    ∧ update_scraped_job_status job_columns backend (start_row + Z.of_nat 1)
        "Sent" "none" "hr@example.org" w1 = (Ok tt, w2)
    ∧ _read_csv (_jobs_path backend) job_columns w2 = (Ok rows', w2)
    ∧ length rows' = length (@nil (list string)) + length [0; 1]
    ∧ rows' !! (length (@nil (list string)) + 1) = Some row'
    ∧ ∀ key, key ∈ job_columns →
        items row' !! key
        = match status_of "Sent" "none" "hr@example.org" key with
          | Some v => Some (Str v)
          | None => Some (Str (DictWriter.cell_text
                                 (dict_get (heap w1 1) key (Str EmptyString))))
          end.
Proof.
  apply (assigned_row_number_addresses_row job_columns backend [0; 1] new_world
           [] 1 1 "Sent" "none" "hr@example.org").
  - discriminate.
  - reflexivity.
  - reflexivity.
  - reflexivity.
  - right. split; reflexivity.
  - constructor.
  - constructor.
  - apply NoDup_ListNoDup. repeat constructor; simpl; intuition lia.
  - intros [|[|j]] b Hj; [injection Hj as <-..|discriminate Hj];
      vm_compute; reflexivity.
  - reflexivity.
Defined.

(** X14 for the caller's two records on no file yet: the first one is
    pending under its number, 2. *)
Lemma pending_after_add_witness :
  ∃ start_row w1 jobs w2,
    add_scraped_jobs job_columns backend [0; 1] new_world = (Ok start_row, w1)
    ∧ get_pending_jobs job_columns backend w1 = (Ok jobs, w2)
    ∧ read_back job_columns (heap w1 0) ∈ jobs
    ∧ items (read_back job_columns (heap w1 0)) !! "row_number"
      = Some (Str (str_int (start_row + Z.of_nat 0)))
    ∧ start_row = (Z.of_nat (length (@nil (list string))) + 2)%Z.
Proof.
  apply (pending_after_add job_columns backend [0; 1] new_world [] 0 0).
  - reflexivity.
  - reflexivity.
  - compute_done.
  - compute_done.
  - right. split; reflexivity.
  - constructor.
  - constructor.
  - apply NoDup_ListNoDup. repeat constructor; simpl; intuition lia.
  - intros [|[|j]] b Hj; [injection Hj as <-..|discriminate Hj];
      vm_compute; reflexivity.
  - reflexivity.
  - reflexivity.
Defined.

(** X15 at the example files. *)
Lemma appends_keep_contents_witness :
  files (add_sent_email sent_columns backend
           (record [("email", "e@example.org")]) full_world).2
    !! _sent_path backend
  = Some (sent_contents
          +:+ Csv.writerow (stored_row sent_columns
                              (record [("email", "e@example.org")])))
  ∧ files (add_scraped_jobs job_columns backend [] full_world).2
    = files full_world.
Proof.
  destruct (appends_keep_contents sent_columns job_columns stats_columns backend
              full_world (record [("email", "e@example.org")])
              (record [("date", "2024-01-02")]) [] sent_contents job_contents
              (file_text stats_columns []))
    as ([Hsent _] & _ & _ & Hnil); [reflexivity..|].
  split; [exact Hsent|exact Hnil].
Defined.

(** X16 at the example job file, whose second row has a field too many. *)
Lemma update_normalises_file_witness :
  ∃ w' recs',
    update_scraped_job_status job_columns backend 2 "Sent" "none"
      "hr@example.org" job_world = (Ok tt, w')
    ∧ files w' !! _jobs_path backend = Some (file_text job_columns recs')
    ∧ Forall (λ fs, length fs = 5) recs'.
Proof.
  destruct (update_normalises_file job_columns backend 2 "Sent" "none"
              "hr@example.org" job_world job_contents)
    as (w' & recs' & Hrun & Hfile & _ & Hlen).
  - reflexivity.
  - exact job_contents_reads.
  - split; vm_compute; [discriminate|reflexivity].
  - exists w', recs'. split; [exact Hrun|]. split; [exact Hfile|exact Hlen].
Defined.
